(** * googleanalytics.query: a shallow embedding

    The module [googleanalytics/query.py] builds request parameters for the
    Google Analytics reporting API through chained builder calls, executes
    them page by page and assembles the pages into a [Report].

    The embedding follows the module function by function, with the
    semantics of Python 3. Python objects that are mutated in place (query
    objects, the lists kept in [Query.meta]) live in an explicit store and
    are referred to by address, so that aliasing between a query and its
    clones is visible. Exceptions are values of type [exn]; a computation
    returns a result and the store it leaves behind, also when it raises.
    Time is a rational number that only [time.sleep] moves.

    What the module imports and does not define (the column registry, the
    helpers of [utils], the remote endpoint, the cache) is gathered in the
    record [Env]; the properties hold for every [Env], and the module
    [Mock] gives one to run the model on examples. *)

From Stdlib Require Import ZArith NArith QArith Lia Lqa.
From Stdlib Require Import Ascii String DecimalString DecimalPos DecimalZ.
From stdpp Require Import base option list list_numbers strings gmap sets sorting.

Local Open Scope string_scope.
Local Open Scope Z_scope.
Local Open Scope list_scope.

(** ** Python values *)

(** The values that occur in [Query.raw] and in the lists of [Query.meta]:
    [None], integers, strings (a character is a code point below 256) and
    lists of strings. *)
Inductive value : Type :=
| VNone
| VInt (z : Z)
| VStr (s : string)
| VList (l : list string).

#[global] Instance value_eq_dec : EqDecision value.
Proof. solve_decision. Defined.

(** Truthiness of a value, as [if v:] tests it. *)
Definition truthy (v : value) : bool :=
  match v with
  | VNone => false
  | VInt z => negb (z =? 0)
  | VStr s => negb (String.eqb s "")
  | VList l => negb (Nat.eqb (length l) 0)
  end.

(** ** Exceptions *)

Inductive exn_class : Type :=
| TypeError
| ValueError
| IndexError
| KeyError
| UnboundLocalError
| AttributeError
| NotImplementedError
| InvalidRequestError
| GoogleAnalyticsError
| OtherException (name : string).

#[global] Instance exn_class_eq_dec : EqDecision exn_class.
Proof. solve_decision. Defined.

(** An exception object: its class, the text [str(err)] gives, and the
    [content] attribute when it has one (the HTTP errors of the client
    library carry the response body there). *)
Record exn : Type := Exn {
  exn_cls : exn_class;
  exn_msg : string;
  exn_content : option string;
}.

#[global] Instance exn_eq_dec : EqDecision exn.
Proof. solve_decision. Defined.

Definition raise_of (c : exn_class) (msg : string) : exn :=
  {| exn_cls := c; exn_msg := msg; exn_content := None |}.

Inductive res (A : Type) : Type :=
| Ok (a : A)
| Raise (e : exn).
Arguments Ok {A} a.
Arguments Raise {A} e.

Definition res_bind {A B} (r : res A) (k : A -> res B) : res B :=
  match r with
  | Ok a => k a
  | Raise e => Raise e
  end.

#[global] Instance res_ret : MRet res := fun A a => Ok a.
#[global] Instance res_mbind : MBind res := fun A B k r => res_bind r k.

Definition is_ok {A} (r : res A) : bool :=
  match r with Ok _ => true | Raise _ => false end.

Fixpoint res_mapM {A B} (f : A -> res B) (l : list A) : res (list B) :=
  match l with
  | [] => Ok []
  | a :: l' =>
      match f a with
      | Ok b =>
          match res_mapM f l' with
          | Ok bs => Ok (b :: bs)
          | Raise e => Raise e
          end
      | Raise e => Raise e
      end
  end.

(** ** Strings *)

Module Str.

Definition of_char (c : ascii) : string := String c EmptyString.

Fixpoint chars (s : string) : list string :=
    match s with
    | EmptyString => []
    | String c s' => of_char c :: chars s'
    end.

(** [sep.join(parts)] *)
Fixpoint join (sep : string) (parts : list string) : string :=
    match parts with
    | [] => ""
    | [p] => p
    | p :: rest => p +:+ sep +:+ join sep rest
    end.

(** [s.startswith('-')] *)
Definition startswith_dash (s : string) : bool :=
    match s with
    | String "-"%char _ => true
    | _ => false
    end.

(** [s.lstrip('-')]: every leading dash is dropped. *)
Fixpoint lstrip_dash (s : string) : string :=
    match s with
    | String "-"%char s' => lstrip_dash s'
    | _ => s
    end.

Fixpoint split_dunder_go (s : string) (cur : string) : list string :=
    match s with
    | EmptyString => [String.rev cur]
    | String "_"%char (String "_"%char rest) =>
        String.rev cur :: split_dunder_go rest ""
    | String c rest => split_dunder_go rest (String c cur)
    end.

(** [key.split('__')]: the separators are matched from the left and do
      not overlap. *)
Definition split_dunder (s : string) : list string := split_dunder_go s "".

(** ['__' in key] *)
Definition has_dunder (s : string) : bool :=
    negb (Nat.eqb (length (split_dunder s)) 1).

Fixpoint spaces (n : nat) : string :=
    match n with
    | O => ""
    | S n' => String " "%char (spaces n')
    end.

(** [s.ljust(width)] *)
Definition ljust (s : string) (width : nat) : string :=
    s +:+ spaces (width - String.length s).

(** [str(z)] for an integer. *)
Definition of_Z (z : Z) : string := NilZero.string_of_int (Z.to_int z).

End Str.

(** ** Dictionaries

    A Python [dict] keeps its items in insertion order, and [items()]
    yields them in that order: a dictionary is an association list in which
    every key occurs once. *)

Module Dict.
Section Dict.
Context {V : Type}.

Definition t := list (string * V).

Definition keys (d : t) : list string := map fst d.

Fixpoint get (d : t) (k : string) : option V :=
    match d with
    | [] => None
    | (k', v) :: d' => if String.eqb k k' then Some v else get d' k
    end.

Definition mem (d : t) (k : string) : bool :=
    match get d k with Some _ => true | None => false end.

(** [d[k] = v]: an existing key keeps its place, a new key goes last. *)
Fixpoint set (d : t) (k : string) (v : V) : t :=
    match d with
    | [] => [(k, v)]
    | (k', v') :: d' =>
        if String.eqb k k' then (k', v) :: d' else (k', v') :: set d' k v
    end.

(** [d.get(k, default)] *)
Definition get_default (d : t) (k : string) (default : V) : V :=
    match get d k with Some v => v | None => default end.

(** [d.update(other)] *)
Definition update (d other : t) : t :=
    fold_left (fun acc kv => set acc (fst kv) (snd kv)) other d.

End Dict.
Arguments t V : clear implicits.
End Dict.

Abbreviation dict := Dict.t.

(** ** [sorted(d.items(), key=lambda t: t[0])]

    Python's sort is stable; an insertion sort that places an item after
    the items whose key is not greater gives the same list. Keys are
    compared as strings, code point by code point. *)

Module Items.
Section Items.
Context {V : Type}.

Fixpoint insert (kv : string * V) (l : list (string * V)) : list (string * V) :=
  match l with
  | [] => [kv]
  | kv' :: l' =>
      if String.ltb (fst kv) (fst kv') then kv :: kv' :: l'
      else kv' :: insert kv l'
  end.

Definition by_key (l : list (string * V)) : list (string * V) :=
  fold_left (fun acc kv => insert kv acc) l [].

End Items.
End Items.

(** ** [json.dumps]

    The serialisation of the standard library with its default settings:
    [", "] between the items of an array, tuples written as arrays, and
    every character outside the printable ASCII range, the double quote
    and the backslash escaped. *)

Module Json.

Definition hex_digit (n : N) : ascii :=
  match n with
  | 0 => "0" | 1 => "1" | 2 => "2" | 3 => "3" | 4 => "4" | 5 => "5"
  | 6 => "6" | 7 => "7" | 8 => "8" | 9 => "9" | 10 => "a" | 11 => "b"
  | 12 => "c" | 13 => "d" | 14 => "e" | _ => "f"
  end%N%char.

(** ['\\u{0:04x}'.format(n)] for a code point below 256. *)
Definition u_escape (c : ascii) : string :=
  let n := N_of_ascii c in
  String "\" (String "u" (String "0" (String "0"
    (String (hex_digit (n / 16)%N) (String (hex_digit (n mod 16)%N) ""))))).

Definition dquote : ascii := "034"%char.

Definition escape_char (c : ascii) : string :=
  if Ascii.eqb c dquote then String "\" (String dquote "")
  else if Ascii.eqb c "\" then "\\"
  else if Ascii.eqb c "010" then "\n"
  else if Ascii.eqb c "013" then "\r"
  else if Ascii.eqb c "009" then "\t"
  else if Ascii.eqb c "008" then "\b"
  else if Ascii.eqb c "012" then "\f"
  else if ((32 <=? N_of_ascii c) && (N_of_ascii c <=? 126))%N
       then String c ""
  else u_escape c.

Fixpoint escape (s : string) : string :=
  match s with
  | EmptyString => ""
  | String c s' => escape_char c +:+ escape s'
  end.

Definition of_string (s : string) : string :=
  String dquote (escape s +:+ String dquote "").

Definition array (items : list string) : string :=
  "[" +:+ Str.join ", " items +:+ "]".

Definition of_value (v : value) : string :=
  match v with
  | VNone => "null"
  | VInt z => Str.of_Z z
  | VStr s => of_string s
  | VList l => array (map of_string l)
  end.

Definition of_item (kv : string * value) : string :=
  array [of_string (fst kv); of_value (snd kv)].

(** [json.dumps(items)] for a list of [(key, value)] tuples. *)
Definition dumps (items : list (string * value)) : string :=
  array (map of_item items).

End Json.

(** ** [hashlib.sha1]

    SHA-1 as FIPS 180 defines it, on a message of bytes; words are numbers
    below [2^32]. [hexdigest] writes the 160-bit result as 40 lower-case
    hexadecimal digits. *)

Module Sha1.
Local Open Scope N_scope.

Definition w32 : N := 2 ^ 32.

Definition add32 (a b : N) : N := (a + b) mod w32.

Definition rotl (n x : N) : N :=
  (N.lor (N.shiftl x n) (N.shiftr x (32 - n))) mod w32.

Definition not32 (x : N) : N := N.lxor x (N.ones 32).

Definition round_f (t : nat) (b c d : N) : N :=
  if (t <? 20)%nat then N.lor (N.land b c) (N.land (not32 b) d)
  else if (t <? 40)%nat then N.lxor (N.lxor b c) d
  else if (t <? 60)%nat then
    N.lor (N.lor (N.land b c) (N.land b d)) (N.land c d)
  else N.lxor (N.lxor b c) d.

Definition round_k (t : nat) : N :=
  if (t <? 20)%nat then 0x5A827999
  else if (t <? 40)%nat then 0x6ED9EBA1
  else if (t <? 60)%nat then 0x8F1BBCDC
  else 0xCA62C1D6.

(** The message followed by the bit [1], zeros, and its length in bits on
    eight bytes, a multiple of 64 bytes in all. *)
Definition big_endian (width : nat) (v : N) : list N :=
  map (fun i => (v / 256 ^ N.of_nat (width - 1 - i)) mod 256) (seq 0 width).

Definition pad (msg : list N) : list N :=
  let len := length msg in
  let zeros := ((64 - (len + 9) mod 64) mod 64)%nat in
  msg ++ [128] ++ repeat 0 zeros ++ big_endian 8 (8 * N.of_nat len).

Fixpoint chunks (fuel : nat) (size : nat) (l : list N) : list (list N) :=
  match fuel with
  | O => []
  | S fuel' =>
      match l with
      | [] => []
      | _ => firstn size l :: chunks fuel' size (skipn size l)
      end
  end.

Definition word_of (bytes : list N) : N :=
  fold_left (fun acc b => acc * 256 + b) bytes 0.

(** The message schedule, most recent word first. *)
Fixpoint schedule (n : nat) (ws : list N) : list N :=
  match n with
  | O => ws
  | S n' =>
      let w := rotl 1 (N.lxor (N.lxor (nth 2 ws 0) (nth 7 ws 0))
                              (N.lxor (nth 13 ws 0) (nth 15 ws 0))) in
      schedule n' (w :: ws)
  end.

Definition state : Type := N * N * N * N * N.

Definition round (st : state) (tw : nat * N) : state :=
  let '(a, b, c, d, e) := st in
  let '(t, w) := tw in
  let temp :=
    add32 (add32 (add32 (add32 (rotl 5 a) (round_f t b c d)) e) (round_k t)) w in
  (temp, a, rotl 30 b, c, d).

Definition compress (h : state) (block : list N) : state :=
  let w16 := map word_of (chunks 16 4 block) in
  let w := rev (schedule 64 (rev w16)) in
  let '(a, b, c, d, e) := fold_left round (combine (seq 0 80) w) h in
  let '(h0, h1, h2, h3, h4) := h in
  (add32 h0 a, add32 h1 b, add32 h2 c, add32 h3 d, add32 h4 e).

Definition init : state :=
  (0x67452301, 0xEFCDAB89, 0x98BADCFE, 0x10325476, 0xC3D2E1F0).

Definition bytes_of (s : string) : list N :=
  map N_of_ascii (list_ascii_of_string s).

Definition digest_state (s : string) : state :=
  let padded := pad (bytes_of s) in
  fold_left compress (chunks (length padded) 64 padded) init.

(** The digest as one number below [2^160]. *)
Definition digest (s : string) : N :=
  let '(h0, h1, h2, h3, h4) := digest_state s in
  h0 * 2 ^ 128 + h1 * 2 ^ 96 + h2 * 2 ^ 64 + h3 * 2 ^ 32 + h4.

Fixpoint hex_go (n : nat) (v : N) (acc : string) : string :=
  match n with
  | O => acc
  | S n' => hex_go n' (v / 16) (String (Json.hex_digit (v mod 16)) acc)
  end.

Definition hexdigest (s : string) : string := hex_go 40 (digest s) "".

End Sha1.

(** ** Columns, responses and the collaborators of the module *)

(** A column of the registry ([columns.Column]), as far as this module
    reads it. *)
Record Column : Type := {
  col_id : string;
  col_name : string;
  col_slug : string;
  col_pyslug : string;
}.

#[global] Instance Column_eq_dec : EqDecision Column.
Proof. solve_decision. Defined.

(** An argument given where a column is expected: a column object, a
    string, or anything else. *)
Inductive colarg : Type :=
| ColObj (c : Column)
| ColName (s : string)
| ColOther (v : value).

(** The value given for one key of a keyword selection: one value, or a
    list or tuple of values. *)
Inductive selarg : Type :=
| One (v : value)
| Many (vs : list value).

(** One page as the remote service answers it. [rows] is absent when no row
    matches, [nextLink] is present when more pages follow. *)
Record response : Type := {
  columnHeaders : list string;
  rows : option (list (list string));
  totalsForAllResults : dict string;
  nextLink : option string;
}.

(** What the module uses and does not define, taken as parameters: the
    column registry ([columns] is [api.columns[key]], [all_columns] is
    [api.all_columns[key]], [cast] the caster of a column, [has_selector]
    is [hasattr(Column, method)] and [selector] the call of that method),
    the segment registry, the helpers of [utils] ([date_is_relative],
    [date_range], [paste_groups] and [paste_params] for the two uses of
    [paste], [format_diagnostics] for the use of [format]), the
    addressable list of headers ([headers_get] is [headers[key]],
    [headers_index] is [headers.index(key)]), the remote endpoint and the
    cache. [C] is the state of the cache. The endpoint answers the [n]-th
    outbound call, given the wire parameters. *)
Record Env (C : Type) : Type := {
  profile_id : string;
  columns : string -> option Column;
  all_columns : string -> option Column;
  cast : Column -> string -> res value;
  selectors : list string;
  has_selector : string -> bool;
  selector : Column -> string -> value -> res string;
  segments_serialize : value -> res string;
  date_is_relative : value -> bool;
  date_range : value -> value -> Z -> Z -> res (value * value);
  paste_groups : list value -> res string;
  paste_params : list (string * value) -> res string;
  format_diagnostics : string -> string -> string;
  headers_get : list Column -> string -> res Column;
  headers_index : list Column -> string -> option nat;
  endpoint : nat -> dict value -> res response;
  cache_exists : C -> string -> bool;
  cache_get : C -> dict value -> res response;
  cache_set : C -> dict value -> response -> C;
}.
Arguments profile_id {C} _.
Arguments columns {C} _ _.
Arguments all_columns {C} _ _.
Arguments cast {C} _ _ _.
Arguments selectors {C} _.
Arguments has_selector {C} _ _.
Arguments selector {C} _ _ _ _.
Arguments segments_serialize {C} _ _.
Arguments date_is_relative {C} _ _.
Arguments date_range {C} _ _ _ _ _.
Arguments paste_groups {C} _ _.
Arguments paste_params {C} _ _.
Arguments format_diagnostics {C} _ _ _.
Arguments headers_get {C} _ _ _.
Arguments headers_index {C} _ _ _.
Arguments endpoint {C} _ _ _.
Arguments cache_exists {C} _ _ _.
Arguments cache_get {C} _ _ _.
Arguments cache_set {C} _ _ _ _.

(** ** The store *)

(** Addresses of query objects and of list objects. *)
Definition qid : Type := nat.
Definition loc : Type := nat.

(** A value of [Query.meta]: an immediate value, or a list object. *)
Inductive mval : Type :=
| MVal (v : value)
| MRef (l : loc).

(** A query object: [raw] (the request parameters), [meta] (the options of
    the builder) and the instance attribute [_lock] once it is set. *)
Record Query : Type := {
  raw : dict value;
  meta : gmap string mval;
  lock : option Q;
}.

(** A report object. It is local to the call that builds it, and is passed
    by value. *)
Record Report : Type := {
  rp_raw : list response;
  rp_queries : list qid;
  rp_slugs : list string;
  rp_names : list string;
  rp_headers : list Column;
  rp_metrics : gset string;
  rp_dimensions : gset string;
  rp_rows : list (list value);
  rp_is_complete : bool;
  rp_totals : dict string;
  rp_total : string;
}.

(** The state of the process: the objects, the clock, the class attribute
    [Query._lock], the cache of the API when one is configured, and the
    outbound calls made so far, each with the time it was made at. *)
Record world (C : Type) : Type := {
  queries : list Query;
  lists : list (list value);
  now : Q;
  class_lock : Q;
  cache : option C;
  calls : list (Q * dict value);
}.
Arguments queries {C} _.
Arguments lists {C} _.
Arguments now {C} _.
Arguments class_lock {C} _.
Arguments cache {C} _.
Arguments calls {C} _.

Definition set_queries {C} (w : world C) (qs : list Query) : world C :=
  {| queries := qs; lists := lists w; now := now w;
     class_lock := class_lock w; cache := cache w; calls := calls w |}.

Definition set_lists {C} (w : world C) (ls : list (list value)) : world C :=
  {| queries := queries w; lists := ls; now := now w;
     class_lock := class_lock w; cache := cache w; calls := calls w |}.

Definition set_now {C} (w : world C) (t : Q) : world C :=
  {| queries := queries w; lists := lists w; now := t;
     class_lock := class_lock w; cache := cache w; calls := calls w |}.

Definition set_cache {C} (w : world C) (c : option C) : world C :=
  {| queries := queries w; lists := lists w; now := now w;
     class_lock := class_lock w; cache := c; calls := calls w |}.

Definition set_calls {C} (w : world C) (cs : list (Q * dict value)) : world C :=
  {| queries := queries w; lists := lists w; now := now w;
     class_lock := class_lock w; cache := cache w; calls := cs |}.

(** A process that has just started: no object, [Query._lock = 0]. *)
Definition fresh_world {C} (t : Q) (c : option C) : world C :=
  {| queries := []; lists := []; now := t; class_lock := 0%Q;
     cache := c; calls := [] |}.

(** ** Computations *)

Definition M (C A : Type) : Type := world C -> res A * world C.

Definition ret {C A} (a : A) : M C A := fun w => (Ok a, w).

Definition throw {C A} (e : exn) : M C A := fun w => (Raise e, w).

Definition bind {C A B} (m : M C A) (k : A -> M C B) : M C B :=
  fun w =>
    match m w with
    | (Ok a, w') => k a w'
    | (Raise e, w') => (Raise e, w')
    end.

Definition lift {C A} (r : res A) : M C A := fun w => (r, w).

Declare Scope m_scope.
Delimit Scope m_scope with M.
Notation "x <- m ;; k" := (bind m (fun x => k))
  (at level 100, m at next level, right associativity) : m_scope.
Notation "m ;;; k" := (bind m (fun _ => k))
  (at level 100, right associativity) : m_scope.

(** [try: m except Exception as err: handler(err)] *)
Definition try_except {C A} (m : M C A) (handler : exn -> M C A) : M C A :=
  fun w =>
    match m w with
    | (Ok a, w') => (Ok a, w')
    | (Raise e, w') => handler e w'
    end.

Definition error {C A} (c : exn_class) (msg : string) : M C A :=
  throw (raise_of c msg).

(** ** Operations of Python on values *)

Module Py.

(** Iterating over a value whose items are used as strings: a list yields
    its items, a string its characters, anything else is not iterable. *)
Definition iter (v : value) : res (list string) :=
  match v with
  | VList l => Ok l
  | VStr s => Ok (Str.chars s)
  | VNone => Raise (raise_of TypeError "'NoneType' object is not iterable")
  | VInt _ => Raise (raise_of TypeError "'int' object is not iterable")
  end.

(** [sep.join(v)] *)
Definition join (sep : string) (v : value) : res string :=
  match iter v with
  | Ok l => Ok (Str.join sep l)
  | Raise _ => Raise (raise_of TypeError "can only join an iterable")
  end.

(** [len(v)] *)
Definition len (v : value) : res nat :=
  match v with
  | VList l => Ok (length l)
  | VStr s => Ok (String.length s)
  | VNone => Raise (raise_of TypeError "object of type 'NoneType' has no len()")
  | VInt _ => Raise (raise_of TypeError "object of type 'int' has no len()")
  end.

(** [a + b] *)
Definition add (a b : value) : res value :=
  match a, b with
  | VInt x, VInt y => Ok (VInt (x + y))
  | VStr x, VStr y => Ok (VStr (x +:+ y))
  | VList x, VList y => Ok (VList (x ++ y))
  | _, _ => Raise (raise_of TypeError "unsupported operand type(s) for +")
  end.

(** [t[i]] on a tuple: a negative index counts from the end. *)
Definition tuple_index {A} (t : list A) (i : Z) : res A :=
  let n := Z.of_nat (length t) in
  let j := if i <? 0 then i + n else i in
  if (0 <=? j) && (j <? n) then
    match t !! Z.to_nat j with
    | Some a => Ok a
    | None => Raise (raise_of IndexError "tuple index out of range")
    end
  else Raise (raise_of IndexError "tuple index out of range").

(** [v in t] for a tuple of strings. *)
Definition in_strings (v : value) (t : list string) : bool :=
  match v with
  | VStr s => existsb (String.eqb s) t
  | _ => false
  end.

(** [t.index(s)] *)
Fixpoint index_of (s : string) (t : list string) : option nat :=
  match t with
  | [] => None
  | x :: t' => if String.eqb s x then Some O else S <$> index_of s t'
  end.

End Py.

(** ** The query builder *)

Section Model.
Context {C : Type} (env : Env C).

Local Open Scope m_scope.

Abbreviation Mc := (M C).

(** *** Access to the store *)

(** Every address a computation holds is the address of an object; the
    error of the other case cannot arise from the operations below. *)
Definition dangling : exn := raise_of (OtherException "ReferenceError") "".

Definition read_query (q : qid) : Mc Query :=
  fun w =>
    match queries w !! q with
    | Some o => (Ok o, w)
    | None => (Raise dangling, w)
    end.

Definition write_query (q : qid) (o : Query) : Mc unit :=
  fun w => (Ok tt, set_queries w (<[q:=o]> (queries w))).

Definition alloc_query (o : Query) : Mc qid :=
  fun w => (Ok (length (queries w)), set_queries w (queries w ++ [o])).

Definition read_list (l : loc) : Mc (list value) :=
  fun w =>
    match lists w !! l with
    | Some vs => (Ok vs, w)
    | None => (Raise dangling, w)
    end.

Definition alloc_list (vs : list value) : Mc loc :=
  fun w => (Ok (length (lists w)), set_lists w (lists w ++ [vs])).

(** [l.append(v)] on the list object at [l]. *)
Definition list_append (l : loc) (v : value) : Mc unit :=
  fun w =>
    match lists w !! l with
    | Some vs => (Ok tt, set_lists w (<[l:=vs ++ [v]]> (lists w)))
    | None => (Raise dangling, w)
    end.

Definition with_raw (o : Query) (r : dict value) : Query :=
  {| raw := r; meta := meta o; lock := lock o |}.

Definition with_meta (o : Query) (m : gmap string mval) : Query :=
  {| raw := raw o; meta := m; lock := lock o |}.

Definition with_lock (o : Query) (t : Q) : Query :=
  {| raw := raw o; meta := meta o; lock := Some t |}.

(** [self.raw[key] = v] *)
Definition set_raw (self : qid) (key : string) (v : value) : Mc unit :=
  o <- read_query self ;;
  write_query self (with_raw o (Dict.set (raw o) key v)).

(** [self.raw[key]] *)
Definition get_raw (self : qid) (key : string) : Mc value :=
  o <- read_query self ;;
  match Dict.get (raw o) key with
  | Some v => ret v
  | None => error KeyError key
  end.

(** [self.meta[key] = v] *)
Definition set_meta (self : qid) (key : string) (v : mval) : Mc unit :=
  o <- read_query self ;;
  write_query self (with_meta o (<[key:=v]> (meta o))).

(** [self.meta.setdefault(key, [])], when the result is then used as a
    list: the list object kept under [key], a new empty one when the key is
    absent. *)
Definition meta_setdefault_list (self : qid) (key : string) : Mc loc :=
  o <- read_query self ;;
  match meta o !! key with
  | Some (MRef l) => ret l
  | Some (MVal _) => error AttributeError "object has no attribute 'append'"
  | None =>
      l <- alloc_list [] ;;
      write_query self (with_meta o (<[key:=MRef l]> (meta o))) ;;;
      ret l
  end.

(** *** Construction and cloning *)

(** Modelled from the spec: [api.columns.serialize], which lives with the
    column registry. A column object gives its id without a lookup, a
    string is looked up in the registry. *)
Definition serialize_column (c : colarg) : res string :=
  match c with
  | ColObj c => Ok (col_id c)
  | ColName s =>
      match columns env s with
      | Some c => Ok (col_id c)
      | None => Raise (raise_of KeyError s)
      end
  | ColOther _ => Raise (raise_of ValueError "not a column")
  end.

Definition serialize_columns (cs : list colarg) : res (list string) :=
  res_mapM serialize_column cs.

(** [self.raw.setdefault(key, []).extend(items)] *)
Definition raw_extend (self : qid) (key : string) (items : list string) : Mc unit :=
  o <- read_query self ;;
  match Dict.get (raw o) key with
  | None => write_query self (with_raw o (Dict.set (raw o) key (VList items)))
  | Some (VList l) =>
      write_query self (with_raw o (Dict.set (raw o) key (VList (l ++ items))))
  | Some _ => error AttributeError "object has no attribute 'extend'"
  end.

Definition _specify (metrics dimensions : list colarg) (self : qid) : Mc unit :=
  ms <- lift (serialize_columns metrics) ;;
  ds <- lift (serialize_columns dimensions) ;;
  raw_extend self "metrics" ms ;;;
  raw_extend self "dimensions" ds.

(** [Query.__init__]: [self.meta] is a new dictionary that holds the values
    of the one given, the same objects. *)
Definition Query_init (metrics dimensions : list colarg)
    (meta_arg : option (gmap string mval)) : Mc qid :=
  self <- alloc_query
    {| raw := [("ids", VStr ("ga:" +:+ profile_id env))];
       meta := default ∅ meta_arg;
       lock := None |} ;;
  _specify metrics dimensions self ;;;
  ret self.

(** [Query.clone]: [raw] is copied in depth, [meta] as [__init__] does. *)
Definition clone (self : qid) : Mc qid :=
  o <- read_query self ;;
  query <- Query_init [] [] (Some (meta o)) ;;
  o' <- read_query query ;;
  write_query query (with_raw o' (raw o)) ;;;
  ret query.

(** Modelled from the spec: the decorator [utils.immutable], which makes a
    builder method work on a clone of the receiver and return the clone. *)
Definition immutable (method : qid -> Mc unit) (self : qid) : Mc qid :=
  obj <- clone self ;;
  method obj ;;;
  ret obj.

(** *** Metrics, dimensions and sorting *)

Definition query (metrics dimensions : list colarg) : qid -> Mc qid :=
  immutable (_specify metrics dimensions).

Definition metrics (ms : list colarg) : qid -> Mc qid :=
  immutable (_specify ms []).

Definition dimensions (ds : list colarg) : qid -> Mc qid :=
  immutable (_specify [] ds).

Definition lookup_column (name : string) : Mc Column :=
  match columns env name with
  | Some c => ret c
  | None => error KeyError name
  end.

(** The loop of [Query.sort]. [descending] is the local variable of that
    name: [None] as long as nothing was assigned to it. Only the branch of
    a column string assigns it. *)
Fixpoint sort_loop (sorts : loc) (flag : bool) (descending : option bool)
    (cols : list colarg) : Mc unit :=
  match cols with
  | [] => ret tt
  | column :: rest =>
      step <- match column with
              | ColObj c => ret (descending, col_id c)
              | ColName s =>
                  let d := Str.startswith_dash s || flag in
                  c <- lookup_column (Str.lstrip_dash s) ;;
                  ret (Some d, col_id c)
              | ColOther _ =>
                  error ValueError
                    "Can only sort on columns or column strings."
              end ;;
      match fst step with
      | None =>
          error UnboundLocalError
            "local variable 'descending' referenced before assignment"
      | Some d =>
          let sign := if d then "-" else "" in
          list_append sorts (VStr (sign +:+ snd step)) ;;;
          sort_loop sorts flag (fst step) rest
      end
  end.

(** The strings of a list object, as [",".join] wants them. *)
Definition strings_of (vs : list value) : res (list string) :=
  res_mapM (fun v => match v with
                     | VStr s => Ok s
                     | _ => Raise (raise_of TypeError "expected str instance")
                     end) vs.

Definition sort_body (cols : list colarg) (flag : bool) (self : qid) : Mc unit :=
  sorts <- meta_setdefault_list self "sort" ;;
  sort_loop sorts flag None cols ;;;
  vs <- read_list sorts ;;
  ss <- lift (strings_of vs) ;;
  set_raw self "sort" (VStr (Str.join "," ss)).

(** [query.sort(c1, c2, ..., descending=flag)] *)
Definition sort (cols : list colarg) (flag : bool) : qid -> Mc qid :=
  immutable (sort_body cols flag).

(** *** Keyword selections *)

Definition sel_values (a : selarg) : list value :=
  match a with
  | One (VList l) => map VStr l
  | One v => [v]
  | Many vs => vs
  end.

(** The body of the loop of [select] for one key. *)
Definition select_key (key : string) (values : selarg) : res (list string) :=
  match (if Str.has_dunder key then
           match Str.split_dunder key with
           | [c; m] => Ok (c, m)
           | _ => Raise (raise_of ValueError "too many values to unpack")
           end
         else Ok (key, "eq")) with
  | Raise e => Raise e
  | Ok (column, method) =>
      if negb (has_selector env method) then
        Raise (raise_of ValueError
                 (method +:+ " is not a valid selector. Choose from: "
                  +:+ Str.join ", " (selectors env)))
      else
        match columns env column with
        | None => Raise (raise_of KeyError column)
        | Some c => res_mapM (selector env c method) (sel_values values)
        end
  end.

Fixpoint select (selection : list (string * selarg)) : res (list string) :=
  match selection with
  | [] => Ok []
  | (key, values) :: rest =>
      match select_key key values with
      | Raise e => Raise e
      | Ok exprs =>
          match select rest with
          | Raise e => Raise e
          | Ok more => Ok (exprs ++ more)
          end
      end
  end.

Definition str_truthy (s : option string) : bool :=
  match s with
  | Some s => negb (String.eqb s "")
  | None => false
  end.

Definition conflict_message : string :=
  "Cannot specify a filter string and a filter keyword selection at the same time.".

Definition filter_body (value : option string) (selection : list (string * selarg))
    (self : qid) : Mc unit :=
  filters <- meta_setdefault_list self "filters" ;;
  group <- (if str_truthy value && negb (Nat.eqb (length selection) 0) then
              error ValueError conflict_message
            else if str_truthy value then ret (VList [default "" value])
            else if negb (Nat.eqb (length selection) 0) then
              exprs <- lift (select selection) ;; ret (VList exprs)
            else ret (match value with Some s => VStr s | None => VNone end)) ;;
  list_append filters group ;;;
  groups <- read_list filters ;;
  pasted <- lift (paste_groups env groups) ;;
  set_raw self "filters" (VStr pasted).

(** [query.filter(value, **selection)] *)
Definition filter (value : option string) (selection : list (string * selarg)) :
    qid -> Mc qid :=
  immutable (filter_body value selection).

(** *** Precision, granularity and the date range *)

Definition PRECISION_LEVELS : list string :=
  ["FASTER"; "DEFAULT"; "HIGHER_PRECISION"].

Definition GRANULARITY_LEVELS : list string :=
  ["year"; "month"; "week"; "day"; "hour"].

Definition GRANULARITY_DIMENSIONS : list string :=
  ["ga:year"; "ga:yearMonth"; "ga:yearWeek"; "ga:date"; "ga:dateHour"].

Definition precision_message : string :=
  "Precision should be one of: " +:+ Str.join ", " PRECISION_LEVELS.

Definition precision_body (precision : value) (self : qid) : Mc unit :=
  level <- match precision with
           | VInt i =>
               s <- lift (Py.tuple_index PRECISION_LEVELS i) ;; ret (VStr s)
           | _ => ret precision
           end ;;
  if negb (Py.in_strings level PRECISION_LEVELS) then
    error ValueError precision_message
  else if negb (bool_decide (level = VStr "DEFAULT")) then
    set_raw self "samplingLevel" level
  else ret tt.

(** [query.precision(precision)] *)
Definition precision (p : value) : qid -> Mc qid :=
  immutable (precision_body p).

Definition interval_body (granularity : value) (self : qid) : Mc unit :=
  index <- match granularity with
           | VInt i => ret (VInt i)
           | VStr s =>
               match Py.index_of s GRANULARITY_LEVELS with
               | Some i => ret (VInt (Z.of_nat i))
               | None =>
                   if String.eqb s "lifetime" then ret granularity
                   else error ValueError
                          ("Granularity should be one of: lifetime, "
                           +:+ Str.join ", " GRANULARITY_LEVELS)
               end
           | _ => error ValueError
                    ("Granularity should be one of: lifetime, "
                     +:+ Str.join ", " GRANULARITY_LEVELS)
           end ;;
  dimension <- match index with
               | VInt i => lift (Py.tuple_index GRANULARITY_DIMENSIONS i)
               | _ => error TypeError "tuple indices must be integers"
               end ;;
  ds <- get_raw self "dimensions" ;;
  match ds with
  | VList l => set_raw self "dimensions" (VList (dimension :: l))
  | _ => error AttributeError "object has no attribute 'insert'"
  end.

Definition interval (granularity : value) : qid -> Mc qid :=
  immutable (interval_body granularity).

Definition range_body (start stop : value) (months days : Z) (self : qid) : Mc unit :=
  dates <- lift (date_range env start stop months days) ;;
  set_raw self "start_date" (fst dates) ;;;
  set_raw self "end_date" (snd dates).

(** [query.range(start, stop, months, days)] *)
Definition range (start stop : value) (months days : Z) : qid -> Mc qid :=
  immutable (range_body start stop months days).

Definition daily (start stop : value) (months days : Z) (self : qid) : Mc qid :=
  q <- interval (VStr "day") self ;; range start stop months days q.

(** *** The window of rows *)

Definition step_body (maximum : value) (self : qid) : Mc unit :=
  set_raw self "max_results" maximum.

Definition step (maximum : value) : qid -> Mc qid :=
  immutable (step_body maximum).

Definition limit_body (_range : list value) (self : qid) : Mc unit :=
  window <- match _range with
            | [start; maximum] => ret (start, maximum)
            | maximum :: _ => ret (VInt 1, maximum)
            | [] => error IndexError "tuple index out of range"
            end ;;
  set_meta self "limit" (MVal (snd window)) ;;;
  set_raw self "start_index" (fst window) ;;;
  set_raw self "max_results" (snd window).

(** [query.limit(maximum)] and [query.limit(start, maximum)] *)
Definition limit (_range : list value) : qid -> Mc qid :=
  immutable (limit_body _range).

Definition next_body (self : qid) : Mc unit :=
  o <- read_query self ;;
  let step := Dict.get_default (raw o) "max_results" (VInt 1000) in
  start <- lift (Py.add (Dict.get_default (raw o) "start_index" (VInt 1)) step) ;;
  set_raw self "start_index" start.

(** [query.next()] *)
Definition next : qid -> Mc qid := immutable next_body.

(** *** Segments *)

Definition SCOPES : dict string :=
  [("hits", "perHit"); ("sessions", "perSession"); ("users", "perUser")].

(** ['::'.join(filter(None, [scope, 'condition', metric_scope, condition]))] *)
Definition segment_expression (scope metric_scope : option string)
    (condition : string) : string :=
  Str.join "::"
    (omap (fun part => if str_truthy part then part else None)
       [scope; Some "condition"; metric_scope; Some condition]).

(** The branch of [segment] for a keyword selection: the expressions of
    the group that the call appends. *)
Definition segment_selection (scope metric_scope : option string)
    (selection : list (string * selarg)) : res (list string) :=
  if negb (str_truthy scope) then
    Raise (raise_of ValueError "Scope is required. Choose from: users, sessions.")
  else
    match (if str_truthy metric_scope then
             match Dict.get SCOPES (default "" metric_scope) with
             | Some s => Ok (Some s)
             | None => Raise (raise_of KeyError (default "" metric_scope))
             end
           else Ok metric_scope) with
    | Raise e => Raise e
    | Ok metric_scope' =>
        match select selection with
        | Raise e => Raise e
        | Ok conditions =>
            Ok (map (segment_expression scope metric_scope') conditions)
        end
    end.

Definition segment_body (value : value) (scope metric_scope : option string)
    (selection : list (string * selarg)) (self : qid) : Mc unit :=
  segments <- meta_setdefault_list self "segments" ;;
  group <- (if truthy value && negb (Nat.eqb (length selection) 0) then
              error ValueError conflict_message
            else if truthy value then
              s <- lift (segments_serialize env value) ;; ret (VList [s])
            else if negb (Nat.eqb (length selection) 0) then
              exprs <- lift (segment_selection scope metric_scope selection) ;;
              ret (VList exprs)
            else ret value) ;;
  list_append segments group ;;;
  groups <- read_list segments ;;
  pasted <- lift (paste_groups env groups) ;;
  set_raw self "segment" (VStr pasted).

(** [query.segment(value, scope, metric_scope, **selection)] *)
Definition segment (value : value) (scope metric_scope : option string)
    (selection : list (string * selarg)) : qid -> Mc qid :=
  immutable (segment_body value scope metric_scope selection).

(** *** Building the wire parameters, cacheability and the signature *)

(** [Query.build(copy)]. With [copy] the result is a copy in depth of
    [self.raw] that the assignments change; without it they change
    [self.raw] itself. *)
Definition build (copy : bool) (self : qid) : Mc (dict value) :=
  o <- read_query self ;;
  let store (r : dict value) : Mc unit :=
    if copy then ret tt else
      o' <- read_query self ;; write_query self (with_raw o' r) in
  let r0 := raw o in
  ms <- get_raw self "metrics" ;;
  joined <- lift (Py.join "," ms) ;;
  let r1 := Dict.set r0 "metrics" (VStr joined) in
  store r1 ;;;
  ds <- match Dict.get r1 "dimensions" with
        | Some v => ret v
        | None => error KeyError "dimensions"
        end ;;
  n <- lift (Py.len ds) ;;
  (if negb (Nat.eqb n 0) then
     ds' <- get_raw self "dimensions" ;;
     joined <- lift (Py.join "," ds') ;;
     let r2 := Dict.set r1 "dimensions" (VStr joined) in
     store r2 ;;; ret r2
   else
     let r2 := Dict.set r1 "dimensions" VNone in
     store r2 ;;; ret r2).

(** The property [Query.cacheable], on the parameters. *)
Definition cacheable_raw (r : dict value) : bool :=
  let start :=
    match Dict.get r "start_date" with
    | Some v => negb (date_is_relative env v)
    | None => false
    end in
  let stop :=
    match Dict.get r "end_date" with
    | Some v => negb (date_is_relative env v)
    | None => false
    end in
  start && stop.

Definition cacheable (self : qid) : Mc bool :=
  o <- read_query self ;; ret (cacheable_raw (raw o)).

(** The digest of built parameters: the items sorted by key, serialised
    and hashed. *)
Definition signature_of (built : dict value) : string :=
  Sha1.hexdigest (Json.dumps (Items.by_key built)).

(** The property [Query.signature]. *)
Definition signature (self : qid) : Mc string :=
  built <- build false self ;;
  ret (signature_of built).

(** *** The rate limiter *)

(** [time.time()] and [time.sleep(d)] on the clock of the process. *)
Definition time_time : Mc Q := fun w => (Ok (now w), w).

Definition time_sleep (d : Q) : Mc unit :=
  fun w => (Ok tt, set_now w (now w + d)%Q).

(** [max(0, x)] *)
Definition max0 (x : Q) : Q := if Qle_bool x 0 then 0%Q else x.

(** [Query._wait]. Reading [self._lock] finds the attribute of the
    instance, or that of the class when the instance has none; assigning
    to [self._lock] sets the attribute of the instance. *)
Definition _wait (self : qid) : Mc Q :=
  t <- time_time ;;
  o <- read_query self ;;
  last <- (fun w => (Ok (default (class_lock w) (lock o)), w)) ;;
  let elapsed := (t - last)%Q in
  let wait := max0 (1 - elapsed)%Q in
  time_sleep wait ;;;
  t' <- time_time ;;
  o' <- read_query self ;;
  write_query self (with_lock o' t') ;;;
  ret wait.

(** *** Reports *)

Definition registry_lookup (name : string) : res Column :=
  match all_columns env name with
  | Some c => Ok c
  | None => Raise (raise_of KeyError name)
  end.

(** [[casters[i](row[i]) for i in range(len(self.headers))]] *)
Fixpoint cast_row (headers : list Column) (row : list string) : res (list value) :=
  match headers with
  | [] => Ok []
  | h :: hs =>
      match row with
      | [] => Raise (raise_of IndexError "list index out of range")
      | x :: xs =>
          match cast env h x with
          | Raise e => Raise e
          | Ok v =>
              match cast_row hs xs with
              | Raise e => Raise e
              | Ok vs => Ok (v :: vs)
              end
          end
      end
  end.

(** [Report.append(raw, query)] *)
Definition Report_append (r : Report) (page : response) (query : qid) : Mc Report :=
  o <- read_query query ;;
  ms <- match Dict.get (raw o) "metrics" with
        | Some v => lift (Py.iter v)
        | None => error KeyError "metrics"
        end ;;
  ds <- lift (Py.iter (Dict.get_default (raw o) "dimensions" (VList []))) ;;
  typed <- lift (res_mapM (cast_row (rp_headers r)) (default [] (rows page))) ;;
  total <- match totalsForAllResults page with
           | (_, v) :: _ => ret v
           | [] => error IndexError "list index out of range"
           end ;;
  ret {| rp_raw := rp_raw r ++ [page];
         rp_queries := rp_queries r ++ [query];
         rp_slugs := rp_slugs r;
         rp_names := rp_names r;
         rp_headers := rp_headers r;
         rp_metrics := rp_metrics r ∪ list_to_set ms;
         rp_dimensions := rp_dimensions r ∪ list_to_set ds;
         rp_rows := rp_rows r ++ typed;
         rp_is_complete := negb (bool_decide (is_Some (nextLink page)));
         rp_totals := totalsForAllResults page;
         rp_total := total |}.

(** [Report.__init__(raw, query)]. [collections.namedtuple] refuses field
    names that occur twice; the slugs of the registry are taken to be
    identifiers otherwise. *)
Definition Report_init (page : response) (query : qid) : Mc Report :=
  headers <- lift (res_mapM registry_lookup (columnHeaders page)) ;;
  let slugs := map col_pyslug headers in
  if negb (bool_decide (NoDup slugs)) then
    error ValueError "Encountered duplicate field name"
  else
    Report_append
      {| rp_raw := []; rp_queries := [];
         rp_slugs := slugs; rp_names := map col_name headers;
         rp_headers := headers;
         rp_metrics := ∅; rp_dimensions := ∅; rp_rows := [];
         rp_is_complete := false; rp_totals := []; rp_total := "" |}
      page query.

Definition multiple_rows_message : string :=
  "This report contains multiple rows or metrics. Please use `rows`, `first`, `last` or a column name.".

Definition multiple_metrics_message : string :=
  "This report contains multiple metrics. Please use `rows`, `first`, `last` or a column name.".

(** [Report.__getitem__(key)] for a column object. *)
Definition Report_getitem (r : Report) (key : Column) : res (list value) :=
  match headers_index env (rp_headers r) (col_slug key) with
  | None => Raise (raise_of ValueError (col_slug key +:+ " not in column headers"))
  | Some i =>
      res_mapM (fun row => match row !! i with
                           | Some v => Ok v
                           | None => Raise (raise_of IndexError
                                              "tuple index out of range")
                           end) (rp_rows r)
  end.

(** The property [Report.values]. *)
Definition Report_values (r : Report) : res (list value) :=
  match elements (rp_metrics r) with
  | [raw_metric] =>
      match headers_get env (rp_headers r) raw_metric with
      | Raise e => Raise e
      | Ok metric => Report_getitem r metric
      end
  | _ => Raise (raise_of ValueError multiple_metrics_message)
  end.

(** The property [Report.value]; [None] is Python's [None]. *)
Definition Report_value (r : Report) : res (option value) :=
  match rp_rows r with
  | [] => Ok None
  | [_] =>
      match Report_values r with
      | Raise e => Raise e
      | Ok (v :: _) => Ok (Some v)
      | Ok [] => Raise (raise_of IndexError "list index out of range")
      end
  | _ => Raise (raise_of ValueError multiple_rows_message)
  end.

Definition Report_first (r : Report) : option (list value) := head (rp_rows r).

Definition Report_last (r : Report) : option (list value) := last (rp_rows r).

(** *** Execution *)

Definition get_cache : Mc (option C) := fun w => (Ok (cache w), w).

(** The outbound call [self.endpoint.get(...).execute()], given the built
    parameters as keyword arguments: it is recorded
    with the time it is made at, and the endpoint answers. *)
Definition call_endpoint (wire : dict value) : Mc response :=
  fun w =>
    (endpoint env (length (calls w)) wire,
     set_calls w (calls w ++ [(now w, wire)])).

(** The parameters of the query as the diagnostics list them. *)
Definition parameter_rows (r : dict value) : list (string * value) :=
  let width := foldr Nat.max O (map String.length (Dict.keys r)) in
  map (fun kv => (Str.ljust (fst kv) width, snd kv)) r.

(** The [except Exception as err] clause of [Query.execute]. *)
Definition execute_handler (self : qid) (err : exn) : Mc response :=
  if bool_decide (exn_cls err = TypeError) then
    o <- read_query self ;;
    match raw o with
    | [] => error ValueError "max() arg is an empty sequence"
    | _ =>
        parameters <- lift (paste_params env (parameter_rows (raw o))) ;;
        error InvalidRequestError
          (format_diagnostics env (exn_msg err) parameters)
    end
  else
    match exn_content err with
    | Some _ => error GoogleAnalyticsError (exn_msg err)
    | None => throw err
    end.

(** [Query.execute] *)
Definition execute (self : qid) : Mc Report :=
  wire <- build true self ;;
  c <- get_cache ;;
  hit <- match c with
         | None => ret None
         | Some cs =>
             b <- cacheable self ;;
             if b then
               sig <- signature self ;;
               ret (if cache_exists env cs sig then Some cs else None)
             else ret None
         end ;;
  response <- match hit with
              | Some cs => lift (cache_get env cs wire)
              | None =>
                  try_except (_wait self ;;; call_endpoint wire)
                             (execute_handler self)
              end ;;
  c' <- get_cache ;;
  match c' with
  | None => ret tt
  | Some cs =>
      b <- cacheable self ;;
      if b then (fun w => (Ok tt, set_cache w (Some (cache_set env cs wire response))))
      else ret tt
  end ;;;
  Report_init response self.

(** *** Pagination *)

(** [len(report.rows) >= self.meta.get('limit', float('inf'))] *)
Definition is_enough (n : nat) (limit : option mval) : res bool :=
  match limit with
  | None => Ok false
  | Some (MVal (VInt z)) => Ok (z <=? Z.of_nat n)
  | Some _ => Raise (raise_of TypeError "'>=' not supported between instances")
  end.

(** The loop of [CoreQuery.get]; [fuel] bounds the number of iterations,
    and [None] is returned when it runs out. A report is true when it has
    a row ([Report.__len__]). *)
Fixpoint get_loop (fuel : nat) (self cursor : qid) (report : option Report) :
    Mc (option Report) :=
  match fuel with
  | O => ret None
  | S fuel' =>
      chunk <- execute cursor ;;
      report' <- match report with
                 | Some r =>
                     if negb (Nat.eqb (length (rp_rows r)) 0) then
                       match rp_raw chunk with
                       | page :: _ => Report_append r page cursor
                       | [] => error IndexError "list index out of range"
                       end
                     else ret chunk
                 | None => ret chunk
                 end ;;
      o <- read_query self ;;
      enough <- lift (is_enough (length (rp_rows report')) (meta o !! "limit")) ;;
      let complete := rp_is_complete chunk in
      cursor' <- next cursor ;;
      if enough || complete then ret (Some report')
      else get_loop fuel' self cursor' (Some report')
  end.

(** [CoreQuery.get] *)
Definition get (fuel : nat) (self : qid) : Mc (option Report) :=
  get_loop fuel self self None.

(** *** The builder calls as data *)

(** One call of a public builder method, with its arguments. *)
Inductive call : Type :=
| CallQuery (ms ds : list colarg)
| CallMetrics (ms : list colarg)
| CallDimensions (ds : list colarg)
| CallSort (cols : list colarg) (descending : bool)
| CallFilter (value : option string) (selection : list (string * selarg))
| CallPrecision (p : value)
| CallInterval (granularity : value)
| CallRange (start stop : value) (months days : Z)
| CallStep (maximum : value)
| CallLimit (_range : list value)
| CallSegment (value : value) (scope metric_scope : option string)
    (selection : list (string * selarg))
| CallNext.

(** The method body that a call runs on the clone. *)
Definition body_of (c : call) : qid -> Mc unit :=
  match c with
  | CallQuery ms ds => _specify ms ds
  | CallMetrics ms => _specify ms []
  | CallDimensions ds => _specify [] ds
  | CallSort cols flag => sort_body cols flag
  | CallFilter v sel => filter_body v sel
  | CallPrecision p => precision_body p
  | CallInterval g => interval_body g
  | CallRange start stop months days => range_body start stop months days
  | CallStep m => step_body m
  | CallLimit r => limit_body r
  | CallSegment v scope ms sel => segment_body v scope ms sel
  | CallNext => next_body
  end.

Definition apply_call (c : call) : qid -> Mc qid := immutable (body_of c).

End Model.

(** ** The rest of the query builder and of the report *)

(** The first argument of [Query.set]: left out, the name of one
    property, or a dictionary of properties. *)
Inductive setkey : Type :=
| KeyNone
| KeyName (s : string)
| KeyProps (d : dict value).

(** Truthiness of that argument, as [if key:] tests it. *)
Definition setkey_truthy (k : setkey) : bool :=
  match k with
  | KeyNone => false
  | KeyName s => negb (String.eqb s "")
  | KeyProps d => negb (Nat.eqb (length d) 0)
  end.

Section ModelMore.
Context {C : Type} (env : Env C).

Local Open Scope m_scope.

(** *** Raw properties *)

(** The loop of [Query.set] over the items of a dictionary of properties. *)
Fixpoint set_items (serialize : value -> res value) (properties : dict value)
    (self : qid) : M C unit :=
  match properties with
  | [] => ret tt
  | (key, value) :: rest =>
      v <- lift (serialize value) ;;
      set_raw self key v ;;;
      set_items serialize rest self
  end.

Definition set_message : string :=
  "Query#set requires a key and value, a properties dictionary or keyword arguments.".

(** The body of [Query.set]. [serialize] is
    [partial(self.api.columns.serialize, greedy=False)], which the module
    takes from the column registry; it is a parameter here. A dictionary
    cannot be the key of an item of [self.raw], and a string has no
    [items]. *)
Definition set_body (serialize : value -> res value) (key : setkey)
    (val : value) (kwargs : dict value) (self : qid) : M C unit :=
  if setkey_truthy key && truthy val then
    v <- lift (serialize val) ;;
    match key with
    | KeyName k => set_raw self k v
    | _ => error TypeError "unhashable type: 'dict'"
    end
  else if setkey_truthy key || negb (Nat.eqb (length kwargs) 0) then
    match (if setkey_truthy key then key else KeyProps kwargs) with
    | KeyProps properties => set_items serialize properties self
    | KeyName _ => error AttributeError "'str' object has no attribute 'items'"
    | KeyNone => error AttributeError "'NoneType' object has no attribute 'items'"
    end
  else error ValueError set_message.

(** [query.set(key, value, **kwargs)] *)
Definition set (serialize : value -> res value) (key : setkey) (val : value)
    (kwargs : dict value) : qid -> M C qid :=
  immutable env (set_body serialize key val kwargs).

(** *** The description of a query *)

(** The property [Query.description]. The slices [metrics[0:-1]] and
    [metrics[0:1]] and the item [metrics[-1]] are taken on the items of
    [self.raw['metrics']]: the identifiers of a list, the characters of a
    string. *)
Definition description (self : qid) : M C string :=
  ms <- get_raw self "metrics" ;;
  n <- lift (Py.len ms) ;;
  if negb (Nat.eqb n 0) then
    items <- lift (Py.iter ms) ;;
    let head := match removelast items with
                | [] => take 1 items
                | h => h
                end in
    let text := Str.join ", " head in
    if (1 <? n)%nat then ret (text +:+ " and " +:+ default "" (last items))
    else ret text
  else ret "n/a".

(** *** The shortcuts of [range] *)

Definition hourly (start stop : value) (months days : Z) (self : qid) : M C qid :=
  q <- interval env (VStr "hour") self ;; range env start stop months days q.

Definition weekly (start stop : value) (months days : Z) (self : qid) : M C qid :=
  q <- interval env (VStr "week") self ;; range env start stop months days q.

Definition monthly (start stop : value) (months days : Z) (self : qid) : M C qid :=
  q <- interval env (VStr "month") self ;; range env start stop months days q.

Definition yearly (start stop : value) (months days : Z) (self : qid) : M C qid :=
  q <- interval env (VStr "year") self ;; range env start stop months days q.

Definition lifetime (start stop : value) (months days : Z) (self : qid) : M C qid :=
  range env start stop months days self.

(** *** Segments of users and of sessions *)

(** [CoreQuery.segment_sequence]: the method is chosen and then nothing is
    built. *)
Definition segment_sequence (followed_by immediately_followed_by first : bool) :
    qid -> M C qid :=
  immutable env (fun _ =>
    let method := if followed_by || immediately_followed_by
                  then "sequence" else "condition" in
    error NotImplementedError "").

(** [query.users(value, metric_scope, **selection)] *)
Definition users (value : value) (metric_scope : option string)
    (selection : list (string * selarg)) : qid -> M C qid :=
  segment env value (Some "users") metric_scope selection.

(** [query.sessions()]: the body passes on a dictionary [kwargs] that the
    method does not take, and no such name is bound in the module. *)
Definition sessions (self : qid) : M C qid :=
  error (OtherException "NameError") "name 'kwargs' is not defined".

(** *** Queries against the real time API *)




(** *** Reports by column name *)

(** [Report.__len__] *)
Definition Report_len (r : Report) : nat := length (rp_rows r).

(** [Report.__getitem__(key)] for a string. *)
Definition Report_getitem_name (r : Report) (key : string) : res (list value) :=
  match headers_index env (rp_headers r) key with
  | None => Raise (raise_of ValueError (key +:+ " not in column headers"))
  | Some i =>
      res_mapM (fun row => match row !! i with
                           | Some v => Ok v
                           | None => Raise (raise_of IndexError
                                              "tuple index out of range")
                           end) (rp_rows r)
  end.

End ModelMore.

Arguments ret {C A} a.
Arguments bind {C A B} m k.

(** ** Stand-ins for the collaborators

    A small registry, helpers and cache that behave as the spec describes
    theirs, to run the model on concrete queries. *)

Module Mock.

Definition lower_char (c : ascii) : ascii :=
  let n := nat_of_ascii c in
  if ((65 <=? n) && (n <=? 90))%nat then ascii_of_nat (n + 32) else c.

Fixpoint lower (s : string) : string :=
  match s with
  | EmptyString => EmptyString
  | String c s' => String (lower_char c) (lower s')
  end.

Definition column (name : string) : Column :=
  {| col_id := "ga:" +:+ name; col_name := name;
     col_slug := lower name; col_pyslug := lower name |}.

Definition pageviews : Column := column "pageviews".
Definition sessions : Column := column "sessions".
Definition browser : Column := column "browser".
Definition date : Column := column "date".

Definition registry : list Column := [pageviews; sessions; browser; date].

Definition matches (key : string) (c : Column) : bool :=
  String.eqb (lower key) (lower (col_id c))
  || String.eqb (lower key) (lower (col_name c))
  || String.eqb (lower key) (col_slug c).

(** Modelled from the spec: the lookup of the Column Registry, by id or
    name, case-insensitive. *)
Definition lookup (key : string) : option Column :=
  List.find (matches key) registry.

Definition is_metric (c : Column) : bool :=
  String.eqb (col_id c) "ga:pageviews" || String.eqb (col_id c) "ga:sessions".

(** Modelled from the spec: the caster registered for a column, an integer
    for a metric and the text itself for a dimension. *)
Definition cast (c : Column) (s : string) : res value :=
  if is_metric c then
    match NilZero.int_of_string s with
    | Some d => Ok (VInt (Z.of_int d))
    | None => Raise (raise_of ValueError "invalid literal for int()")
    end
  else Ok (VStr s).

Definition str_of (v : value) : string :=
  match v with
  | VNone => "None"
  | VInt z => Str.of_Z z
  | VStr s => s
  | VList l => "[" +:+ Str.join ", " l +:+ "]"
  end.

Definition operators : dict string :=
  [("eq", "=="); ("neq", "!="); ("lt", "<"); ("lte", "<=");
   ("gt", ">"); ("gte", ">=")].

(** Modelled from the spec: the selector predicates of a column, which
    compile one comparison against the identifier of the column. *)
Definition selector (c : Column) (method : string) (v : value) : res string :=
  match Dict.get operators method with
  | Some op => Ok (col_id c +:+ op +:+ str_of v)
  | None => Raise (raise_of AttributeError method)
  end.

(** Modelled from the spec: [utils.paste] on condition groups, a comma
    within a group and a semicolon between groups. *)
Definition paste_groups (groups : list value) : res string :=
  match res_mapM (fun g => match g with
                           | VList l => Ok (Str.join "," l)
                           | _ => Raise (raise_of TypeError "not iterable")
                           end) groups with
  | Ok gs => Ok (Str.join ";" gs)
  | Raise e => Raise e
  end.

Definition tab : string := String "009" "".
Definition newline : string := String "010" "".

(** Modelled from the spec: the dump of the parameters in the diagnostics,
    one line for each parameter. *)
Definition paste_params (rows : list (string * value)) : res string :=
  Ok (Str.join newline (map (fun kv => fst kv +:+ tab +:+ str_of (snd kv)) rows)).

Definition format_diagnostics (message parameters : string) : string :=
  message +:+ newline +:+ newline +:+ "The query you submitted was:"
  +:+ newline +:+ newline +:+ parameters.

Definition is_digit (c : ascii) : bool :=
  let n := nat_of_ascii c in ((48 <=? n) && (n <=? 57))%nat.

(** Modelled from the spec: [utils.date.is_relative]. A date is absolute
    when it is written [YYYY-MM-DD]; expressions such as [today] or
    [30daysAgo] are relative. *)
Definition is_relative (v : value) : bool :=
  match v with
  | VStr s =>
      match list_ascii_of_string s with
      | [y1; y2; y3; y4; d1; m1; m2; d2; a1; a2] =>
          negb (forallb is_digit [y1; y2; y3; y4; m1; m2; a1; a2]
                && Ascii.eqb d1 "-" && Ascii.eqb d2 "-")
      | _ => true
      end
  | _ => false
  end.

(** Modelled from the spec: [utils.date.range] without a duration, where
    an omitted stop is today. *)
Definition date_range (start stop : value) (months days : Z) : res (value * value) :=
  if (months =? 0) && (days =? 0) then
    Ok (start, match stop with VNone => VStr "today" | _ => stop end)
  else Raise (raise_of NotImplementedError "duration").

Definition headers_get (hs : list Column) (key : string) : res Column :=
  match List.find (matches key) hs with
  | Some c => Ok c
  | None => Raise (raise_of KeyError key)
  end.

Fixpoint headers_index (hs : list Column) (key : string) : option nat :=
  match hs with
  | [] => None
  | c :: hs' => if matches key c then Some O else S <$> headers_index hs' key
  end.

(** Modelled from the spec: a cache that keeps responses under the
    signature of the built parameters. *)
Definition cache_t : Type := list (string * response).

Definition key_of (wire : dict value) : string :=
  Sha1.hexdigest (Json.dumps (Items.by_key wire)).

Definition cache_exists (c : cache_t) (sig : string) : bool :=
  existsb (fun e => String.eqb sig (fst e)) c.

Definition cache_get (c : cache_t) (wire : dict value) : res response :=
  match List.find (fun e => String.eqb (key_of wire) (fst e)) c with
  | Some e => Ok (snd e)
  | None => Raise (raise_of KeyError (key_of wire))
  end.

Definition cache_set (c : cache_t) (wire : dict value) (r : response) : cache_t :=
  (key_of wire, r) :: c.

(** An endpoint that answers the [n]-th call with the [n]-th item of a
    script. *)
Definition scripted (script : list (res response)) (n : nat) (wire : dict value) :
    res response :=
  match script !! n with
  | Some r => r
  | None => Raise (raise_of (OtherException "StopIteration") "")
  end.

Definition env (script : list (res response)) : Env cache_t :=
  Build_Env cache_t "1" lookup lookup cast (Dict.keys operators)
    (fun m => Dict.mem operators m) selector (fun v => Ok (str_of v))
    is_relative date_range paste_groups paste_params format_diagnostics
    headers_get headers_index (scripted script)
    cache_exists cache_get cache_set.

(** A page of [n] rows for the metric [pageviews]. *)
Definition page (n : nat) (more : bool) : response :=
  {| columnHeaders := ["ga:pageviews"];
     rows := if Nat.eqb n 0 then None else Some (repeat ["42"] n);
     totalsForAllResults := [("ga:pageviews", "42")];
     nextLink := if more then Some "next" else None |}.

End Mock.

(** ** Concrete queries and worlds *)

Module Fixtures.

(** The query [profile.core.query('pageviews')], at address [0] of a
    process that holds nothing else. *)
Definition base : Query :=
  {| raw := [("ids", VStr "ga:1"); ("metrics", VList ["ga:pageviews"]);
             ("dimensions", VList [])];
     meta := ∅; lock := None |}.

Definition base_world (c : option Mock.cache_t) : world Mock.cache_t :=
  set_queries (fresh_world 1000%Q c) [base].

Definition january : Query :=
  {| raw := [("ids", VStr "ga:1"); ("metrics", VList ["ga:pageviews"]);
             ("dimensions", VList []);
             ("start_date", VStr "2020-01-01"); ("end_date", VStr "2020-01-31")];
     meta := ∅; lock := None |}.

Definition january_world : world Mock.cache_t :=
  set_queries (fresh_world 1000%Q None) [january].

(** The report of one page that holds the single row [42] for the metric
    [pageviews]. *)
Definition report42 : Report :=
  {| rp_raw := [Mock.page 1 false]; rp_queries := [0%nat];
     rp_slugs := ["pageviews"]; rp_names := ["pageviews"];
     rp_headers := [Mock.pageviews];
     rp_metrics := {["ga:pageviews"]}; rp_dimensions := ∅;
     rp_rows := [[VInt 42]];
     rp_is_complete := true;
     rp_totals := [("ga:pageviews", "42")]; rp_total := "42" |}.




(** The query [profile.core.query('pageviews').limit(15)]. *)
Definition limited : Query :=
  {| raw := [("ids", VStr "ga:1"); ("metrics", VList ["ga:pageviews"]);
             ("dimensions", VList []);
             ("start_index", VInt 1); ("max_results", VInt 15)];
     meta := {["limit" := MVal (VInt 15)]}; lock := None |}.

Definition limited_world : world Mock.cache_t :=
  set_queries (fresh_world 1000%Q None) [limited].

(** Two pages of ten rows, each with a [nextLink]. *)
Definition two_pages : list (res response) :=
  [Ok (Mock.page 10 true); Ok (Mock.page 10 true)].

End Fixtures.

(** * Notions used in the statements *)

(** ** Parameters as built and as sent *)

(** The parameters as [build] returns them, for a query whose metrics and
    dimensions are lists. *)
Definition built_raw (r : dict value) (ms ds : list string) : dict value :=
  Dict.set (Dict.set r "metrics" (VStr (Str.join "," ms))) "dimensions"
    (if Nat.eqb (length ds) 0 then VNone else VStr (Str.join "," ds)).

(** The value of an integer parameter, or its default when the key is
    absent. *)
Definition int_param (r : dict value) (key : string) (default : Z) : option Z :=
  match Dict.get r key with
  | None => Some default
  | Some (VInt z) => Some z
  | Some _ => None
  end.

(** The parameters of the query that fetches page [i] (from zero): those
    of the first query, with [start_index] moved [i] page sizes on. *)
Definition cursor_raw (r0 : dict value) (start size : Z) (i : nat) : dict value :=
  match i with
  | O => r0
  | S _ => Dict.set r0 "start_index" (VInt (start + Z.of_nat i * size))
  end.

(** The built parameters of the query that fetches page [i]. *)
Definition page_wire (r0 : dict value) (ms ds : list string) (start size : Z)
    (i : nat) : dict value :=
  built_raw (cursor_raw r0 start size i) ms ds.

(** The text that is hashed. *)
Definition canonical (d : dict value) : string := Json.dumps (Items.by_key d).

(** The built parameters of the first page, with a start index. *)
Definition wire_from (start : Z) : dict value :=
  [("ids", VStr "ga:1"); ("metrics", VStr "ga:pageviews");
   ("dimensions", VNone); ("start_index", VInt start)].

(** The order of the items by key. *)
Definition key_le {V : Type} (a b : string * V) : Prop :=
  String.le (fst a) (fst b).

(** ** Builder calls *)

(** The level a call to [precision] resolves its argument to. *)
Definition resolve_precision (p : value) : res string :=
  match p with
  | VInt i => Py.tuple_index PRECISION_LEVELS i
  | VStr s =>
      if existsb (String.eqb s) PRECISION_LEVELS then Ok s
      else Raise (raise_of ValueError precision_message)
  | _ => Raise (raise_of ValueError precision_message)
  end.

(** The error of reading [descending] before it is assigned. *)
Definition unbound_descending : exn :=
  raise_of UnboundLocalError
    "local variable 'descending' referenced before assignment".

(** The parts of a segment expression that are not empty, in order. *)
Definition nonempty_parts (parts : list string) : list string :=
  List.filter (fun s => negb (String.eqb s "")) parts.

(** A computation that leaves every query object other than [self] as it
    is. *)
Definition keeps_others {C A : Type} (self : qid) (m : M C A) : Prop :=
  forall w q, q <> self -> queries (snd (m w)) !! q = queries w !! q.

(** ** Executions and pages *)




(** The number of rows that a page holds. *)
Definition page_rows (p : response) : nat := length (default [] (rows p)).

(** A page that a report with the headers [headers] can take in: every row
    is cast, and the totals are there. *)
Definition page_ok {C : Type} (env : Env C) (headers : list Column) (p : response) : Prop :=
  is_ok (res_mapM (cast_row env headers) (default [] (rows p))) = true /\
  totalsForAllResults p <> [].

(** The names of the headers resolve to columns with distinct slugs. *)
Definition headers_ok {C : Type} (env : Env C) (names : list string) (headers : list Column) : Prop :=
  res_mapM (registry_lookup env) names = Ok headers /\
  NoDup (map col_pyslug headers).

(** The world after the outbound call that the query at [c] makes with
    the parameters [wire]. *)
Definition after_call {C : Type} (w : world C) (c : qid) (oc : Query) (wire : dict value) :
    world C :=
  let wait := max0 (1 - (now w - default (class_lock w) (lock oc)))%Q in
  let t := (now w + wait)%Q in
  set_calls (set_queries (set_now w t) (<[c:=with_lock oc t]> (queries w)))
    (calls w ++ [(t, wire)]).

(** The loop of [get] decides after each page: it stops when the rows
    gathered reach the limit, or when the page has no [nextLink]. *)
Definition stops_after (limit : option Z) (gathered : nat) (p : response) : bool :=
  match limit with
  | Some z => z <=? Z.of_nat gathered
  | None => false
  end
  || negb (bool_decide (is_Some (nextLink p))).

(** The state of the loop of [get] before it fetches page [i], with
    [gathered] rows in the report: no cache; the query that [get] was
    called on keeps its limit; the cursor holds the parameters of page
    [i]; [i] calls were sent since the loop began, after the [n0] calls
    with the parameters [sent0] made before it. *)
Definition loop_state {C : Type} (self : qid) (r0 : dict value)
    (ms ds : list string) (start size : Z) (limit : option Z)
    (headers : list Column) (n0 : nat) (sent0 : list (dict value))
    (i : nat) (cursor : qid) (report : option Report)
    (gathered : nat) (w : world C) : Prop :=
  cache w = None /\
  (exists os, queries w !! self = Some os /\
     meta os !! "limit" = (fun z => MVal (VInt z)) <$> limit) /\
  (exists oc, queries w !! cursor = Some oc /\
     raw oc = cursor_raw r0 start size i) /\
  length (calls w) = (n0 + i)%nat /\
  map snd (calls w) = sent0 ++ map (page_wire r0 ms ds start size) (seq 0 i) /\
  match report with
  | None => gathered = O
  | Some r => length (rp_rows r) = gathered /\ rp_headers r = headers
  end.

(** ** Reading a serialisation *)

(** The value of a hexadecimal digit. *)
Definition hex_value (c : ascii) : option N :=
  match Py.index_of (Str.of_char c)
          (Str.chars "0123456789abcdef") with
  | Some i => Some (N.of_nat i)
  | None => None
  end.

(** Reading back one character from the front of an escaped string. A
    double quote there is the end of the string. *)
Definition unescape_char (s : string) : option (ascii * string) :=
  match s with
  | EmptyString => None
  | String c rest =>
      if Ascii.eqb c Json.dquote then None
      else if Ascii.eqb c "\" then
        match rest with
        | EmptyString => None
        | String k rest' =>
            if Ascii.eqb k Json.dquote then Some (Json.dquote, rest')
            else if Ascii.eqb k "\" then Some ("\"%char, rest')
            else if Ascii.eqb k "n" then Some ("010"%char, rest')
            else if Ascii.eqb k "r" then Some ("013"%char, rest')
            else if Ascii.eqb k "t" then Some ("009"%char, rest')
            else if Ascii.eqb k "b" then Some ("008"%char, rest')
            else if Ascii.eqb k "f" then Some ("012"%char, rest')
            else
              match rest' with
              | String _ (String _ (String h (String l rest''))) =>
                  match hex_value h, hex_value l with
                  | Some a, Some b => Some (ascii_of_N (a * 16 + b), rest'')
                  | _, _ => None
                  end
              | _ => None
              end
        end
      else Some (c, rest)
  end.

(** An encoding after which the rest of the text can be told apart. *)
Definition prefix_free {A} (e : A -> string) : Prop :=
  forall a b r1 r2, e a +:+ r1 = e b +:+ r2 -> a = b /\ r1 = r2.

(** The items of an array after the first, each after its separator, and
    the closing bracket. *)
Fixpoint more {A} (e : A -> string) (l : list A) : string :=
  match l with
  | [] => "]"
  | a :: l' => ", " +:+ e a +:+ more e l'
  end.

(** An array of encoded items. *)
Definition array_of {A} (e : A -> string) (l : list A) : string :=
  match l with
  | [] => "[]"
  | a :: l' => "[" +:+ e a +:+ more e l'
  end.

(** The first character of a text. *)
Definition head_char (s : string) : option ascii :=
  match s with
  | EmptyString => None
  | String c _ => Some c
  end.

(** The decimal digits. *)
Definition is_digit (c : ascii) : bool :=
  ((48 <=? N_of_ascii c) && (N_of_ascii c <=? 57))%N.

(** A state of SHA-1 whose five words are below [2^32]. *)
Definition bounded (st : Sha1.state) : Prop :=
  let '(a, b, c, d, e) := st in
  (a < Sha1.w32 /\ b < Sha1.w32 /\ c < Sha1.w32 /\ d < Sha1.w32 /\ e < Sha1.w32)%N.

(** ** Sort entries *)

(** The entry that a column string contributes to the sort parameter: the
    identifier of the column that the string names without its leading
    dashes, after a dash when the string starts with one or the call asks
    for a descending sort. *)
Definition sort_entry {C : Type} (env : Env C) (flag : bool) (name : string) :
    option string :=
  match columns env (Str.lstrip_dash name) with
  | Some c =>
      Some ((if Str.startswith_dash name || flag then "-" else "") +:+ col_id c)
  | None => None
  end.

(** ** Objects that a call creates *)

(** A query object without a [_lock] of its own, as a builder call creates
    it: the parameters [r] and the options [m]. *)
Definition derived (r : dict value) (m : gmap string mval) : Query :=
  {| raw := r; meta := m; lock := None |}.

(** The world with one more query object, at the next address. *)
Definition with_object {C : Type} (w : world C) (o : Query) : world C :=
  set_queries w (queries w ++ [o]).

(** A run that creates the object [o'], returns its address and changes
    nothing else. *)
Definition creates {C : Type} (w : world C) (o' : Query)
    (run : res qid * world C) : Prop :=
  run = (Ok (length (queries w)), with_object w o').

(** A run that raises [e] and leaves every query object that existed as
    it was. *)
Definition refuses {C A : Type} (w : world C) (e : exn)
    (run : res A * world C) : Prop :=
  fst run = Raise e /\
  forall q o, queries w !! q = Some o -> queries (snd run) !! q = Some o.

(** The properties of a dictionary after their values went through
    [serialize]. *)
Definition served (serialize : value -> res value)
    (properties properties' : dict value) : Prop :=
  Forall2 (fun kv kv' => fst kv' = fst kv /\ serialize (snd kv) = Ok (snd kv'))
    properties properties'.

(** The parameters after a call of [limit] or [step] and the like set the
    window of rows. *)
Definition window_raw (r : dict value) (start maximum : value) : dict value :=
  Dict.set (Dict.set r "start_index" start) "max_results" maximum.

(** The parameters with the dimension of a granularity put first and the
    dates set. *)
Definition granular_raw (r : dict value) (dimension : string) (ds : list string)
    (dates : value * value) : dict value :=
  Dict.set
    (Dict.set (Dict.set r "dimensions" (VList (dimension :: ds)))
       "start_date" (fst dates))
    "end_date" (snd dates).

(** The text that names the items [before] and then [last]. *)
Definition listed (before : list string) (last : string) : string :=
  match before with
  | [] => last
  | _ => Str.join ", " before +:+ " and " +:+ last
  end.

(** ** Pages and reports *)

(** The rows of a page, cast by the casters of the headers; none when a
    cast fails. *)
Definition typed_rows {C : Type} (env : Env C) (headers : list Column)
    (p : response) : list (list value) :=
  match res_mapM (cast_row env headers) (default [] (rows p)) with
  | Ok typed => typed
  | Raise _ => []
  end.

(** The pages that the report of [get] keeps in [raw]: a report is tested
    for truth through its length, so a page that comes while the report has
    no row takes the place of the report. *)
Fixpoint kept_pages (pages : list response) : list response :=
  match pages with
  | [] => []
  | [p] => [p]
  | p :: rest => if Nat.eqb (page_rows p) 0 then kept_pages rest else pages
  end.

(** The totals of the last of the pages. *)
Definition last_totals (pages : list response) : dict string :=
  match last pages with
  | Some p => totalsForAllResults p
  | None => []
  end.

(** A run that returns a new query object [o'] and leaves every query
    object that existed as it was. *)
Definition returns {C : Type} (w : world C) (o' : Query)
    (run : res qid * world C) : Prop :=
  exists q' w',
    run = (Ok q', w') /\
    queries w !! q' = None /\
    queries w' !! q' = Some o' /\
    forall q o, queries w !! q = Some o -> queries w' !! q = Some o.

(** The dimension of a granularity, by its name. *)
Definition granularity_dimension (name : string) : option string :=
  match Py.index_of name GRANULARITY_LEVELS with
  | Some i => GRANULARITY_DIMENSIONS !! i
  | None => None
  end.

(** ** Keys of a keyword selection *)

(** A name that holds no double underscore and does not end with an
    underscore: followed by a double underscore, it is what [split] gives
    first. *)
Fixpoint plain (s : string) : bool :=
  match s with
  | EmptyString => true
  | String c s' =>
      if Ascii.eqb c "_" then
        match s' with
        | EmptyString => false
        | String c' _ => negb (Ascii.eqb c' "_") && plain s'
        end
      else plain s'
  end.

(** What [select] compiles for a column, a method and the values given,
    once the key is read. *)
Definition compiled {C : Type} (env : Env C) (column method : string)
    (values : selarg) : res (list string) :=
  if has_selector env method then
    match columns env column with
    | Some c => res_mapM (selector env c method) (sel_values values)
    | None => Raise (raise_of KeyError column)
    end
  else
    Raise (raise_of ValueError
             (method +:+ " is not a valid selector. Choose from: "
              +:+ Str.join ", " (selectors env))).

(** The group that a call of [filter] appends to the filters. *)
Definition filter_group {C : Type} (env : Env C) (val : option string)
    (selection : list (string * selarg)) : res value :=
  match selection with
  | [] => Ok (match val with
              | Some s => if String.eqb s "" then VStr s else VList [s]
              | None => VNone
              end)
  | _ :: _ =>
      if str_truthy val then Raise (raise_of ValueError conflict_message)
      else match select env selection with
           | Ok exprs => Ok (VList exprs)
           | Raise e => Raise e
           end
  end.

(** The world after a call that appends the group [g] to the list of
    groups that the option [key] of the receiver [o] refers to, or to a
    new list when the receiver has no such option, and creates the query
    with the parameters [r]. In the first case the list is the one that
    the receiver and the new query share. *)
Definition with_group {C : Type} (w : world C) (o : Query) (key : string)
    (g : value) (r : dict value) : world C :=
  match meta o !! key with
  | Some (MRef l) =>
      with_object
        (set_lists w (<[l:=default [] (lists w !! l) ++ [g]]> (lists w)))
        (derived r (meta o))
  | _ =>
      with_object (set_lists w (lists w ++ [[g]]))
        (derived r (<[key:=MRef (length (lists w))]> (meta o)))
  end.

(** The groups that the option [key] of [o] holds. *)
Definition groups_of {C : Type} (w : world C) (o : Query) (key : string) :
    list value :=
  match meta o !! key with
  | Some (MRef l) => default [] (lists w !! l)
  | _ => []
  end.

(** The option [key] of [o] is absent, or it refers to a list object. *)
Definition list_option {C : Type} (w : world C) (o : Query) (key : string) : Prop :=
  match meta o !! key with
  | Some (MRef l) => is_Some (lists w !! l)
  | Some (MVal _) => False
  | None => True
  end.

(** A report whose rows have one value for each header. *)
Definition well_formed (r : Report) : Prop :=
  Forall (fun row => length row = length (rp_headers r)) (rp_rows r).

(** The value [v] is what the caster of column [i] makes of cell [i] of the
    row [cells]. *)
Definition cast_of {C : Type} (env : Env C) (headers : list Column)
    (cells : list string) (i : nat) (v : value) : Prop :=
  exists h x, headers !! i = Some h /\ cells !! i = Some x /\ cast env h x = Ok v.

(** What the report of the loop of [get] holds once the pages [fetched]
    are merged: their rows in the order of the pages, the pages kept in
    [raw], and the totals of the last page. *)
Definition loop_content {C : Type} (env : Env C) (headers : list Column)
    (fetched : list response) (report : option Report) : Prop :=
  Forall (page_ok env headers) fetched /\
  match report with
  | None => fetched = []
  | Some r =>
      fetched <> [] /\
      rp_rows r = concat (map (typed_rows env headers) fetched) /\
      rp_raw r = kept_pages fetched /\
      rp_totals r = last_totals fetched
  end.

(** * Properties *)

(** ** The store: reading, writing and cloning *)

Section Store.
Context {C : Type} (env : Env C).

Lemma lookup_snoc {A} (l : list A) (x : A) : (l ++ [x]) !! length l = Some x.
Proof. rewrite lookup_app_r by lia. now rewrite Nat.sub_diag. Qed.

Lemma insert_snoc {A} (l : list A) (x y : A) :
  <[length l:=y]> (l ++ [x]) = l ++ [y].
Proof.
  rewrite insert_app_r_alt by lia. now rewrite Nat.sub_diag.
Qed.

Lemma lookup_snoc_lt {A} (l : list A) (x : A) (i : nat) (a : A) :
  l !! i = Some a -> (l ++ [x]) !! i = Some a.
Proof. intros H. rewrite lookup_app_l; [done|]. now apply lookup_lt_Some in H. Qed.

(** A clone is a new object: it has the parameters and the options of the
    receiver, and no [_lock] of its own. Nothing else changes. *)
Lemma clone_spec (w : world C) (q : qid) (o : Query) :
  queries w !! q = Some o ->
  clone env q w =
    (Ok (length (queries w)),
     set_queries w (queries w ++ [{| raw := raw o; meta := meta o; lock := None |}])).
Proof.
  intros Hq.
  unfold clone, Query_init, _specify, raw_extend, alloc_query, read_query,
    write_query, bind, lift, ret, with_raw, set_queries.
  simpl. rewrite Hq. simpl.
  rewrite !lookup_snoc. simpl.
  rewrite !insert_snoc. simpl. rewrite !lookup_snoc. simpl.
  rewrite !insert_snoc. simpl. rewrite !lookup_snoc. simpl.
  rewrite !insert_snoc. reflexivity.
Qed.

End Store.

(** ** Dictionaries *)

Section DictFacts.
Context {V : Type}.
Implicit Types (d : dict V) (k : string) (v : V).

Lemma dict_get_set_eq d k v : Dict.get (Dict.set d k v) k = Some v.
Proof.
  induction d as [|[k' v'] d IH]; simpl.
  - now rewrite String.eqb_refl.
  - destruct (String.eqb_spec k k') as [->|Hne]; simpl.
    + now rewrite String.eqb_refl.
    + destruct (String.eqb_spec k k'); [contradiction|exact IH].
Qed.

Lemma dict_get_set_ne d k k' v :
  k <> k' -> Dict.get (Dict.set d k v) k' = Dict.get d k'.
Proof.
  intros Hne. induction d as [|[k0 v0] d IH]; simpl.
  - destruct (String.eqb_spec k' k); [congruence|reflexivity].
  - destruct (String.eqb_spec k k0) as [->|Hk]; simpl.
    + destruct (String.eqb_spec k' k0); [congruence|reflexivity].
    + destruct (String.eqb_spec k' k0); [reflexivity|exact IH].
Qed.

Lemma dict_keys_set_present d k v v0 :
  Dict.get d k = Some v0 -> Dict.keys (Dict.set d k v) = Dict.keys d.
Proof.
  unfold Dict.keys. induction d as [|[k' v'] d IH]; simpl; [discriminate|].
  destruct (String.eqb_spec k k') as [->|Hne]; simpl; [reflexivity|].
  intros H. now rewrite IH.
Qed.

Lemma dict_get_None_keys d k : Dict.get d k = None <-> k ∉ Dict.keys d.
Proof.
  unfold Dict.keys. induction d as [|[k' v'] d IH]; simpl.
  - split; [intros _; apply not_elem_of_nil|reflexivity].
  - rewrite not_elem_of_cons.
    destruct (String.eqb_spec k k') as [->|Hne].
    + split; [discriminate|intros [H _]; congruence].
    + rewrite IH. tauto.
Qed.

Lemma dict_keys_set_absent d k v :
  Dict.get d k = None -> Dict.keys (Dict.set d k v) = Dict.keys d ++ [k].
Proof.
  unfold Dict.keys. induction d as [|[k' v'] d IH]; simpl; [reflexivity|].
  destruct (String.eqb_spec k k') as [->|Hne]; simpl; [discriminate|].
  intros H. now rewrite IH.
Qed.

(** Assignments keep every key single. *)
Lemma dict_set_NoDup d k v :
  NoDup (Dict.keys d) -> NoDup (Dict.keys (Dict.set d k v)).
Proof.
  intros Hnd. destruct (Dict.get d k) as [v0|] eqn:Hget.
  - now rewrite (dict_keys_set_present d k v v0 Hget).
  - rewrite (dict_keys_set_absent d k v Hget).
    apply NoDup_app. repeat split; [exact Hnd| |apply NoDup_singleton].
    intros x Hx Hin. apply list_elem_of_singleton in Hin as ->.
    now apply dict_get_None_keys in Hget.
Qed.

End DictFacts.

Lemma dict_set_set {V : Type} (d : dict V) (k : string) (v v' : V) :
  Dict.set (Dict.set d k v) k v' = Dict.set d k v'.
Proof.
  induction d as [|[k0 v0] d IH]; simpl.
  - now rewrite String.eqb_refl.
  - destruct (String.eqb_spec k k0) as [->|Hne]; simpl.
    + now rewrite String.eqb_refl.
    + destruct (String.eqb_spec k k0); [contradiction|]. now rewrite IH.
Qed.

(** ** Test vectors of the digest and of the signature *)

Example sha1_abc :
  Sha1.hexdigest "abc" = "a9993e364706816aba3e25717850c26c9cd0d89d".
Proof. vm_compute. reflexivity. Qed.

Example sha1_empty :
  Sha1.hexdigest "" = "da39a3ee5e6b4b0d3255bfef95601890afd80709".
Proof. vm_compute. reflexivity. Qed.

Example sha1_two_blocks :
  Sha1.hexdigest "abcdbcdecdefdefgefghfghighijhijkijkljklmklmnlmnomnopnopq" =
    "84983e441c3bd26ebaae4aa1f95129e5e54670f1".
Proof. vm_compute. reflexivity. Qed.

(** The signatures that Python computes for these parameters. *)
Example signature_first_page :
  signature_of (wire_from 1) = "e27ababd62b375b510e14ec108344cb72097122e".
Proof. vm_compute. reflexivity. Qed.

Example signature_with_escapes :
  signature_of
    [("ids", VStr "ga:1"); ("metrics", VStr "ga:pageviews,ga:sessions");
     ("dimensions", VStr "ga:date");
     ("start_date", VStr "2020-01-01"); ("end_date", VStr "2020-01-31");
     ("max_results", VInt (-5));
     ("x", VList ["a" +:+ String Json.dquote "b";
                  "c\d" +:+ String "010" (String "127" (String "233" ""))])] =
    "9f3da607e68ef23d751010a1b83323dac4058f66".
Proof. vm_compute. reflexivity. Qed.



(** ** Cacheability *)

Section Cacheable.
Context {C : Type} (env : Env C).

Lemma cacheable_raw_true (r : dict value) :
  cacheable_raw env r = true <->
  exists start stop,
    Dict.get r "start_date" = Some start /\
    Dict.get r "end_date" = Some stop /\
    date_is_relative env start = false /\
    date_is_relative env stop = false.
Proof.
  unfold cacheable_raw. split.
  - intros H. apply andb_true_iff in H as [Hs He].
    destruct (Dict.get r "start_date") as [s|]; [|discriminate].
    destruct (Dict.get r "end_date") as [e|]; [|discriminate].
    exists s, e. repeat split; auto; now apply negb_true_iff.
  - intros (s & e & -> & -> & Hs & He). now rewrite Hs, He.
Qed.

Lemma cacheable_reads (w : world C) (q : qid) (o : Query) :
  queries w !! q = Some o ->
  cacheable env q w = (Ok (cacheable_raw env (raw o)), w).
Proof. intros H. unfold cacheable, bind, read_query, ret. now rewrite H. Qed.

End Cacheable.

(** C4. [cacheable] reads the query and changes nothing; it is true exactly
    when [start_date] and [end_date] are both present and neither is a
    relative date. Where the date helper classifies [today] as relative and
    the two dates of January 2020 as absolute, a query that starts [today]
    is not cacheable and the query over that month is. *)
Theorem cacheable_iff_absolute_dates {C : Type} (env : Env C)
    (w : world C) (q : qid) (o : Query) :
  date_is_relative env (VStr "today") = true ->
  date_is_relative env (VStr "2020-01-01") = false ->
  date_is_relative env (VStr "2020-01-31") = false ->
  queries w !! q = Some o ->
  exists b,
    cacheable env q w = (Ok b, w) /\
    (b = true <->
     exists start stop,
       Dict.get (raw o) "start_date" = Some start /\
       Dict.get (raw o) "end_date" = Some stop /\
       date_is_relative env start = false /\
       date_is_relative env stop = false) /\
    (Dict.get (raw o) "start_date" = Some (VStr "today") -> b = false) /\
    (Dict.get (raw o) "start_date" = Some (VStr "2020-01-01") ->
     Dict.get (raw o) "end_date" = Some (VStr "2020-01-31") -> b = true).
Proof.
  intros Htoday Hfirst Hlast Hq.
  exists (cacheable_raw env (raw o)).
  split; [now apply cacheable_reads|].
  split; [apply cacheable_raw_true|].
  split.
  - intros Hs. unfold cacheable_raw. now rewrite Hs, Htoday.
  - intros Hs He. apply cacheable_raw_true.
    exists (VStr "2020-01-01"), (VStr "2020-01-31"). auto.
Qed.

Lemma cacheable_iff_absolute_dates_witness :
  exists b,
    cacheable (Mock.env []) 0%nat Fixtures.january_world = (Ok b, Fixtures.january_world) /\
    b = true.
Proof.
  destruct (cacheable_iff_absolute_dates (Mock.env []) Fixtures.january_world 0%nat Fixtures.january)
    as (b & Hrun & _ & _ & Habs); try reflexivity.
  exists b. split; [exact Hrun|]. apply Habs; reflexivity.
Defined.

(** ** The value of a report *)

Section ReportValue.
Context {C : Type} (env : Env C).

Lemma Report_getitem_single (r : Report) (metric : Column) (row : list value)
    (i : nat) (v : value) :
  rp_rows r = [row] ->
  headers_index env (rp_headers r) (col_slug metric) = Some i ->
  row !! i = Some v ->
  Report_getitem env r metric = Ok [v].
Proof.
  intros Hrows Hi Hv. unfold Report_getitem.
  rewrite Hi, Hrows. simpl. now rewrite Hv.
Qed.

Lemma Report_values_single (r : Report) (m : string) (metric : Column) :
  rp_metrics r = {[m]} ->
  headers_get env (rp_headers r) m = Ok metric ->
  Report_values env r = Report_getitem env r metric.
Proof.
  intros Hm Hget. unfold Report_values.
  rewrite Hm, elements_singleton. now rewrite Hget.
Qed.

End ReportValue.

(** C10. [Report.value] is [None] for a report without rows; for a report
    of one row and one metric it is the typed value of that row in the
    column of the metric; for a report of more rows it raises the
    [ValueError] that points to [rows], [first], [last] or a column name. *)
Theorem report_value_by_row_count {C : Type} (env : Env C) (r : Report) :
  (rp_rows r = [] -> Report_value env r = Ok None) /\
  (forall row m metric i v,
     rp_rows r = [row] ->
     rp_metrics r = {[m]} ->
     headers_get env (rp_headers r) m = Ok metric ->
     headers_index env (rp_headers r) (col_slug metric) = Some i ->
     row !! i = Some v ->
     Report_value env r = Ok (Some v)) /\
  ((1 < length (rp_rows r))%nat ->
   Report_value env r = Raise (raise_of ValueError multiple_rows_message)).
Proof.
  repeat split.
  - intros Hrows. unfold Report_value. now rewrite Hrows.
  - intros row m metric i v Hrows Hm Hget Hi Hv.
    unfold Report_value. rewrite Hrows.
    rewrite (Report_values_single env r m metric Hm Hget).
    now rewrite (Report_getitem_single env r metric row i v Hrows Hi Hv).
  - intros Hlen. unfold Report_value.
    destruct (rp_rows r) as [|row1 [|row2 rest]]; simpl in Hlen; try lia.
    reflexivity.
Qed.

Lemma report_value_by_row_count_witness :
  Report_value (Mock.env []) Fixtures.report42 = Ok (Some (VInt 42)).
Proof.
  apply (proj1 (proj2 (report_value_by_row_count (Mock.env []) Fixtures.report42))
           [VInt 42] "ga:pageviews" Mock.pageviews 0%nat (VInt 42));
    reflexivity.
Defined.

(** The report that [execute] builds from the response
    [{columnHeaders: [ga:pageviews], rows: [[42]], totals: ...}] has the
    value [42]. *)
Example execute_single_value :
  let script := [Ok (Mock.page 1 false)] in
  let run :=
    (q <- Query_init (Mock.env script) [ColName "pageviews"] [] None ;;
     report <- execute (Mock.env script) q ;;
     ret (Report_value (Mock.env script) report))%M
      (fresh_world 0%Q None) in
  fst run = Ok (Ok (Some (VInt 42))).
Proof. vm_compute. reflexivity. Qed.

(** ** Precision *)

Section Precision.
Context {C : Type} (env : Env C).


Lemma tuple_index_levels (i : Z) :
  Py.tuple_index PRECISION_LEVELS i =
    if (i =? 0) || (i =? -3) then Ok "FASTER"
    else if (i =? 1) || (i =? -2) then Ok "DEFAULT"
    else if (i =? 2) || (i =? -1) then Ok "HIGHER_PRECISION"
    else Raise (raise_of IndexError "tuple index out of range").
Proof.
  unfold Py.tuple_index, PRECISION_LEVELS. simpl length.
  destruct (Z.eq_dec i 0) as [->|]; [reflexivity|].
  destruct (Z.eq_dec i 1) as [->|]; [reflexivity|].
  destruct (Z.eq_dec i 2) as [->|]; [reflexivity|].
  destruct (Z.eq_dec i (-1)) as [->|]; [reflexivity|].
  destruct (Z.eq_dec i (-2)) as [->|]; [reflexivity|].
  destruct (Z.eq_dec i (-3)) as [->|]; [reflexivity|].
  repeat match goal with
         | |- context [(i =? ?k)] => rewrite (proj2 (Z.eqb_neq i k)) by lia
         end.
  simpl. change (Z.of_nat 3) with 3.
  destruct (Z.ltb_spec i 0).
  - destruct (Z.leb_spec 0 (i + 3)); [lia|reflexivity].
  - destruct (Z.ltb_spec i 3); [lia|]. now rewrite andb_false_r.
Qed.

(** What the body of [precision] does to the object it works on: the level
    is resolved, and [samplingLevel] is set when it is not [DEFAULT]. *)
Lemma precision_body_spec (w : world C) (q : qid) (o : Query) (p : value) :
  queries w !! q = Some o ->
  precision_body p q w =
    match resolve_precision p with
    | Raise e => (Raise e, w)
    | Ok level =>
        if String.eqb level "DEFAULT" then (Ok tt, w)
        else (Ok tt,
              set_queries w
                (<[q:=with_raw o (Dict.set (raw o) "samplingLevel" (VStr level))]>
                   (queries w)))
    end.
Proof.
  intros Hq. unfold precision_body, resolve_precision, bind, lift, ret, error, throw.
  destruct p as [|i|s|l]; try reflexivity.
  - rewrite tuple_index_levels.
    destruct ((i =? 0) || (i =? -3)); [|destruct ((i =? 1) || (i =? -2));
      [|destruct ((i =? 2) || (i =? -1))]]; simpl; try reflexivity;
      unfold set_raw, bind, read_query, write_query; now rewrite Hq.
  - change (Py.in_strings (VStr s) PRECISION_LEVELS)
      with (existsb (String.eqb s) PRECISION_LEVELS).
    destruct (existsb (String.eqb s) PRECISION_LEVELS) eqn:Hin;
      cbn [negb]; [|reflexivity].
    destruct (String.eqb_spec s "DEFAULT") as [->|Hne].
    + reflexivity.
    + rewrite bool_decide_eq_false_2 by congruence. simpl.
      unfold set_raw, bind, read_query, write_query. now rewrite Hq.
Qed.

End Precision.

(** C8, at the integers outside the table. An integer below [-3] or above
    [2] makes [precision] raise the [IndexError] of the tuple lookup, whose
    text names no level, and not the [ValueError] that lists the levels. *)
Theorem precision_index_out_of_range {C : Type} (env : Env C) (w : world C)
    (q : qid) (o : Query) (i : Z) :
  queries w !! q = Some o ->
  i < -3 \/ 2 < i ->
  fst (precision env (VInt i) q w) =
    Raise (raise_of IndexError "tuple index out of range") /\
  raise_of IndexError "tuple index out of range" <>
    raise_of ValueError precision_message.
Proof.
  intros Hq Hi. split; [|discriminate].
  unfold precision, immutable, bind.
  rewrite (clone_spec env w q o Hq).
  erewrite precision_body_spec by (simpl; apply lookup_snoc).
  unfold resolve_precision. rewrite tuple_index_levels.
  repeat match goal with
         | |- context [(i =? ?k)] => rewrite (proj2 (Z.eqb_neq i k)) by lia
         end.
  reflexivity.
Qed.

Lemma precision_index_out_of_range_witness :
  fst (precision (Mock.env []) (VInt 3) 0%nat (Fixtures.base_world None)) =
    Raise (raise_of IndexError "tuple index out of range").
Proof.
  apply (precision_index_out_of_range (Mock.env []) (Fixtures.base_world None)
           0%nat Fixtures.base 3); [reflexivity | lia].
Defined.

(** A name outside the table is refused with the text that lists the
    levels, and a level other than [DEFAULT] is written to the clone. *)
Lemma precision_by_name {C : Type} (env : Env C) (w : world C)
    (q : qid) (o : Query) (s : string) :
  queries w !! q = Some o ->
  precision env (VStr s) q w =
    if existsb (String.eqb s) PRECISION_LEVELS then
      (Ok (length (queries w)),
       set_queries w
         (queries w ++
            [{| raw := if String.eqb s "DEFAULT" then raw o
                       else Dict.set (raw o) "samplingLevel" (VStr s);
                meta := meta o; lock := None |}]))
    else
      (Raise (raise_of ValueError
                "Precision should be one of: FASTER, DEFAULT, HIGHER_PRECISION"),
       set_queries w
         (queries w ++ [{| raw := raw o; meta := meta o; lock := None |}])).
Proof.
  intros Hq. unfold precision, immutable, bind.
  rewrite (clone_spec env w q o Hq).
  erewrite precision_body_spec by (simpl; apply lookup_snoc).
  unfold resolve_precision.
  destruct (existsb (String.eqb s) PRECISION_LEVELS); [|reflexivity].
  destruct (String.eqb s "DEFAULT"); [reflexivity|].
  unfold ret, with_raw, set_queries. simpl. now rewrite insert_snoc.
Qed.

(** An integer from [-3] to [-1] counts from the end of the table, as any
    index of a tuple does: [-1] is [HIGHER_PRECISION]. And a query that
    already carries a [samplingLevel] keeps it when [DEFAULT] is asked
    for. *)
Example precision_negative_and_chained :
  let E := Mock.env [] in
  let run :=
    (q1 <- precision E (VInt (-1)) 0%nat ;;
     s1 <- get_raw q1 "samplingLevel" ;;
     q2 <- precision E (VStr "DEFAULT") q1 ;;
     s2 <- get_raw q2 "samplingLevel" ;;
     ret (s1, s2))%M (Fixtures.base_world None) in
  fst run = Ok (VStr "HIGHER_PRECISION", VStr "HIGHER_PRECISION").
Proof. vm_compute. reflexivity. Qed.

(** ** Sorting *)
(** C7, at a column object. When the first column given to [sort] is a
    column object, the call raises [UnboundLocalError]: the branch of a
    column object takes the id and assigns nothing to [descending], which
    the next statement reads. No [sort] parameter is produced. *)
Theorem sort_column_object_first {C : Type} (env : Env C) (w : world C)
    (q : qid) (o : Query) (c : Column) (rest : list colarg) (flag : bool) :
  queries w !! q = Some o ->
  (forall v, meta o !! "sort" <> Some (MVal v)) ->
  fst (sort env (ColObj c :: rest) flag q w) = Raise unbound_descending.
Proof.
  intros Hq Hmeta.
  unfold sort, immutable, bind.
  rewrite (clone_spec env w q o Hq).
  unfold sort_body, meta_setdefault_list, bind, read_query.
  cbn [queries set_queries]. rewrite lookup_snoc. cbn [meta].
  destruct (meta o !! "sort") as [[v|l]|] eqn:Hsort.
  - now destruct (Hmeta v).
  - reflexivity.
  - reflexivity.
Qed.

Lemma sort_column_object_first_witness :
  fst (sort (Mock.env []) [ColObj Mock.pageviews] false 0%nat
         (Fixtures.base_world None)) = Raise unbound_descending.
Proof.
  apply (sort_column_object_first (Mock.env []) (Fixtures.base_world None)
           0%nat Fixtures.base Mock.pageviews [] false).
  - reflexivity.
  - intros v. discriminate.
Defined.

(** After a column string, a column object inherits the direction of the
    string before it. *)
Example sort_column_object_inherits :
  let run :=
    (q <- sort (Mock.env []) [ColName "-pageviews"; ColObj Mock.sessions]
            false 0%nat ;;
     get_raw q "sort")%M (Fixtures.base_world None) in
  fst run = Ok (VStr "-ga:pageviews,-ga:sessions").
Proof. vm_compute. reflexivity. Qed.

(** Column strings alone: the direction comes from the leading dash or
    from the flag, and the parameter lists the identifiers in order. *)
Example sort_column_strings :
  let run :=
    (q <- sort (Mock.env []) [ColName "PageViews"; ColName "-sessions"]
            false 0%nat ;;
     get_raw q "sort")%M (Fixtures.base_world None) in
  fst run = Ok (VStr "ga:pageviews,-ga:sessions").
Proof. vm_compute. reflexivity. Qed.

Example sort_descending_flag :
  let run :=
    (q <- sort (Mock.env []) [ColName "pageviews"; ColName "browser"]
            true 0%nat ;;
     get_raw q "sort")%M (Fixtures.base_world None) in
  fst run = Ok (VStr "-ga:pageviews,-ga:browser").
Proof. vm_compute. reflexivity. Qed.

Section SortStrings.
Context {C : Type} (env : Env C).

Lemma strings_of_VStr (ss : list string) : strings_of (map VStr ss) = Ok ss.
Proof.
  unfold strings_of. induction ss as [|s ss IH]; simpl; [reflexivity|].
  unfold strings_of in IH. now rewrite IH.
Qed.

(** The loop on column strings appends one entry for each, in order. *)
Lemma sort_loop_strings (sorts : loc) (flag : bool) (names entries : list string) :
  Forall2 (fun name entry => sort_entry env flag name = Some entry) names entries ->
  forall (descending : option bool) (w : world C) (vs : list value),
  lists w !! sorts = Some vs ->
  exists w',
    sort_loop env sorts flag descending (map ColName names) w = (Ok tt, w') /\
    queries w' = queries w /\
    lists w' = <[sorts:=vs ++ map VStr entries]> (lists w).
Proof.
  induction 1 as [|name entry names entries Hentry _ IH];
    intros descending w vs Hvs.
  - exists w. simpl. rewrite app_nil_r.
    rewrite list_insert_id by exact Hvs. auto.
  - unfold sort_entry in Hentry.
    destruct (columns env (Str.lstrip_dash name)) as [c|] eqn:Hc; [|discriminate].
    injection Hentry as <-.
    assert (Hlt : (sorts < length (lists w))%nat) by now apply lookup_lt_Some in Hvs.
    set (v := VStr ((if Str.startswith_dash name || flag then "-" else "")
                    +:+ col_id c)).
    set (w1 := set_lists w (<[sorts:=vs ++ [v]]> (lists w))).
    destruct (IH (Some (Str.startswith_dash name || flag)) w1 (vs ++ [v]))
      as (w' & Hrun & Hqs & Hls).
    { unfold w1. cbn. now apply list_lookup_insert_eq. }
    exists w'. split; [|split].
    + cbn [map sort_loop]. unfold bind at 1, bind at 1, lookup_column.
      rewrite Hc. unfold ret at 1, ret at 1. cbn [fst snd].
      unfold bind at 1, list_append. rewrite Hvs. exact Hrun.
    + rewrite Hqs. reflexivity.
    + rewrite Hls. unfold w1. cbn [lists set_lists].
      rewrite list_insert_insert_eq. cbn [map]. now rewrite <- app_assoc.
Qed.

(** [sort] on column strings, for a query that was not sorted before: the
    new query carries the entries, joined by commas in the order of the
    arguments. *)
Lemma sort_column_strings_spec (w : world C) (q : qid) (o : Query) (flag : bool)
    (names entries : list string) :
  queries w !! q = Some o ->
  meta o !! "sort" = None ->
  Forall2 (fun name entry => sort_entry env flag name = Some entry) names entries ->
  exists w',
    sort env (map ColName names) flag q w = (Ok (length (queries w)), w') /\
    (raw <$> queries w' !! length (queries w)) =
      Some (Dict.set (raw o) "sort" (VStr (Str.join "," entries))) /\
    queries w' !! q = Some o.
Proof.
  intros Hq Hmeta Hentries.
  assert (Hlt : (q < length (queries w))%nat) by now apply lookup_lt_Some in Hq.
  unfold sort, immutable, bind at 1. rewrite (clone_spec env w q o Hq).
  unfold bind at 1, sort_body, bind at 1, meta_setdefault_list, bind at 1,
    read_query at 1.
  cbn [queries set_queries]. rewrite lookup_snoc.
  cbn [meta]. rewrite Hmeta.
  unfold bind at 1, alloc_list at 1. cbn [lists set_queries set_lists].
  unfold bind at 1, write_query at 1, ret at 1.
  cbn [queries lists set_queries set_lists with_meta raw meta lock].
  rewrite insert_snoc.
  set (w1 := set_queries _ _).
  destruct (sort_loop_strings (length (lists w)) flag names entries Hentries
              None w1 []) as (w2 & Hloop & Hqs & Hls).
  { unfold w1. cbn. apply lookup_snoc. }
  unfold bind at 1. rewrite Hloop.
  unfold bind at 1, read_list at 1. rewrite Hls.
  unfold w1 at 1. cbn [lists set_queries set_lists]. rewrite insert_snoc.
  rewrite lookup_snoc. cbn [app]. unfold bind at 1, lift at 1.
  rewrite strings_of_VStr.
  unfold set_raw, bind, read_query, write_query, ret. rewrite Hqs.
  unfold w1. cbn [queries set_queries set_lists].
  rewrite lookup_snoc.
  eexists. split; [reflexivity|]. cbn [queries set_queries].
  rewrite Hqs. unfold w1. cbn [queries set_queries set_lists]. split.
  - rewrite insert_snoc, lookup_snoc. reflexivity.
  - rewrite insert_snoc. now apply lookup_snoc_lt.
Qed.

End SortStrings.

(** ** The rate limiter *)

Section RateLimiter.
Context {C : Type}.

Lemma max0_nonpositive (x : Q) : (x <= 0)%Q -> max0 x = 0%Q.
Proof. intros H. unfold max0. apply Qle_bool_iff in H. now rewrite H. Qed.

Lemma max0_lower_bound (x : Q) : (x <= max0 x)%Q /\ (0 <= max0 x)%Q.
Proof.
  unfold max0. destruct (Qle_bool x 0) eqn:H.
  - apply Qle_bool_iff in H. split; [exact H|apply Qle_refl].
  - split; [apply Qle_refl|].
    destruct (Qlt_le_dec 0 x) as [Hlt|Hle].
    + now apply Qlt_le_weak.
    + apply Qle_bool_iff in Hle. congruence.
Qed.

(** The run of [_wait] on an object of the store. *)
Lemma _wait_run (w : world C) (q : qid) (o : Query) :
  queries w !! q = Some o ->
  let last := default (class_lock w) (lock o) in
  let wait := max0 (1 - (now w - last))%Q in
  _wait q w =
    (Ok wait,
     set_queries (set_now w (now w + wait)%Q)
       (<[q:=with_lock o (now w + wait)%Q]> (queries w))).
Proof.
  intros Hq. unfold _wait, bind, time_time, time_sleep, read_query, write_query, ret.
  rewrite Hq. cbn [queries set_now lists now class_lock cache calls].
  rewrite Hq. reflexivity.
Qed.

(** [_wait] never writes the attribute of the class. *)
Lemma _wait_class_lock (w : world C) (q : qid) :
  class_lock (snd (_wait q w)) = class_lock w.
Proof.
  unfold _wait, bind, time_time, time_sleep, read_query, write_query, ret.
  destruct (queries w !! q) eqn:Hq; [|reflexivity].
  cbn [queries set_now lists now class_lock cache calls]. now rewrite Hq.
Qed.

(** On one instance the interval is kept: when [_wait] returns, at least
    one time unit has passed since the instance last made a call. *)
Lemma _wait_same_instance (w : world C) (q : qid) (o : Query) (t0 : Q) :
  queries w !! q = Some o ->
  lock o = Some t0 ->
  (t0 + 1 <= now (snd (_wait q w)))%Q.
Proof.
  intros Hq Hlock. rewrite (_wait_run w q o Hq). cbn. rewrite Hlock. cbn.
  destruct (max0_lower_bound (1 - (now w - t0))%Q) as [H _]. lra.
Qed.

End RateLimiter.

(** C5, at two instances. The time of the last call is kept on the
    instance: [_wait] assigns [self._lock], and the attribute of the class
    stays [0]. So when a second query object that has made no call yet
    waits right after a first one, it finds a time of the last call of
    [0], does not sleep, and its call goes out at the very time of the
    first. *)
Theorem wait_is_per_instance {C : Type} (w : world C) (q1 q2 : qid) (o1 o2 : Query) :
  q1 <> q2 ->
  queries w !! q1 = Some o1 ->
  queries w !! q2 = Some o2 ->
  lock o2 = None ->
  (class_lock w + 1 <= now w)%Q ->
  let w1 := snd (_wait q1 w) in
  let w2 := snd (_wait q2 w1) in
  fst (_wait q2 w1) = Ok 0%Q /\ (now w2 == now w1)%Q.
Proof.
  intros Hne H1 H2 Hlock Hclock w1 w2.
  assert (Hq2 : queries w1 !! q2 = Some o2).
  { unfold w1. rewrite (_wait_run w q1 o1 H1). cbn.
    now rewrite list_lookup_insert_ne. }
  assert (Hcl : class_lock w1 = class_lock w) by apply _wait_class_lock.
  assert (Hnow : (now w <= now w1)%Q).
  { unfold w1. rewrite (_wait_run w q1 o1 H1). cbn.
    destruct (max0_lower_bound
                (1 - (now w - default (class_lock w) (lock o1)))%Q) as [_ H]. lra. }
  assert (Hwait : max0 (1 - (now w1 - class_lock w1))%Q = 0%Q).
  { apply max0_nonpositive. rewrite Hcl. lra. }
  unfold w2. rewrite (_wait_run w1 q2 o2 Hq2). cbn. rewrite Hlock. cbn.
  rewrite Hwait. split; [reflexivity|ring].
Qed.

Lemma wait_is_per_instance_witness :
  let w := set_queries (fresh_world 1000%Q (None : option Mock.cache_t))
             [Fixtures.base; Fixtures.base] in
  let w1 := snd (_wait 0%nat w) in
  fst (_wait 1%nat w1) = Ok 0%Q /\ (now (snd (_wait 1%nat w1)) == now w1)%Q.
Proof.
  apply (wait_is_per_instance
           (set_queries (fresh_world 1000%Q None) [Fixtures.base; Fixtures.base])
           0%nat 1%nat Fixtures.base Fixtures.base);
    [discriminate | reflexivity | reflexivity | reflexivity | vm_compute; discriminate].
Defined.

(** Two executions back to back from two query objects, without a cache:
    both outbound calls are made at time [1000]. *)
Example executions_back_to_back :
  let script := [Ok (Mock.page 1 false); Ok (Mock.page 1 false)] in
  let run :=
    (q1 <- metrics (Mock.env script) [] 0%nat ;;
     q2 <- metrics (Mock.env script) [] 0%nat ;;
     execute (Mock.env script) q1 ;;;
     execute (Mock.env script) q2)%M (Fixtures.base_world None) in
  is_ok (fst run) = true /\
  map fst (calls (snd run)) = [1000%Q; 1000%Q].
Proof. vm_compute. split; reflexivity. Qed.

(** The pages of one [get] are fetched through a new clone each, so they
    too go out without a pause. *)
Example pages_back_to_back :
  let script := [Ok (Mock.page 10 true); Ok (Mock.page 10 true);
                 Ok (Mock.page 3 false)] in
  let run := get (Mock.env script) 5 0%nat (Fixtures.base_world None) in
  match fst run with
  | Ok (Some report) => length (rp_rows report) = 23%nat
  | _ => False
  end /\
  map fst (calls (snd run)) = [1000%Q; 1000%Q; 1000%Q].
Proof. vm_compute. split; reflexivity. Qed.

(** ** Builder calls and the receiver *)

Section Frame.
Context {C : Type} (env : Env C).

Local Abbreviation keeps_others := (@keeps_others C _).


Lemma keeps_ret {A} self (a : A) : keeps_others self (ret a).
Proof. now intros w q _. Qed.

Lemma keeps_throw {A} self e : keeps_others self (@throw C A e).
Proof. now intros w q _. Qed.

Lemma keeps_error {A} self c msg : keeps_others self (@error C A c msg).
Proof. now intros w q _. Qed.

Lemma keeps_lift {A} self (r : res A) : keeps_others self (lift r).
Proof. now intros w q _. Qed.

Lemma keeps_bind {A B} self (m : M C A) (k : A -> M C B) :
  keeps_others self m -> (forall a, keeps_others self (k a)) ->
  keeps_others self (bind m k).
Proof.
  intros Hm Hk w q Hne. unfold bind.
  specialize (Hm w q Hne). destruct (m w) as [[a|e] w']; simpl in *.
  - now rewrite (Hk a w' q Hne).
  - exact Hm.
Qed.

Lemma keeps_read_query self q : keeps_others self (@read_query C q).
Proof. intros w q' _. unfold read_query. now destruct (queries w !! q). Qed.

Lemma keeps_write_query self o : keeps_others self (@write_query C self o).
Proof.
  intros w q Hne. unfold write_query. simpl.
  now rewrite list_lookup_insert_ne.
Qed.

Lemma keeps_read_list self l : keeps_others self (@read_list C l).
Proof. intros w q' _. unfold read_list. now destruct (lists w !! l). Qed.

Lemma keeps_alloc_list self vs : keeps_others self (@alloc_list C vs).
Proof. now intros w q _. Qed.

Lemma keeps_list_append self l v : keeps_others self (@list_append C l v).
Proof. intros w q' _. unfold list_append. now destruct (lists w !! l). Qed.

Create HintDb keeps.

#[local] Hint Resolve keeps_ret keeps_throw keeps_error keeps_lift
  keeps_read_query keeps_write_query keeps_read_list keeps_alloc_list
  keeps_list_append : keeps.

Ltac keeps_step :=
  match goal with
  | |- keeps_others _ (bind _ _) => apply keeps_bind; [|intros]
  | |- keeps_others _ (match ?x with _ => _ end) => destruct x
  | |- keeps_others _ (let _ := _ in _) => cbv zeta
  | |- keeps_others _ _ => solve [auto with keeps]
  end.

Ltac keeps_auto := repeat keeps_step.

Lemma keeps_set_raw self key v : keeps_others self (@set_raw C self key v).
Proof. unfold set_raw. keeps_auto. Qed.

Lemma keeps_get_raw self key : keeps_others self (@get_raw C self key).
Proof. unfold get_raw. keeps_auto. Qed.

Lemma keeps_set_meta self key v : keeps_others self (@set_meta C self key v).
Proof. unfold set_meta. keeps_auto. Qed.

Lemma keeps_meta_setdefault_list self key :
  keeps_others self (@meta_setdefault_list C self key).
Proof. unfold meta_setdefault_list. keeps_auto. Qed.

Lemma keeps_raw_extend self key items :
  keeps_others self (@raw_extend C self key items).
Proof. unfold raw_extend. keeps_auto. Qed.

#[local] Hint Resolve keeps_set_raw keeps_get_raw keeps_set_meta
  keeps_meta_setdefault_list keeps_raw_extend : keeps.

Lemma keeps_lookup_column self name :
  keeps_others self (lookup_column env name).
Proof. unfold lookup_column. keeps_auto. Qed.

#[local] Hint Resolve keeps_lookup_column : keeps.

Lemma keeps_sort_loop self sorts flag cols :
  forall descending, keeps_others self (sort_loop env sorts flag descending cols).
Proof.
  induction cols as [|column rest IH]; intros descending; simpl.
  - auto with keeps.
  - apply keeps_bind.
    + destruct column; keeps_auto.
    + intros step. destruct (fst step); keeps_auto.
Qed.

#[local] Hint Resolve keeps_sort_loop : keeps.

(** The body of every builder method writes to the object it is given and
    to no other query object. *)
Lemma keeps_body_of (c : call) (self : qid) :
  keeps_others self (body_of env c self).
Proof.
  destruct c; simpl;
    unfold _specify, sort_body, filter_body, precision_body, interval_body,
      range_body, step_body, limit_body, segment_body, next_body;
    keeps_auto.
Qed.

(** A builder call returns a new object and leaves the receiver as it is:
    the same parameters and the same dictionary of options. *)
Lemma builder_keeps_receiver (c : call) (w : world C) (q : qid) (o : Query) :
  queries w !! q = Some o ->
  queries (snd (apply_call env c q w)) !! q = Some o /\
  forall q', fst (apply_call env c q w) = Ok q' ->
    q' = length (queries w) /\ q' <> q.
Proof.
  intros Hq.
  assert (Hlt : (q < length (queries w))%nat) by now apply lookup_lt_Some in Hq.
  unfold apply_call, immutable, bind.
  rewrite (clone_spec env w q o Hq).
  pose proof (keeps_body_of c (length (queries w))
                (set_queries w (queries w ++
                   [{| raw := raw o; meta := meta o; lock := None |}])) q) as Hk.
  destruct (body_of env c (length (queries w)) _) as [[[]|e] w'] eqn:Hbody;
    simpl in *.
  - split.
    + rewrite Hk by lia. now apply lookup_snoc_lt.
    + intros q' [= <-]. split; [reflexivity|lia].
  - split.
    + rewrite Hk by lia. now apply lookup_snoc_lt.
    + intros q' [=].
Qed.

End Frame.

(** ** The signature and the parameters of the query *)

Section SignatureWrites.
Context {C : Type}.


Lemma build_lists (copy : bool) (w : world C) (q : qid) (o : Query)
    (ms ds : list string) :
  queries w !! q = Some o ->
  Dict.get (raw o) "metrics" = Some (VList ms) ->
  Dict.get (raw o) "dimensions" = Some (VList ds) ->
  build copy q w =
    (Ok (built_raw (raw o) ms ds),
     if copy then w
     else set_queries w (<[q:=with_raw o (built_raw (raw o) ms ds)]> (queries w))).
Proof.
  intros Hq Hms Hds.
  assert (Hlt : (q < length (queries w))%nat) by now apply lookup_lt_Some in Hq.
  unfold build, built_raw, get_raw, bind, read_query, write_query, lift, ret.
  destruct copy, ds as [|d ds'];
    repeat first
      [ rewrite Hq | rewrite Hms | rewrite Hds
      | rewrite dict_get_set_ne by discriminate
      | rewrite list_lookup_insert_eq by (rewrite ?length_insert; exact Hlt)
      | rewrite list_insert_insert_eq
      | progress cbn [queries set_queries raw with_raw Py.join Py.iter Py.len
                      negb Nat.eqb length] ];
    reflexivity.
Qed.

Lemma built_raw_differs (r : dict value) (ms ds : list string) :
  Dict.get r "metrics" = Some (VList ms) -> built_raw r ms ds <> r.
Proof.
  intros Hms Heq.
  assert (H : Dict.get (built_raw r ms ds) "metrics" = Some (VStr (Str.join "," ms))).
  { unfold built_raw. rewrite dict_get_set_ne by discriminate.
    apply dict_get_set_eq. }
  rewrite Heq, Hms in H. discriminate.
Qed.

End SignatureWrites.

(** The run of [signature] on a query whose metrics and dimensions are
    lists. *)
Lemma signature_run {C : Type} (w : world C) (q : qid) (o : Query)
    (ms ds : list string) :
  queries w !! q = Some o ->
  Dict.get (raw o) "metrics" = Some (VList ms) ->
  Dict.get (raw o) "dimensions" = Some (VList ds) ->
  signature q w =
    (Ok (signature_of (built_raw (raw o) ms ds)),
     set_queries w (<[q:=with_raw o (built_raw (raw o) ms ds)]> (queries w))).
Proof.
  intros Hq Hms Hds. unfold signature, bind.
  now rewrite (build_lists false w q o ms ds Hq Hms Hds).
Qed.

(** C1, at the signature. Reading [q.signature] builds the parameters in
    place ([build(copy=False)]): afterwards [q.raw] holds the metrics as
    one comma-joined string, and the dimensions as a string or [None],
    where it held lists before. *)
Theorem signature_changes_parameters {C : Type} (w : world C) (q : qid)
    (o : Query) (ms ds : list string) :
  queries w !! q = Some o ->
  Dict.get (raw o) "metrics" = Some (VList ms) ->
  Dict.get (raw o) "dimensions" = Some (VList ds) ->
  signature q w =
    (Ok (signature_of (built_raw (raw o) ms ds)),
     set_queries w (<[q:=with_raw o (built_raw (raw o) ms ds)]> (queries w))) /\
  queries (snd (signature q w)) !! q = Some (with_raw o (built_raw (raw o) ms ds)) /\
  built_raw (raw o) ms ds <> raw o.
Proof.
  intros Hq Hms Hds.
  assert (Hlt : (q < length (queries w))%nat) by now apply lookup_lt_Some in Hq.
  split; [now apply signature_run|]. split.
  - rewrite (signature_run w q o ms ds Hq Hms Hds). cbn.
    now apply list_lookup_insert_eq.
  - now apply built_raw_differs.
Qed.

Lemma signature_changes_parameters_witness :
  queries (snd (signature 0%nat (Fixtures.base_world None))) !! 0%nat =
    Some {| raw := [("ids", VStr "ga:1"); ("metrics", VStr "ga:pageviews");
                    ("dimensions", VNone)];
            meta := ∅; lock := None |}.
Proof.
  apply (signature_changes_parameters (Fixtures.base_world None) 0%nat
           Fixtures.base ["ga:pageviews"] []); reflexivity.
Defined.

(** Executing a cacheable query with a cache configured computes the
    signature. The parameters of the query are changed by it, and building
    the report from them then fails: the dimensions are [None]. *)
Example execute_with_cache_changes_parameters :
  let script := [Ok (Mock.page 1 false)] in
  let w := set_cache Fixtures.january_world (Some []) in
  let run := execute (Mock.env script) 0%nat w in
  fst run = Raise (raise_of TypeError "'NoneType' object is not iterable") /\
  raw <$> queries (snd run) !! 0%nat =
    Some [("ids", VStr "ga:1"); ("metrics", VStr "ga:pageviews");
          ("dimensions", VNone);
          ("start_date", VStr "2020-01-01"); ("end_date", VStr "2020-01-31")].
Proof. vm_compute. split; reflexivity. Qed.

(** Without a cache, [execute] leaves the parameters as they are. *)
Example execute_without_cache_keeps_parameters :
  let script := [Ok (Mock.page 1 false)] in
  let run := execute (Mock.env script) 0%nat Fixtures.january_world in
  is_ok (fst run) = true /\
  queries (snd run) !! 0%nat = Some (with_lock Fixtures.january 1000%Q).
Proof. vm_compute. split; reflexivity. Qed.

(** The second reading of a signature differs from the first. *)
Example signature_twice :
  let w := set_queries (fresh_world 0%Q (None : option Mock.cache_t))
             [with_raw Fixtures.base
                [("ids", VStr "ga:1"); ("metrics", VList ["ga:pageviews"]);
                 ("dimensions", VList ["ga:date"])]] in
  let run := (s1 <- signature 0%nat ;; s2 <- signature 0%nat ;;
              ret (bool_decide (s1 = s2)))%M w in
  fst run = Ok false.
Proof. vm_compute. reflexivity. Qed.

(** The lists of [meta] are shared between a query and the queries derived
    from it. [q1 = q.sort('-pageviews')] holds one entry; after
    [q1.sort('sessions')] the list that [q1.meta] refers to holds two, and
    a later [q1.sort('browser')] sorts on all three. *)
Example sort_options_are_shared :
  let E := Mock.env [] in
  let run :=
    (q1 <- sort E [ColName "-pageviews"] false 0%nat ;;
     o1 <- read_query q1 ;;
     before <- match meta o1 !! "sort" with
               | Some (MRef l) => read_list l
               | _ => ret []
               end ;;
     q2 <- sort E [ColName "sessions"] false q1 ;;
     o1' <- read_query q1 ;;
     after <- match meta o1' !! "sort" with
              | Some (MRef l) => read_list l
              | _ => ret []
              end ;;
     q3 <- sort E [ColName "browser"] false q1 ;;
     s3 <- get_raw q3 "sort" ;;
     ret (before, after, s3))%M (Fixtures.base_world None) in
  fst run =
    Ok ([VStr "-ga:pageviews"],
        [VStr "-ga:pageviews"; VStr "ga:sessions"],
        VStr "-ga:pageviews,ga:sessions,ga:browser").
Proof. vm_compute. reflexivity. Qed.

(** ** Segments *)


Section Segments.
Context {C : Type} (env : Env C).

Lemma str_truthy_Some (s : string) : s <> "" -> str_truthy (Some s) = true.
Proof.
  intros H. unfold str_truthy. now destruct (String.eqb_spec s "").
Qed.

Lemma str_truthy_false (s : option string) :
  str_truthy s = false <-> s = None \/ s = Some "".
Proof.
  destruct s as [s|]; simpl.
  - destruct (String.eqb_spec s "") as [->|Hne]; simpl.
    + split; auto.
    + split; [discriminate|]. intros [H|H]; [discriminate|congruence].
  - split; auto.
Qed.

(** With a scope and a mapped metric scope that are not empty, the
    expression joins them, the word [condition] and the condition; an empty
    condition is left out. *)
Lemma segment_expression_full (s m c : string) :
  s <> "" -> m <> "" ->
  segment_expression (Some s) (Some m) c =
    Str.join "::" (nonempty_parts [s; "condition"; m; c]).
Proof.
  intros Hs Hm. unfold segment_expression, nonempty_parts. simpl.
  destruct (String.eqb_spec s "") as [|_]; [contradiction|].
  destruct (String.eqb_spec m "") as [|_]; [contradiction|].
  destruct (String.eqb_spec c ""); reflexivity.
Qed.

(** Without a metric scope, nothing stands between [condition] and the
    condition. *)
Lemma segment_expression_no_metric_scope (s c : string) (ms : option string) :
  s <> "" -> str_truthy ms = false ->
  segment_expression (Some s) ms c =
    Str.join "::" (nonempty_parts [s; "condition"; c]).
Proof.
  intros Hs Hms. unfold segment_expression, nonempty_parts.
  apply str_truthy_false in Hms as [->| ->]; simpl;
    destruct (String.eqb_spec s "") as [|_]; try contradiction;
    destruct (String.eqb_spec c ""); reflexivity.
Qed.

End Segments.

(** C6, as the code has it. A keyword selection needs a scope that is not
    empty; the scope is used as it is given, neither checked against
    [users], [sessions] and [hits] nor mapped. It is the metric scope
    that is mapped, [hits] to [perHit], [sessions] to [perSession] and
    [users] to [perUser]; a metric scope outside these three is a
    [KeyError]. Each compiled expression joins with [::] those of scope,
    [condition], mapped metric scope and condition that are not empty. *)
Theorem segment_selection_compiles {C : Type} (env : Env C)
    (scope metric_scope : option string) (selection : list (string * selarg))
    (conditions : list string) :
  select env selection = Ok conditions ->
  SCOPES = [("hits", "perHit"); ("sessions", "perSession"); ("users", "perUser")] /\
  (str_truthy scope = false ->
   segment_selection env scope metric_scope selection =
     Raise (raise_of ValueError "Scope is required. Choose from: users, sessions.")) /\
  (forall s, scope = Some s -> s <> "" ->
     (str_truthy metric_scope = false ->
      segment_selection env scope metric_scope selection =
        Ok (map (fun c => Str.join "::" (nonempty_parts [s; "condition"; c]))
              conditions)) /\
     (forall m m', metric_scope = Some m -> m <> "" ->
        Dict.get SCOPES m = Some m' ->
        segment_selection env scope metric_scope selection =
          Ok (map (fun c => Str.join "::" (nonempty_parts [s; "condition"; m'; c]))
                conditions)) /\
     (forall m, metric_scope = Some m -> m <> "" ->
        Dict.get SCOPES m = None ->
        segment_selection env scope metric_scope selection =
          Raise (raise_of KeyError m))).
Proof.
  intros Hsel. split; [reflexivity|]. split.
  - intros Hscope. unfold segment_selection. now rewrite Hscope.
  - intros s -> Hs. unfold segment_selection.
    rewrite (str_truthy_Some s Hs). cbn [negb].
    split; [|split].
    + intros Hms. rewrite Hms, Hsel. f_equal.
      apply map_ext. intros c.
      now apply segment_expression_no_metric_scope.
    + intros m m' -> Hm Hget.
      rewrite (str_truthy_Some m Hm). change (default "" (Some m)) with m. rewrite Hget, Hsel. f_equal.
      apply map_ext. intros c.
      apply segment_expression_full; [exact Hs|].
      intros ->. unfold SCOPES in Hget. simpl in Hget.
      repeat match type of Hget with
             | (if ?b then _ else _) = _ => destruct b
             end; discriminate.
    + intros m -> Hm Hget.
      rewrite (str_truthy_Some m Hm). change (default "" (Some m)) with m. now rewrite Hget.
Qed.

Lemma segment_selection_compiles_witness :
  segment_selection (Mock.env []) (Some "sessions") (Some "hits")
    [("browser", Many [VStr "Chrome"; VStr "Firefox"])] =
  Ok ["sessions::condition::perHit::ga:browser==Chrome";
      "sessions::condition::perHit::ga:browser==Firefox"].
Proof.
  destruct (segment_selection_compiles (Mock.env []) (Some "sessions") (Some "hits")
              [("browser", Many [VStr "Chrome"; VStr "Firefox"])]
              ["ga:browser==Chrome"; "ga:browser==Firefox"] eq_refl)
    as (_ & _ & Hscope).
  destruct (Hscope "sessions" eq_refl ltac:(discriminate)) as (_ & Hmapped & _).
  exact (Hmapped "hits" "perHit" eq_refl ltac:(discriminate) eq_refl).
Defined.

(** C6 as the spec words it fails: the scope [users] stays [users] in the
    compiled expression and is not turned into [perUser], and a scope
    outside the three names is accepted. *)
Lemma segment_scope_is_not_mapped :
  segment_selection (Mock.env []) (Some "users") None
    [("sessions__gt", One (VInt 10))] =
    Ok ["users::condition::ga:sessions>10"] /\
  segment_selection (Mock.env []) (Some "users") None
    [("sessions__gt", One (VInt 10))] <>
    Ok ["perUser::condition::ga:sessions>10"] /\
  segment_selection (Mock.env []) (Some "visitors") None
    [("sessions__gt", One (VInt 10))] =
    Ok ["visitors::condition::ga:sessions>10"].
Proof. repeat split; try reflexivity. discriminate. Qed.

(** The call itself appends the compiled group to the list of segments. *)
Example segment_appends_group :
  let run :=
    (q1 <- segment (Mock.env []) VNone (Some "users") None
             [("sessions__gt", One (VInt 10))] 0%nat ;;
     q2 <- segment (Mock.env []) VNone (Some "sessions") (Some "hits")
             [("browser", Many [VStr "Chrome"; VStr "Firefox"])] q1 ;;
     get_raw q2 "segment")%M (Fixtures.base_world None) in
  fst run =
    Ok (VStr ("users::condition::ga:sessions>10;"
              +:+ "sessions::condition::perHit::ga:browser==Chrome,"
              +:+ "sessions::condition::perHit::ga:browser==Firefox")).
Proof. vm_compute. reflexivity. Qed.

(** ** Errors of an execution *)

Section ExecuteErrors.
Context {C : Type} (env : Env C).

(** The dump of the parameters has one row for each parameter, with its
    value. *)
Lemma parameter_rows_values (r : dict value) :
  map snd (parameter_rows r) = map snd r.
Proof. unfold parameter_rows. rewrite map_map. now apply map_ext. Qed.





End ExecuteErrors.





(** An error raised after the response has arrived is outside the [try]
    and is not translated: here the caster refuses a value. *)
Example error_outside_try :
  let bad := {| columnHeaders := ["ga:pageviews"];
                rows := Some [["many"]];
                totalsForAllResults := [("ga:pageviews", "0")];
                nextLink := None |} in
  fst (execute (Mock.env [Ok bad]) 0%nat (Fixtures.base_world None)) =
    Raise (raise_of ValueError "invalid literal for int()").
Proof. vm_compute. reflexivity. Qed.

(** ** Pagination *)

Section Pages.
Context {C : Type} (env : Env C).

Lemma res_mapM_length {A B} (f : A -> res B) (l : list A) (l' : list B) :
  res_mapM f l = Ok l' -> length l' = length l.
Proof.
  revert l'. induction l as [|a l IH]; intros l' H; simpl in H.
  - now injection H as <-.
  - destruct (f a) as [b|e]; [|discriminate].
    destruct (res_mapM f l) as [bs|e]; [|discriminate].
    injection H as <-. simpl. now rewrite (IH bs).
Qed.




Lemma Report_append_run (w : world C) (r : Report) (p : response)
    (c : qid) (oc : Query) (ms ds : list string) :
  queries w !! c = Some oc ->
  Dict.get (raw oc) "metrics" = Some (VList ms) ->
  Dict.get (raw oc) "dimensions" = Some (VList ds) ->
  page_ok env (rp_headers r) p ->
  exists report,
    Report_append env r p c w = (Ok report, w) /\
    length (rp_rows report) = (length (rp_rows r) + page_rows p)%nat /\
    rp_headers report = rp_headers r /\
    rp_raw report = rp_raw r ++ [p] /\
    rp_queries report = rp_queries r ++ [c] /\
    rp_is_complete report = negb (bool_decide (is_Some (nextLink p))).
Proof.
  intros Hc Hms Hds [Hcast Htot].
  unfold Report_append, bind, read_query, lift, ret, error, throw.
  rewrite Hc, Hms. cbn [Py.iter].
  unfold Dict.get_default. rewrite Hds. cbn [Py.iter].
  destruct (res_mapM (cast_row env (rp_headers r)) (default [] (rows p)))
    as [typed|e] eqn:Htyped; [|discriminate].
  destruct (totalsForAllResults p) as [|[k v] rest] eqn:Htotals; [contradiction|].
  eexists. split; [reflexivity|]. cbn.
  rewrite length_app, (res_mapM_length _ _ _ Htyped). auto.
Qed.

Lemma Report_init_run (w : world C) (p : response) (headers : list Column)
    (c : qid) (oc : Query) (ms ds : list string) :
  queries w !! c = Some oc ->
  Dict.get (raw oc) "metrics" = Some (VList ms) ->
  Dict.get (raw oc) "dimensions" = Some (VList ds) ->
  headers_ok env (columnHeaders p) headers ->
  page_ok env headers p ->
  exists report,
    Report_init env p c w = (Ok report, w) /\
    length (rp_rows report) = page_rows p /\
    rp_headers report = headers /\
    rp_raw report = [p] /\
    rp_queries report = [c] /\
    rp_is_complete report = negb (bool_decide (is_Some (nextLink p))).
Proof.
  intros Hc Hms Hds [Hnames Hslugs] Hpage.
  unfold Report_init, bind at 1, lift at 1. rewrite Hnames.
  rewrite bool_decide_eq_true_2 by exact Hslugs. cbn [negb].
  edestruct (Report_append_run w
               {| rp_raw := []; rp_queries := [];
                  rp_slugs := map col_pyslug headers;
                  rp_names := map col_name headers;
                  rp_headers := headers;
                  rp_metrics := ∅; rp_dimensions := ∅; rp_rows := [];
                  rp_is_complete := false; rp_totals := []; rp_total := "" |}
               p c oc ms ds Hc Hms Hds Hpage)
    as (report & Hrun & Hlen & Hh & Hraw & Hqs & Hcomplete).
  exists report. split; [exact Hrun|]. auto.
Qed.


(** An execution without a cache whose outbound call is answered by a page
    that the report can take in. *)
Lemma execute_uncached_ok (w : world C) (c : qid) (oc : Query)
    (ms ds : list string) (p : response) (headers : list Column) :
  queries w !! c = Some oc ->
  Dict.get (raw oc) "metrics" = Some (VList ms) ->
  Dict.get (raw oc) "dimensions" = Some (VList ds) ->
  cache w = None ->
  endpoint env (length (calls w)) (built_raw (raw oc) ms ds) = Ok p ->
  headers_ok env (columnHeaders p) headers ->
  page_ok env headers p ->
  exists report,
    execute env c w =
      (Ok report, after_call w c oc (built_raw (raw oc) ms ds)) /\
    length (rp_rows report) = page_rows p /\
    rp_headers report = headers /\
    rp_raw report = [p] /\
    rp_is_complete report = negb (bool_decide (is_Some (nextLink p))).
Proof.
  intros Hc Hms Hds Hcache Hcall Hheaders Hpage.
  assert (Hlt : (c < length (queries w))%nat) by now apply lookup_lt_Some in Hc.
  set (w' := after_call w c oc (built_raw (raw oc) ms ds)).
  assert (Hc' : queries w' !! c = Some (with_lock oc (now w'))).
  { unfold w', after_call. cbn. now apply list_lookup_insert_eq. }
  destruct (Report_init_run w' p headers c _ ms ds Hc' Hms Hds Hheaders Hpage)
    as (report & Hrun & Hlen & Hh & Hraw & _ & Hcomplete).
  exists report. split; [|auto].
  unfold execute, bind at 1.
  rewrite (build_lists true w c oc ms ds Hc Hms Hds).
  unfold bind at 1, get_cache at 1. rewrite Hcache.
  unfold bind at 1, ret at 1.
  unfold bind at 1, try_except, bind at 1.
  rewrite (_wait_run w c oc Hc). cbv zeta.
  unfold call_endpoint. cbn [calls set_queries set_now]. rewrite Hcall.
  unfold bind at 1, get_cache at 1. cbn [cache set_calls set_queries set_now].
  rewrite Hcache. unfold bind at 1, ret at 1.
  exact Hrun.
Qed.


(** [next] returns a clone whose [start_index] is the start index of the
    receiver, [1] when it has none, plus its [max_results], [1000] when it
    has none. *)
Lemma next_run (w : world C) (c : qid) (oc : Query) (start size : Z) :
  queries w !! c = Some oc ->
  int_param (raw oc) "start_index" 1 = Some start ->
  int_param (raw oc) "max_results" 1000 = Some size ->
  next env c w =
    (Ok (length (queries w)),
     set_queries w
       (queries w ++
          [{| raw := Dict.set (raw oc) "start_index" (VInt (start + size));
              meta := meta oc; lock := None |}])).
Proof.
  intros Hc Hstart Hsize.
  unfold next, immutable, bind at 1. rewrite (clone_spec env w c oc Hc).
  unfold bind at 1, next_body, bind at 1, read_query at 1.
  cbn [queries set_queries]. rewrite lookup_snoc. cbn [raw].
  assert (Hadd : Py.add (Dict.get_default (raw oc) "start_index" (VInt 1))
                   (Dict.get_default (raw oc) "max_results" (VInt 1000))
                 = Ok (VInt (start + size))).
  { unfold int_param in Hstart, Hsize. unfold Dict.get_default.
    destruct (Dict.get (raw oc) "start_index") as [[]|];
      destruct (Dict.get (raw oc) "max_results") as [[]|];
      try discriminate; injection Hstart as <-; injection Hsize as <-; reflexivity. }
  unfold bind at 1, lift at 1. rewrite Hadd.
  unfold set_raw, bind, read_query, write_query, ret.
  cbn [queries set_queries]. rewrite lookup_snoc.
  cbn [queries set_queries with_raw raw meta lock]. now rewrite insert_snoc.
Qed.

End Pages.



Section Loop.
Context {C : Type} (env : Env C).
Context (self : qid) (r0 : dict value) (ms ds : list string) (start size : Z).
Context (limit : option Z) (names : list string) (headers : list Column).
Context (n0 : nat) (sent0 : list (dict value)).

Hypothesis r0_metrics : Dict.get r0 "metrics" = Some (VList ms).
Hypothesis r0_dimensions : Dict.get r0 "dimensions" = Some (VList ds).
Hypothesis r0_start : int_param r0 "start_index" 1 = Some start.
Hypothesis r0_size : int_param r0 "max_results" 1000 = Some size.
Hypothesis names_ok : headers_ok env names headers.

Local Abbreviation wire := (page_wire r0 ms ds start size).
Local Abbreviation loop_inv :=
  (loop_state self r0 ms ds start size limit headers n0 sent0).


Lemma cursor_raw_metrics i :
  Dict.get (cursor_raw r0 start size i) "metrics" = Some (VList ms).
Proof.
  destruct i; simpl; [exact r0_metrics|].
  now rewrite dict_get_set_ne by discriminate.
Qed.

Lemma cursor_raw_dimensions i :
  Dict.get (cursor_raw r0 start size i) "dimensions" = Some (VList ds).
Proof.
  destruct i; simpl; [exact r0_dimensions|].
  now rewrite dict_get_set_ne by discriminate.
Qed.

Lemma cursor_raw_start i :
  int_param (cursor_raw r0 start size i) "start_index" 1 =
    Some (start + Z.of_nat i * size).
Proof.
  destruct i.
  - simpl cursor_raw. rewrite r0_start. f_equal. lia.
  - unfold cursor_raw, int_param. now rewrite dict_get_set_eq.
Qed.

Lemma cursor_raw_size i :
  int_param (cursor_raw r0 start size i) "max_results" 1000 = Some size.
Proof.
  destruct i; simpl; [exact r0_size|].
  unfold int_param. rewrite dict_get_set_ne by discriminate. exact r0_size.
Qed.

Lemma cursor_raw_next i :
  Dict.set (cursor_raw r0 start size i) "start_index"
    (VInt (start + Z.of_nat i * size + size)) = cursor_raw r0 start size (S i).
Proof.
  replace (start + Z.of_nat i * size + size) with (start + Z.of_nat (S i) * size) by lia.
  destruct i; [reflexivity|]. unfold cursor_raw. now rewrite dict_set_set.
Qed.


Lemma is_enough_limit (n : nat) :
  is_enough n ((fun z => MVal (VInt z)) <$> limit) =
    Ok (match limit with Some z => z <=? Z.of_nat n | None => false end).
Proof. now destruct limit. Qed.



End Loop.



(** A report is tested for truth through its length: while it has no row,
    the next chunk takes its place instead of being appended to it. The
    rows are those of all pages all the same, and so is the count of
    calls; the pages kept in [raw] are those from the first page with rows
    on. *)
Example empty_first_page :
  let script := [Ok (Mock.page 0 true); Ok (Mock.page 3 false)] in
  let run := get (Mock.env script) 2 0%nat (Fixtures.base_world None) in
  match fst run with
  | Ok (Some report) =>
      length (rp_rows report) = 3%nat /\ length (rp_raw report) = 1%nat
  | _ => False
  end /\
  length (calls (snd run)) = 2%nat.
Proof. vm_compute. repeat split; reflexivity. Qed.

(** ** The signature *)

(** *** Sorting the items by key gives one list for one dictionary *)

Section SortedItems.
Context {V : Type}.
Implicit Types (kv : string * V) (l : list (string * V)).


Lemma ltb_le (s1 s2 : string) : String.ltb s1 s2 = true -> String.le s1 s2.
Proof.
  unfold String.ltb, String.le, String.leb.
  now destruct (String.compare s1 s2).
Qed.

Lemma not_ltb_le (s1 s2 : string) : String.ltb s1 s2 = false -> String.le s2 s1.
Proof.
  unfold String.ltb, String.le, String.leb.
  rewrite (String.compare_antisym s1 s2).
  now destruct (String.compare s2 s1).
Qed.

Lemma insert_Permutation kv l : Items.insert kv l ≡ₚ kv :: l.
Proof.
  induction l as [|kv' l IH]; simpl; [reflexivity|].
  destruct (String.ltb (fst kv) (fst kv')); [reflexivity|].
  rewrite IH. apply Permutation_swap.
Qed.

Lemma insert_StronglySorted kv l :
  StronglySorted key_le l -> StronglySorted key_le (Items.insert kv l).
Proof.
  induction l as [|kv' l IH]; intros Hl; simpl.
  - repeat constructor.
  - apply StronglySorted_inv in Hl as [Hl Hall].
    destruct (String.ltb (fst kv) (fst kv')) eqn:Hlt.
    + constructor; [now constructor|].
      apply ltb_le in Hlt. constructor; [exact Hlt|].
      eapply Forall_impl; [exact Hall|].
      intros x Hx. unfold key_le in *. now transitivity (fst kv').
    + constructor; [now apply IH|].
      rewrite insert_Permutation. constructor; [|exact Hall].
      now apply not_ltb_le.
Qed.

Lemma by_key_fold l : forall acc,
  StronglySorted key_le acc ->
  StronglySorted key_le (fold_left (fun acc kv => Items.insert kv acc) l acc) /\
  fold_left (fun acc kv => Items.insert kv acc) l acc ≡ₚ l ++ acc.
Proof.
  induction l as [|kv l IH]; intros acc Hacc; simpl.
  - split; [exact Hacc|reflexivity].
  - destruct (IH (Items.insert kv acc) (insert_StronglySorted kv acc Hacc))
      as [Hs Hp].
    split; [exact Hs|]. rewrite Hp, insert_Permutation.
    now rewrite Permutation_middle.
Qed.

Lemma by_key_StronglySorted l : StronglySorted key_le (Items.by_key l).
Proof. apply by_key_fold. constructor. Qed.

Lemma by_key_Permutation l : Items.by_key l ≡ₚ l.
Proof.
  unfold Items.by_key.
  destruct (by_key_fold l [] (SSorted_nil _)) as [_ H].
  now rewrite H, app_nil_r.
Qed.

(** Two dictionaries with the same items, in whatever order they were
    inserted, sort to the same list. *)
Lemma by_key_canonical l1 l2 :
  NoDup (Dict.keys l1) -> l1 ≡ₚ l2 -> Items.by_key l1 = Items.by_key l2.
Proof.
  intros Hnd Hperm.
  apply (StronglySorted_unique_strong key_le);
    [|apply by_key_StronglySorted..|].
  - intros x1 x2 Hx1 Hx2 H12 H21.
    assert (Hk : fst x1 = fst x2).
    { unfold key_le in *. now apply (anti_symm String.le). }
    rewrite by_key_Permutation in Hx1.
    rewrite by_key_Permutation, <- Hperm in Hx2.
    unfold Dict.keys in Hnd.
    apply list_elem_of_lookup in Hx1 as [i Hi].
    apply list_elem_of_lookup in Hx2 as [j Hj].
    assert (i = j).
    { eapply NoDup_lookup; [exact Hnd| |].
      - rewrite list_lookup_fmap, Hi. reflexivity.
      - rewrite list_lookup_fmap, Hj. simpl. now rewrite Hk. }
    subst j. congruence.
  - now rewrite !by_key_Permutation.
Qed.

End SortedItems.

(** *** The serialisation determines the items *)

Section JsonInjective.

Lemma append_nil (s : string) : "" +:+ s = s.
Proof. reflexivity. Qed.

Lemma append_cons (c : ascii) (s r : string) :
  String c s +:+ r = String c (s +:+ r).
Proof. reflexivity. Qed.

Lemma append_assoc (a b c : string) : (a +:+ b) +:+ c = a +:+ (b +:+ c).
Proof.
  induction a as [|x a IH]; [reflexivity|].
  rewrite !append_cons. now rewrite IH.
Qed.

Ltac push_append H := rewrite ?append_cons, ?append_nil in H.



Lemma unescape_escape_char (c : ascii) (r : string) :
  unescape_char (Json.escape_char c +:+ r) = Some (c, r).
Proof.
  destruct c as [[] [] [] [] [] [] [] []]; reflexivity.
Qed.

Lemma escape_delimited (s1 : string) : forall s2 r1 r2,
  Json.escape s1 +:+ String Json.dquote r1 = Json.escape s2 +:+ String Json.dquote r2 ->
  s1 = s2 /\ r1 = r2.
Proof.
  induction s1 as [|c1 s1 IH]; intros [|c2 s2] r1 r2 H;
    cbn [Json.escape] in H; push_append H.
  - injection H as ->. auto.
  - rewrite append_assoc in H. apply (f_equal unescape_char) in H.
    rewrite unescape_escape_char in H. discriminate.
  - rewrite append_assoc in H. apply (f_equal unescape_char) in H.
    rewrite unescape_escape_char in H. discriminate.
  - rewrite !append_assoc in H. apply (f_equal unescape_char) in H.
    rewrite !unescape_escape_char in H. injection H as -> H.
    apply IH in H as [-> ->]. auto.
Qed.


Lemma of_string_prefix_free : prefix_free Json.of_string.
Proof.
  intros s1 s2 r1 r2 H. unfold Json.of_string in H. push_append H.
  injection H as H. rewrite !append_assoc in H. push_append H.
  now apply escape_delimited in H.
Qed.



Lemma join_more {A} (e : A -> string) (l : list A) : forall a,
  Str.join ", " (map e (a :: l)) +:+ "]" = e a +:+ more e l.
Proof.
  induction l as [|b l IH]; intros a.
  - reflexivity.
  - change (Str.join ", " (map e (a :: b :: l)))
      with (e a +:+ ", " +:+ Str.join ", " (map e (b :: l))).
    rewrite !append_assoc, IH. reflexivity.
Qed.

Lemma array_array_of {A} (e : A -> string) (l : list A) :
  Json.array (map e l) = array_of e l.
Proof.
  unfold Json.array. destruct l as [|a l]; [reflexivity|].
  simpl array_of. now rewrite join_more.
Qed.

Lemma more_prefix_free {A} (e : A -> string) :
  prefix_free e -> prefix_free (more e).
Proof.
  intros He l1. induction l1 as [|a l1 IH]; intros [|b l2] r1 r2 H;
    cbn [more] in H; push_append H.
  - injection H as ->. auto.
  - discriminate.
  - discriminate.
  - injection H as H. rewrite !append_assoc in H.
    apply He in H as [-> H]. apply IH in H as [-> ->]. auto.
Qed.


Lemma head_char_append (s r : string) (c : ascii) :
  head_char s = Some c -> head_char (s +:+ r) = Some c.
Proof. destruct s; [discriminate|]. rewrite append_cons. auto. Qed.

Lemma array_of_prefix_free {A} (e : A -> string) :
  prefix_free e ->
  (forall a, exists c, head_char (e a) = Some c /\ c <> "]"%char) ->
  prefix_free (array_of e).
Proof.
  intros He Hhead [|a l1] [|b l2] r1 r2 H;
    cbn [array_of] in H; push_append H.
  - injection H as ->. auto.
  - injection H as H. destruct (Hhead b) as (c & Hc & Hne).
    apply (head_char_append _ (more e l2 +:+ r2)) in Hc.
    rewrite <- append_assoc, <- H in Hc. simpl in Hc. congruence.
  - injection H as H. destruct (Hhead a) as (c & Hc & Hne).
    apply (head_char_append _ (more e l1 +:+ r1)) in Hc.
    rewrite <- append_assoc, H in Hc. simpl in Hc. congruence.
  - injection H as H. rewrite !append_assoc in H.
    apply He in H as [-> H].
    apply (more_prefix_free e He) in H as [-> ->]. auto.
Qed.

(** Decimal digits followed by a closing bracket. *)
Lemma uint_delimited (d1 : Decimal.uint) : forall d2 r1 r2,
  NilEmpty.string_of_uint d1 +:+ String "]" r1 =
    NilEmpty.string_of_uint d2 +:+ String "]" r2 ->
  d1 = d2 /\ r1 = r2.
Proof.
  induction d1 as [|d1 IH|d1 IH|d1 IH|d1 IH|d1 IH|d1 IH|d1 IH|d1 IH|d1 IH|d1 IH];
    intros [|d2|d2|d2|d2|d2|d2|d2|d2|d2|d2] r1 r2 H;
    cbn [NilEmpty.string_of_uint] in H; push_append H;
    try discriminate H; injection H as H;
    try (apply IH in H as [-> ->]); subst; auto.
Qed.


Lemma uint_head (d : Decimal.uint) :
  d <> Decimal.Nil ->
  exists c, head_char (NilEmpty.string_of_uint d) = Some c /\ is_digit c = true.
Proof. destruct d; intros H; [contradiction|..]; eexists; split; reflexivity. Qed.

Lemma to_int_digits (z : Z) :
  exists d, d <> Decimal.Nil /\
    (Z.to_int z = Decimal.Pos d \/ Z.to_int z = Decimal.Neg d).
Proof.
  destruct z as [|p|p]; simpl.
  - exists (Decimal.D0 Decimal.Nil). split; [discriminate|auto].
  - exists (Pos.to_uint p). split; [apply DecimalPos.Unsigned.to_uint_nonnil|auto].
  - exists (Pos.to_uint p). split; [apply DecimalPos.Unsigned.to_uint_nonnil|auto].
Qed.

Lemma nilzero_nonnil (d : Decimal.uint) :
  d <> Decimal.Nil -> NilZero.string_of_uint d = NilEmpty.string_of_uint d.
Proof. now destruct d. Qed.

(** The first character of a number is a digit or the minus sign. *)
Lemma of_Z_head (z : Z) :
  exists c, head_char (Str.of_Z z) = Some c /\
    (is_digit c = true \/ c = "-"%char).
Proof.
  unfold Str.of_Z. destruct (to_int_digits z) as (d & Hd & [-> | ->]);
    unfold NilZero.string_of_int.
  - rewrite (nilzero_nonnil d Hd).
    destruct (uint_head d Hd) as (c & Hc & Hdigit). eauto.
  - eexists. split; [reflexivity|auto].
Qed.

Lemma of_Z_delimited (z1 z2 : Z) (r1 r2 : string) :
  Str.of_Z z1 +:+ String "]" r1 = Str.of_Z z2 +:+ String "]" r2 ->
  z1 = z2 /\ r1 = r2.
Proof.
  unfold Str.of_Z. intros H.
  destruct (to_int_digits z1) as (d1 & Hd1 & Hz1).
  destruct (to_int_digits z2) as (d2 & Hd2 & Hz2).
  assert (Hneg : forall d r, d <> Decimal.Nil ->
            head_char (NilEmpty.string_of_uint d +:+ r) <> Some "-"%char).
  { intros d r Hd. destruct (uint_head d Hd) as (c & Hc & Hdigit).
    rewrite (head_char_append _ r c Hc). intros [= ->]. discriminate. }
  destruct Hz1 as [Hz1|Hz1], Hz2 as [Hz2|Hz2]; rewrite Hz1, Hz2 in H;
    unfold NilZero.string_of_int in H;
    rewrite ?(nilzero_nonnil d1 Hd1), ?(nilzero_nonnil d2 Hd2) in H;
    push_append H.
  - apply uint_delimited in H as [-> ->].
    split; [|reflexivity]. apply DecimalZ.to_int_inj. congruence.
  - exfalso. apply (Hneg d1 (String "]" r1) Hd1). now rewrite H.
  - exfalso. apply (Hneg d2 (String "]" r2) Hd2). now rewrite <- H.
  - injection H as H. apply uint_delimited in H as [-> ->].
    split; [|reflexivity]. apply DecimalZ.to_int_inj. congruence.
Qed.

Lemma of_string_head (s : string) :
  head_char (Json.of_string s) = Some Json.dquote.
Proof. reflexivity. Qed.

Lemma strings_array_prefix_free : prefix_free (array_of Json.of_string).
Proof.
  apply array_of_prefix_free; [exact of_string_prefix_free|].
  intros s. exists Json.dquote. split; [reflexivity|discriminate].
Qed.

(** A value followed by a closing bracket. *)
Lemma of_value_delimited (v1 v2 : value) (r1 r2 : string) :
  Json.of_value v1 +:+ String "]" r1 = Json.of_value v2 +:+ String "]" r2 ->
  v1 = v2 /\ r1 = r2.
Proof.
  intros H.
  assert (Hnum : forall z r (c : ascii),
            is_digit c = false -> c <> "-"%char ->
            head_char (Str.of_Z z +:+ r) <> Some c).
  { intros z r c Hc Hm. destruct (of_Z_head z) as (x & Hx & Hcases).
    rewrite (head_char_append _ r x Hx). intros [= ->].
    destruct Hcases; congruence. }
  destruct v1 as [|z1|s1|l1], v2 as [|z2|s2|l2]; cbn [Json.of_value] in H;
    rewrite ?array_array_of in H.
  - push_append H. injection H as ->. auto.
  - exfalso. apply (Hnum z2 (String "]" r2) "n"%char); [reflexivity|discriminate|].
    now rewrite <- H.
  - discriminate.
  - destruct l2; discriminate.
  - exfalso. apply (Hnum z1 (String "]" r1) "n"%char); [reflexivity|discriminate|].
    now rewrite H.
  - apply of_Z_delimited in H as [-> ->]. auto.
  - exfalso. apply (Hnum z1 (String "]" r1) Json.dquote); [reflexivity|discriminate|].
    now rewrite H.
  - exfalso. apply (Hnum z1 (String "]" r1) "["%char); [reflexivity|discriminate|].
    rewrite H. now destruct l2.
  - discriminate.
  - exfalso. apply (Hnum z2 (String "]" r2) Json.dquote); [reflexivity|discriminate|].
    now rewrite <- H.
  - apply of_string_prefix_free in H as [-> [= ->]]. auto.
  - destruct l2; discriminate.
  - destruct l1; discriminate.
  - exfalso. apply (Hnum z2 (String "]" r2) "["%char); [reflexivity|discriminate|].
    rewrite <- H. now destruct l1.
  - destruct l1; discriminate.
  - apply strings_array_prefix_free in H as [-> [= ->]]. auto.
Qed.

(** The item of one parameter, [[key, value]]. *)
Lemma of_item_prefix_free : prefix_free Json.of_item.
Proof.
  intros [k1 v1] [k2 v2] r1 r2 H.
  unfold Json.of_item, Json.array in H. cbn [fst snd Str.join] in H.
  push_append H. injection H as H. rewrite !append_assoc in H. push_append H.
  apply escape_delimited in H as [-> H].
  injection H as H. rewrite ?append_assoc in H. push_append H.
  apply of_value_delimited in H as [-> ->]. auto.
Qed.

(** Two lists of items with the same serialisation are the same list. *)
Lemma dumps_inj (l1 l2 : list (string * value)) :
  Json.dumps l1 = Json.dumps l2 -> l1 = l2.
Proof.
  unfold Json.dumps. rewrite !array_array_of. intros H.
  assert (H' : array_of Json.of_item l1 +:+ "" = array_of Json.of_item l2 +:+ "")
    by now rewrite H.
  apply array_of_prefix_free in H' as [-> _]; [reflexivity|exact of_item_prefix_free|].
  intros [k v]. exists "["%char. split; [reflexivity|discriminate].
Qed.

End JsonInjective.

(** *** A digest has 160 bits *)

Section Sha1Bound.
Local Open Scope N_scope.


Lemma add32_lt (a b : N) : Sha1.add32 a b < Sha1.w32.
Proof. unfold Sha1.add32. apply N.mod_lt. discriminate. Qed.

Lemma compress_bounded (h : Sha1.state) (block : list N) :
  bounded (Sha1.compress h block).
Proof.
  unfold Sha1.compress.
  destruct (fold_left Sha1.round _ h) as [[[[a b] c] d] e].
  destruct h as [[[[h0 h1] h2] h3] h4].
  unfold bounded. repeat split; apply add32_lt.
Qed.

Lemma fold_left_invariant {A B : Type} (f : A -> B -> A) (P : A -> Prop) :
  (forall a b, P (f a b)) -> forall l a, P a -> P (fold_left f l a).
Proof.
  intros Hf l. induction l as [|b l IH]; intros a Ha; [exact Ha|].
  apply IH, Hf.
Qed.

Lemma digest_lt (s : string) : Sha1.digest s < 2 ^ 160.
Proof.
  unfold Sha1.digest, Sha1.digest_state.
  assert (H : bounded (fold_left Sha1.compress
                         (Sha1.chunks (length (Sha1.pad (Sha1.bytes_of s))) 64
                            (Sha1.pad (Sha1.bytes_of s))) Sha1.init)).
  { apply (fold_left_invariant Sha1.compress bounded compress_bounded).
    unfold bounded, Sha1.init, Sha1.w32. repeat split; reflexivity. }
  destruct (fold_left Sha1.compress _ Sha1.init) as [[[[h0 h1] h2] h3] h4].
  unfold bounded, Sha1.w32 in H. destruct H as (H0 & H1 & H2 & H3 & H4).
  change (2 ^ 32) with 4294967296 in *.
  change (2 ^ 64) with 18446744073709551616.
  change (2 ^ 96) with 79228162514264337593543950336.
  change (2 ^ 128) with 340282366920938463463374607431768211456.
  change (2 ^ 160) with 1461501637330902918203684832716283019655932542976.
  lia.
Qed.

(** Among [M + 1] numbers below [M], two are equal. *)
Lemma pigeonhole (M : N) : forall f : N -> N,
  (forall n, n <= M -> f n < M) ->
  exists i j, i < j /\ j <= M /\ f i = f j.
Proof.
  induction M as [|M IH] using N.peano_ind; intros f Hf.
  - specialize (Hf 0 (N.le_refl 0)). lia.
  - set (v := f (N.succ M)).
    assert (Hsearch : forall K, K <= M ->
              (exists i, i <= K /\ f i = v) \/ (forall i, i <= K -> f i <> v)).
    { induction K as [|K IHK] using N.peano_ind; intros HK.
      - destruct (N.eq_dec (f 0) v) as [E|E].
        + left. exists 0. split; [lia|exact E].
        + right. intros i Hi. assert (i = 0) as -> by lia. exact E.
      - destruct IHK as [(i & Hi & E)|Hnone]; [lia| |].
        + left. exists i. split; [lia|exact E].
        + destruct (N.eq_dec (f (N.succ K)) v) as [E|E].
          * left. exists (N.succ K). split; [lia|exact E].
          * right. intros i Hi.
            destruct (N.eq_dec i (N.succ K)) as [->|Hne]; [exact E|].
            apply Hnone. lia. }
    destruct (Hsearch M (N.le_refl M)) as [(i & Hi & E)|Hnone].
    + exists i, (N.succ M). repeat split; [lia|lia|exact E].
    + set (g := fun n => if f n <? v then f n else f n - 1).
      assert (Hv : v < N.succ M) by (apply Hf; lia).
      destruct (IH g) as (i & j & Hij & Hj & E).
      { intros n Hn. unfold g.
        assert (Hn1 : f n < N.succ M) by (apply Hf; lia).
        assert (Hn2 : f n <> v) by now apply Hnone.
        destruct (N.ltb_spec (f n) v); lia. }
      exists i, j. repeat split; [exact Hij|lia|].
      unfold g in E.
      assert (Hi2 : f i <> v) by (apply Hnone; lia).
      assert (Hj2 : f j <> v) by (apply Hnone; lia).
      destruct (N.ltb_spec (f i) v), (N.ltb_spec (f j) v); lia.
Qed.

End Sha1Bound.

(** *** The signature of the parameters *)

Section SignatureFacts.

Lemma dict_get_elem_of {V : Type} (d : dict V) (k : string) (v : V) :
  NoDup (Dict.keys d) -> (Dict.get d k = Some v <-> (k, v) ∈ d).
Proof.
  unfold Dict.keys. induction d as [|[k' v'] d IH]; simpl; intros Hnd.
  - split; [discriminate|]. intros H. now apply not_elem_of_nil in H.
  - apply NoDup_cons in Hnd as [Hk' Hnd]. rewrite elem_of_cons.
    destruct (String.eqb_spec k k') as [->|Hne].
    + split.
      * intros [= ->]. now left.
      * intros [[= ->]|Hin]; [reflexivity|].
        exfalso. apply Hk'. apply list_elem_of_fmap. now exists (k', v).
    + rewrite (IH Hnd). split; [now right|].
      intros [[= -> ->]|Hin]; [contradiction|exact Hin].
Qed.

(** Dictionaries with the same items answer every lookup alike. *)
Lemma dict_get_Permutation {V : Type} (d1 d2 : dict V) (k : string) :
  NoDup (Dict.keys d1) -> d1 ≡ₚ d2 -> Dict.get d1 k = Dict.get d2 k.
Proof.
  intros Hnd Hperm.
  assert (Hnd2 : NoDup (Dict.keys d2)).
  { unfold Dict.keys in *. now rewrite <- Hperm. }
  destruct (Dict.get d1 k) as [v|] eqn:H1.
  - symmetry. apply dict_get_elem_of; [exact Hnd2|].
    rewrite <- Hperm. now apply dict_get_elem_of.
  - destruct (Dict.get d2 k) as [v|] eqn:H2; [|reflexivity].
    apply dict_get_elem_of in H2; [|exact Hnd2].
    rewrite <- Hperm in H2. apply dict_get_elem_of in H2; [|exact Hnd].
    congruence.
Qed.


Lemma canonical_inj (d1 d2 : dict value) :
  canonical d1 = canonical d2 -> d1 ≡ₚ d2.
Proof.
  unfold canonical. intros H. apply dumps_inj in H.
  now rewrite <- (by_key_Permutation d1), H, by_key_Permutation.
Qed.

End SignatureFacts.

(** C3, as the code has it. The signature is the SHA-1 digest of the
    canonical text of the built parameters. Parameters with the same
    items have the same canonical text and so the same signature, in
    whatever order the builder calls inserted them. Parameters that differ
    at a key have different canonical texts; their signatures then differ
    unless SHA-1 maps the two texts to one digest. *)
Theorem signature_canonical (d1 d2 : dict value) :
  NoDup (Dict.keys d1) ->
  NoDup (Dict.keys d2) ->
  signature_of d1 = Sha1.hexdigest (canonical d1) /\
  (d1 ≡ₚ d2 -> canonical d1 = canonical d2 /\ signature_of d1 = signature_of d2) /\
  (forall k, Dict.get d1 k <> Dict.get d2 k -> canonical d1 <> canonical d2).
Proof.
  intros Hnd1 Hnd2. split; [reflexivity|]. split.
  - intros Hperm. unfold signature_of, canonical.
    now rewrite (by_key_canonical d1 d2 Hnd1 Hperm).
  - intros k Hk Heq. apply Hk.
    apply dict_get_Permutation; [exact Hnd1|]. now apply canonical_inj.
Qed.


Lemma signature_canonical_witness :
  canonical (wire_from 1) <> canonical (wire_from 1001) /\
  signature_of
    [("ids", VStr "ga:1"); ("start_index", VInt 1);
     ("metrics", VStr "ga:pageviews"); ("dimensions", VNone)] =
  signature_of (wire_from 1).
Proof.
  assert (Hnd : forall d : dict value,
            bool_decide (NoDup (Dict.keys d)) = true -> NoDup (Dict.keys d)).
  { intros d H. now apply bool_decide_eq_true in H. }
  assert (H1 : NoDup (Dict.keys (wire_from 1))) by now apply Hnd.
  assert (H2 : NoDup (Dict.keys (wire_from 1001))) by now apply Hnd.
  assert (H3 : NoDup (Dict.keys
                 [("ids", VStr "ga:1"); ("start_index", VInt 1);
                  ("metrics", VStr "ga:pageviews"); ("dimensions", VNone)]))
    by now apply Hnd.
  split.
  - apply (proj2 (proj2 (signature_canonical (wire_from 1) (wire_from 1001) H1 H2))
             "start_index").
    discriminate.
  - apply (proj1 (proj2 (signature_canonical _ (wire_from 1) H3 H1))).
    unfold wire_from. apply perm_skip.
    apply (Permutation_cons_append
             [("metrics", VStr "ga:pageviews"); ("dimensions", VNone)]
             ("start_index", VInt 1)).
Defined.

(** C3 as the spec words it fails: a digest has 160 bits, so among the
    parameters [wire_from 0], [wire_from 1], ... up to [wire_from (2^160)]
    two have the same signature, although they differ in [start_index] and
    in nothing else. *)
Lemma signature_collision :
  exists i j : Z,
    i <> j /\
    (forall k, k <> "start_index" ->
       Dict.get (wire_from i) k = Dict.get (wire_from j) k) /\
    Dict.get (wire_from i) "start_index" <> Dict.get (wire_from j) "start_index" /\
    signature_of (wire_from i) = signature_of (wire_from j).
Proof.
  destruct (pigeonhole (2 ^ 160)
              (fun n => Sha1.digest (canonical (wire_from (Z.of_N n)))))
    as (i & j & Hij & _ & Hdigest).
  { intros n _. apply digest_lt. }
  exists (Z.of_N i), (Z.of_N j).
  assert (Hne : Z.of_N i <> Z.of_N j) by lia.
  split; [exact Hne|]. split; [|split].
  - intros k Hk. unfold wire_from. cbn [Dict.get].
    destruct (String.eqb_spec k "start_index") as [|_]; [contradiction|].
    reflexivity.
  - unfold wire_from. cbn [Dict.get String.eqb Ascii.eqb Bool.eqb]. congruence.
  - unfold signature_of, Sha1.hexdigest. unfold canonical in Hdigest.
    now rewrite Hdigest.
Qed.

(** Two orders of the same builder calls insert the parameters in two
    orders, and the signatures agree. *)
Example signature_of_call_orders :
  let E := Mock.env [] in
  let run :=
    (a1 <- step E (VInt 50) 0%nat ;;
     a2 <- precision E (VStr "FASTER") a1 ;;
     b1 <- precision E (VStr "FASTER") 0%nat ;;
     b2 <- step E (VInt 50) b1 ;;
     oa <- read_query a2 ;;
     ob <- read_query b2 ;;
     sa <- signature a2 ;;
     sb <- signature b2 ;;
     ret (bool_decide (raw oa = raw ob), bool_decide (sa = sb)))%M
      (Fixtures.base_world None) in
  fst run = Ok (false, true).
Proof. vm_compute. reflexivity. Qed.

(** The signature of a query in the store is that of its built
    parameters. *)
Lemma signature_of_queries {C : Type} (w : world C) (q1 q2 : qid) (o1 o2 : Query)
    (ms1 ds1 ms2 ds2 : list string) :
  queries w !! q1 = Some o1 ->
  queries w !! q2 = Some o2 ->
  Dict.get (raw o1) "metrics" = Some (VList ms1) ->
  Dict.get (raw o1) "dimensions" = Some (VList ds1) ->
  Dict.get (raw o2) "metrics" = Some (VList ms2) ->
  Dict.get (raw o2) "dimensions" = Some (VList ds2) ->
  NoDup (Dict.keys (raw o1)) ->
  built_raw (raw o1) ms1 ds1 ≡ₚ built_raw (raw o2) ms2 ds2 ->
  fst (signature q1 w) = fst (signature q2 w).
Proof.
  intros H1 H2 Hm1 Hd1 Hm2 Hd2 Hnd Hperm.
  rewrite (signature_run w q1 o1 ms1 ds1 H1 Hm1 Hd1).
  rewrite (signature_run w q2 o2 ms2 ds2 H2 Hm2 Hd2).
  cbn [fst]. f_equal. unfold signature_of.
  assert (Hnd' : NoDup (Dict.keys (built_raw (raw o1) ms1 ds1))).
  { unfold built_raw. now do 2 apply dict_set_NoDup. }
  now rewrite (by_key_canonical _ _ Hnd' Hperm).
Qed.

(** ** Builder calls on the new object *)

Section OnClone.
Context {C : Type} (env : Env C).

Lemma lookup_with_object (w : world C) (o : Query) :
  queries (with_object w o) !! length (queries w) = Some o.
Proof. unfold with_object. cbn. apply lookup_snoc. Qed.

Lemma lookup_with_object_lt (w : world C) (o o' : Query) (q : qid) :
  queries w !! q = Some o -> queries (with_object w o') !! q = Some o.
Proof. intros H. unfold with_object. cbn. now apply lookup_snoc_lt. Qed.

Lemma read_query_new (w : world C) (o : Query) :
  read_query (length (queries w)) (with_object w o) = (Ok o, with_object w o).
Proof. unfold read_query. now rewrite lookup_with_object. Qed.

Lemma write_query_new (w : world C) (o o' : Query) :
  write_query (length (queries w)) o' (with_object w o) = (Ok tt, with_object w o').
Proof.
  unfold write_query, with_object, set_queries. cbn. now rewrite insert_snoc.
Qed.

Lemma set_raw_new (w : world C) (o : Query) (key : string) (v : value) :
  set_raw (length (queries w)) key v (with_object w o) =
    (Ok tt, with_object w (with_raw o (Dict.set (raw o) key v))).
Proof.
  unfold set_raw, bind. rewrite read_query_new. apply write_query_new.
Qed.

Lemma set_meta_new (w : world C) (o : Query) (key : string) (v : mval) :
  set_meta (length (queries w)) key v (with_object w o) =
    (Ok tt, with_object w (with_meta o (<[key:=v]> (meta o)))).
Proof.
  unfold set_meta, bind. rewrite read_query_new. apply write_query_new.
Qed.

Lemma get_raw_new (w : world C) (o : Query) (key : string) :
  get_raw (length (queries w)) key (with_object w o) =
    match Dict.get (raw o) key with
    | Some v => (Ok v, with_object w o)
    | None => (Raise (raise_of KeyError key), with_object w o)
    end.
Proof.
  unfold get_raw, bind. rewrite read_query_new.
  now destruct (Dict.get (raw o) key).
Qed.

(** A method under [utils.immutable] runs its body on a clone of the
    receiver. *)
Lemma immutable_run (body : qid -> M C unit) (w : world C) (q : qid) (o : Query) :
  queries w !! q = Some o ->
  immutable env body q w =
    match body (length (queries w)) (with_object w (derived (raw o) (meta o))) with
    | (Ok _, w') => (Ok (length (queries w)), w')
    | (Raise e, w') => (Raise e, w')
    end.
Proof.
  intros Hq. unfold immutable, bind. rewrite (clone_spec env w q o Hq).
  fold (derived (raw o) (meta o)).
  fold (with_object w (derived (raw o) (meta o))).
  now destruct (body _ _) as [[[]|e] w'].
Qed.


(** A run that creates one object returns a new object. *)
Lemma creates_returns (w : world C) (o' : Query) (run : res qid * world C) :
  creates w o' run -> returns w o' run.
Proof.
  unfold creates. intros ->. exists (length (queries w)), (with_object w o').
  split; [reflexivity|]. split; [apply lookup_ge_None; lia|].
  split; [apply lookup_with_object|].
  intros q o Hq. now apply lookup_with_object_lt.
Qed.

(** Two calls in a row: the second is made on the object that the first
    creates. *)
Lemma creates_then_returns (w : world C) (o1 o2 : Query) (m : M C qid)
    (k : qid -> M C qid) :
  creates w o1 (m w) ->
  returns (with_object w o1) o2 (k (length (queries w)) (with_object w o1)) ->
  returns w o2 (bind m k w).
Proof.
  unfold creates. intros Hm (q' & w' & Hk & Hnew & Hq' & Hkeep).
  exists q', w'. unfold bind. rewrite Hm. split; [exact Hk|].
  split; [|split; [exact Hq'|]].
  - apply lookup_ge_None. apply lookup_ge_None in Hnew.
    unfold with_object in Hnew. cbn in Hnew. rewrite length_app in Hnew. lia.
  - intros q o Hq. apply Hkeep. now apply lookup_with_object_lt.
Qed.

End OnClone.

(** ** Cloning and the calls of the builder *)

(** X1. [clone] creates one object, at a new address: it has the parameters
    and the options of the receiver and no [_lock] of its own, whatever the
    receiver's. The receiver and every other object, the lists of the
    options, the clock and the calls made stay as they were. *)
Theorem clone_creates_unlocked_copy {C : Type} (env : Env C) (w : world C)
    (q : qid) (o : Query) :
  queries w !! q = Some o ->
  creates w (derived (raw o) (meta o)) (clone env q w) /\
  queries (snd (clone env q w)) !! q = Some o /\
  (lock <$> queries (snd (clone env q w)) !! length (queries w)) = Some None.
Proof.
  intros Hq. unfold creates. rewrite (clone_spec env w q o Hq).
  split; [reflexivity|]. split.
  - cbn. now apply lookup_snoc_lt.
  - cbn. now rewrite lookup_snoc.
Qed.

Lemma clone_creates_unlocked_copy_witness :
  let w := set_queries (fresh_world 1000%Q (None : option Mock.cache_t))
             [with_lock Fixtures.limited 999%Q] in
  clone (Mock.env []) 0%nat w =
    (Ok 1%nat, with_object w (derived (raw Fixtures.limited) (meta Fixtures.limited))).
Proof.
  exact (proj1 (clone_creates_unlocked_copy (Mock.env [])
                  (set_queries (fresh_world 1000%Q None)
                     [with_lock Fixtures.limited 999%Q])
                  0%nat (with_lock Fixtures.limited 999%Q) eq_refl)).
Defined.



(** ** Metrics and dimensions *)

(** An item that is assigned again keeps its place. *)
Lemma dict_set_overwrite {V : Type} (d : dict V) (k1 k2 : string) (a b c : V) :
  k1 <> k2 ->
  Dict.set (Dict.set (Dict.set d k1 a) k2 c) k1 b = Dict.set (Dict.set d k1 b) k2 c.
Proof.
  intros Hne. induction d as [|[k v] d IH]; simpl.
  - destruct (String.eqb_spec k2 k1); [congruence|]. simpl.
    now rewrite String.eqb_refl.
  - destruct (String.eqb_spec k1 k) as [->|H1]; simpl.
    + destruct (String.eqb_spec k2 k); [congruence|]. simpl.
      now rewrite String.eqb_refl.
    + destruct (String.eqb_spec k2 k) as [->|H2]; simpl.
      * destruct (String.eqb_spec k1 k); [congruence|]. now rewrite dict_set_set.
      * destruct (String.eqb_spec k1 k); [congruence|]. now rewrite IH.
Qed.

Section Specify.
Context {C : Type} (env : Env C).

Lemma res_mapM_app {A B} (f : A -> res B) (l1 l2 : list A) (r1 r2 : list B) :
  res_mapM f l1 = Ok r1 -> res_mapM f l2 = Ok r2 ->
  res_mapM f (l1 ++ l2) = Ok (r1 ++ r2).
Proof.
  revert r1. induction l1 as [|a l1 IH]; intros r1 H1 H2; simpl in *.
  - now injection H1 as <-.
  - destruct (f a) as [b|e]; [|discriminate].
    destruct (res_mapM f l1) as [bs|e]; [|discriminate].
    injection H1 as <-. now rewrite (IH bs eq_refl H2).
Qed.

Lemma raw_extend_new (w : world C) (o : Query) (key : string)
    (old items : list string) :
  Dict.get (raw o) key = Some (VList old) ->
  raw_extend (length (queries w)) key items (with_object w o) =
    (Ok tt, with_object w (with_raw o (Dict.set (raw o) key (VList (old ++ items))))).
Proof.
  intros Hget. unfold raw_extend, bind. rewrite read_query_new, Hget.
  apply write_query_new.
Qed.

(** The body of [query], [metrics] and [dimensions] on the clone. *)
Lemma _specify_new (w : world C) (o : Query) (cm cd : list colarg)
    (ms ds ms' ds' : list string) :
  Dict.get (raw o) "metrics" = Some (VList ms) ->
  Dict.get (raw o) "dimensions" = Some (VList ds) ->
  serialize_columns env cm = Ok ms' ->
  serialize_columns env cd = Ok ds' ->
  _specify env cm cd (length (queries w)) (with_object w o) =
    (Ok tt,
     with_object w
       (with_raw o (Dict.set (Dict.set (raw o) "metrics" (VList (ms ++ ms')))
                      "dimensions" (VList (ds ++ ds'))))).
Proof.
  intros Hms Hds Hcm Hcd. unfold _specify, bind, lift. rewrite Hcm, Hcd.
  rewrite (raw_extend_new w o "metrics" ms ms' Hms).
  erewrite raw_extend_new.
  - reflexivity.
  - cbn [raw with_raw]. rewrite dict_get_set_ne by discriminate. exact Hds.
Qed.

End Specify.

(** X3. [Query(api, metrics, dimensions, meta)] creates a query object whose
    parameters are, in this order, [ids] (the text [ga:] and the id of the
    profile), [metrics] and [dimensions] (the identifiers that the columns
    given serialise to, in the order given); its options are those of
    [meta], or none; it has no [_lock] of its own. *)
Theorem new_query_parameters {C : Type} (env : Env C) (w : world C)
    (cm cd : list colarg) (ms ds : list string) (m : option (gmap string mval)) :
  serialize_columns env cm = Ok ms ->
  serialize_columns env cd = Ok ds ->
  creates w
    (derived [("ids", VStr ("ga:" +:+ profile_id env));
              ("metrics", VList ms); ("dimensions", VList ds)]
       (default ∅ m))
    (Query_init env cm cd m w).
Proof.
  intros Hcm Hcd. unfold creates, Query_init, bind at 1, alloc_query at 1.
  set (o0 := {| raw := _; meta := _; lock := None |}).
  fold (with_object w o0).
  unfold bind at 1, _specify, bind at 1, lift at 1. rewrite Hcm.
  unfold bind at 1, lift at 1. rewrite Hcd.
  unfold bind at 1, raw_extend at 1, bind at 1. rewrite read_query_new.
  unfold o0 at 1. cbn [raw Dict.get String.eqb Ascii.eqb Bool.eqb].
  rewrite write_query_new.
  unfold raw_extend, bind at 1. rewrite read_query_new.
  unfold o0.
  cbn [raw meta lock with_raw Dict.get Dict.set String.eqb Ascii.eqb Bool.eqb].
  rewrite write_query_new. reflexivity.
Qed.

Lemma new_query_parameters_witness :
  creates (fresh_world 0%Q (None : option Mock.cache_t))
    (derived [("ids", VStr "ga:1"); ("metrics", VList ["ga:pageviews"]);
              ("dimensions", VList ["ga:browser"; "ga:date"])] ∅)
    (Query_init (Mock.env []) [ColName "pageviews"]
       [ColName "Browser"; ColObj Mock.date] None (fresh_world 0%Q None)).
Proof.
  exact (new_query_parameters (Mock.env []) (fresh_world 0%Q None)
           [ColName "pageviews"] [ColName "Browser"; ColObj Mock.date]
           ["ga:pageviews"] ["ga:browser"; "ga:date"] None eq_refl eq_refl).
Defined.

(** The run of [query] on lists of metrics and dimensions. *)
Lemma query_run {C : Type} (env : Env C) (w : world C) (q : qid)
    (o : Query) (cm cd : list colarg) (ms ds ms' ds' : list string) :
  queries w !! q = Some o ->
  Dict.get (raw o) "metrics" = Some (VList ms) ->
  Dict.get (raw o) "dimensions" = Some (VList ds) ->
  serialize_columns env cm = Ok ms' ->
  serialize_columns env cd = Ok ds' ->
  creates w
    (derived (Dict.set (Dict.set (raw o) "metrics" (VList (ms ++ ms')))
                "dimensions" (VList (ds ++ ds')))
       (meta o))
    (query env cm cd q w).
Proof.
  intros Hq Hms Hds Hcm Hcd. unfold creates, query.
  rewrite (immutable_run env _ w q o Hq).
  now rewrite (_specify_new env w (derived (raw o) (meta o)) cm cd ms ds ms' ds'
                 Hms Hds Hcm Hcd).
Qed.

(** X4. [query(metrics, dimensions)] returns a new query whose metrics are
    those of the receiver followed by the identifiers of the metrics given,
    in the order given, and likewise for the dimensions; what the receiver
    holds is never replaced or reordered. When a column cannot be
    serialised, the error of the serialisation is raised and no object that
    existed is changed. *)
Theorem query_appends_columns {C : Type} (env : Env C) (w : world C) (q : qid)
    (o : Query) (cm cd : list colarg) (ms ds : list string) :
  queries w !! q = Some o ->
  Dict.get (raw o) "metrics" = Some (VList ms) ->
  Dict.get (raw o) "dimensions" = Some (VList ds) ->
  (forall ms' ds',
     serialize_columns env cm = Ok ms' ->
     serialize_columns env cd = Ok ds' ->
     creates w
       (derived (Dict.set (Dict.set (raw o) "metrics" (VList (ms ++ ms')))
                   "dimensions" (VList (ds ++ ds')))
          (meta o))
       (query env cm cd q w)) /\
  (forall e, serialize_columns env cm = Raise e -> refuses w e (query env cm cd q w)) /\
  (forall ms' e,
     serialize_columns env cm = Ok ms' ->
     serialize_columns env cd = Raise e -> refuses w e (query env cm cd q w)).
Proof.
  intros Hq Hms Hds. split; [|split].
  - intros ms' ds'. now apply query_run.
  - intros e Hcm. unfold refuses, query. rewrite (immutable_run env _ w q o Hq).
    unfold _specify, bind, lift. rewrite Hcm. split; [reflexivity|].
    intros q' o' Hq'. now apply lookup_with_object_lt.
  - intros ms' e Hcm Hcd. unfold refuses, query.
    rewrite (immutable_run env _ w q o Hq).
    unfold _specify, bind, lift. rewrite Hcm, Hcd. split; [reflexivity|].
    intros q' o' Hq'. now apply lookup_with_object_lt.
Qed.

Lemma query_appends_columns_witness :
  creates (Fixtures.base_world None)
    (derived [("ids", VStr "ga:1");
              ("metrics", VList ["ga:pageviews"; "ga:sessions"]);
              ("dimensions", VList ["ga:browser"])] ∅)
    (query (Mock.env []) [ColName "Sessions"] [ColObj Mock.browser] 0%nat
       (Fixtures.base_world None)).
Proof.
  exact (proj1 (query_appends_columns (Mock.env []) (Fixtures.base_world None) 0%nat
                  Fixtures.base [ColName "Sessions"] [ColObj Mock.browser]
                  ["ga:pageviews"] [] eq_refl eq_refl eq_refl)
           ["ga:sessions"] ["ga:browser"] eq_refl eq_refl).
Defined.

(** X5. Two calls of [metrics] in a row give the parameters that one call
    with all the columns gives: [q.metrics(a).metrics(b)] asks for what
    [q.metrics(a, b)] asks for, the metrics of [q], then those of [a], then
    those of [b]. *)
Theorem metrics_calls_compose {C : Type} (env : Env C) (w : world C) (q : qid)
    (o : Query) (a b : list colarg) (ms ds ma mb : list string) :
  queries w !! q = Some o ->
  Dict.get (raw o) "metrics" = Some (VList ms) ->
  Dict.get (raw o) "dimensions" = Some (VList ds) ->
  serialize_columns env a = Ok ma ->
  serialize_columns env b = Ok mb ->
  let o' := derived (Dict.set (Dict.set (raw o) "metrics" (VList (ms ++ ma ++ mb)))
                       "dimensions" (VList ds)) (meta o) in
  returns w o' (bind (metrics env a q) (metrics env b) w) /\
  returns w o' (metrics env (a ++ b) q w).
Proof.
  intros Hq Hms Hds Ha Hb o'.
  pose proof (query_run env w q o a [] ms ds ma [] Hq Hms Hds Ha eq_refl) as H1.
  pose proof (query_run env w q o (a ++ b) [] ms ds (ma ++ mb) []
                Hq Hms Hds (res_mapM_app _ _ _ _ _ Ha Hb) eq_refl) as H12.
  rewrite app_nil_r in H1, H12.
  split; [|apply creates_returns; exact H12].
  set (o1 := derived _ _) in H1.
  assert (Hms1 : Dict.get (raw o1) "metrics" = Some (VList (ms ++ ma))).
  { unfold o1. cbn [raw derived]. rewrite dict_get_set_ne by discriminate.
    apply dict_get_set_eq. }
  assert (Hds1 : Dict.get (raw o1) "dimensions" = Some (VList ds)).
  { unfold o1. cbn [raw derived]. apply dict_get_set_eq. }
  pose proof (query_run env (with_object w o1) (length (queries w)) o1
                b [] (ms ++ ma) ds mb []
                (lookup_with_object w o1) Hms1 Hds1 Hb eq_refl) as H2.
  rewrite app_nil_r in H2.
  apply creates_then_returns with (o1 := o1); [exact H1|].
  apply creates_returns.
  replace o' with
    (derived (Dict.set (Dict.set (raw o1) "metrics" (VList ((ms ++ ma) ++ mb)))
                "dimensions" (VList ds)) (meta o1)); [exact H2|].
  unfold o', o1. cbn [raw meta derived]. f_equal.
  rewrite <- app_assoc.
  rewrite dict_set_overwrite by discriminate.
  apply dict_set_overwrite. discriminate.
Qed.

Lemma metrics_calls_compose_witness :
  let E := Mock.env [] in
  let o' := derived [("ids", VStr "ga:1");
                     ("metrics", VList ["ga:pageviews"; "ga:sessions"; "ga:browser"]);
                     ("dimensions", VList [])] ∅ in
  returns (Fixtures.base_world None) o'
    (bind (metrics E [ColName "sessions"] 0%nat) (metrics E [ColObj Mock.browser])
       (Fixtures.base_world None)) /\
  returns (Fixtures.base_world None) o'
    (metrics E ([ColName "sessions"] ++ [ColObj Mock.browser]) 0%nat
       (Fixtures.base_world None)).
Proof.
  exact (metrics_calls_compose (Mock.env []) (Fixtures.base_world None) 0%nat
           Fixtures.base [ColName "sessions"] [ColObj Mock.browser]
           ["ga:pageviews"] [] ["ga:sessions"] ["ga:browser"]
           eq_refl eq_refl eq_refl eq_refl eq_refl).
Defined.

(** ** Raw properties *)

Section SetProperties.
Context {C : Type} (env : Env C).

(** The loop of [set] on the clone: the properties are assigned in the
    order of the dictionary. *)
Lemma set_items_new (serialize : value -> res value)
    (properties properties' : dict value) :
  served serialize properties properties' ->
  forall (w : world C) (o : Query),
  set_items serialize properties (length (queries w)) (with_object w o) =
    (Ok tt, with_object w (with_raw o (Dict.update (raw o) properties'))).
Proof.
  induction 1 as [|[k v] [k' v'] props props' [Hk Hv] _ IH]; intros w o.
  - unfold Dict.update. simpl. now destruct o.
  - simpl in Hk, Hv. subst k'. cbn [set_items]. unfold bind at 1, lift at 1.
    rewrite Hv. unfold bind at 1. rewrite set_raw_new.
    rewrite IH. reflexivity.
Qed.

End SetProperties.

(** X6. [set(key, value)] with a name and a value that are both true returns
    a new query in which the property holds the serialised value, and pays
    no attention to keyword arguments given besides. With a name and a value
    that is false ([None], [0], the empty string, an empty list) it raises
    [AttributeError]: the name is then taken for a dictionary of properties.
    With neither a key nor keyword arguments it raises the [ValueError] that
    tells how to call it. No object that existed is changed in any of these
    cases. *)
Theorem set_key_and_value {C : Type} (env : Env C) (serialize : value -> res value)
    (w : world C) (q : qid) (o : Query) (k : string) (v : value)
    (kwargs : dict value) :
  queries w !! q = Some o ->
  k <> "" ->
  (forall v', truthy v = true -> serialize v = Ok v' ->
     creates w (derived (Dict.set (raw o) k v') (meta o))
       (set env serialize (KeyName k) v kwargs q w)) /\
  (truthy v = false ->
   refuses w (raise_of AttributeError "'str' object has no attribute 'items'")
     (set env serialize (KeyName k) v kwargs q w)) /\
  (forall key, setkey_truthy key = false ->
     refuses w (raise_of ValueError set_message)
       (set env serialize key v [] q w)).
Proof.
  intros Hq Hk.
  assert (Hkey : setkey_truthy (KeyName k) = true).
  { simpl. now destruct (String.eqb_spec k ""). }
  split; [|split].
  - intros v' Hv Hser. unfold creates, set.
    rewrite (immutable_run env _ w q o Hq).
    unfold set_body. rewrite Hkey, Hv. cbn [andb].
    unfold bind, lift. rewrite Hser. now rewrite set_raw_new.
  - intros Hv. unfold refuses, set.
    rewrite (immutable_run env _ w q o Hq).
    unfold set_body. rewrite Hkey, Hv. cbn [andb orb].
    split; [reflexivity|].
    intros q' o' Hq'. cbn. now apply lookup_snoc_lt.
  - intros key Hfalse. unfold refuses, set.
    rewrite (immutable_run env _ w q o Hq).
    unfold set_body. rewrite Hfalse. cbn [andb orb length Nat.eqb negb].
    split; [reflexivity|].
    intros q' o' Hq'. cbn. now apply lookup_snoc_lt.
Qed.

Lemma set_key_and_value_witness :
  let E := Mock.env [] in
  creates (Fixtures.base_world None)
    (derived (Dict.set (raw Fixtures.base) "max_results" (VInt 10)) ∅)
    (set E Ok (KeyName "max_results") (VInt 10) [] 0%nat (Fixtures.base_world None)) /\
  fst (set E Ok (KeyName "start_index") (VInt 0) [] 0%nat (Fixtures.base_world None)) =
    Raise (raise_of AttributeError "'str' object has no attribute 'items'").
Proof.
  split.
  - exact (proj1 (set_key_and_value (Mock.env []) Ok (Fixtures.base_world None)
                    0%nat Fixtures.base "max_results" (VInt 10) []
                    eq_refl ltac:(discriminate)) (VInt 10) eq_refl eq_refl).
  - exact (proj1 (proj1 (proj2 (set_key_and_value (Mock.env []) Ok
                    (Fixtures.base_world None) 0%nat Fixtures.base "start_index"
                    (VInt 0) [] eq_refl ltac:(discriminate))) eq_refl)).
Defined.

(** X7. [set] with a dictionary of properties, or with keyword arguments and
    no key, returns a new query in which every property of the dictionary is
    assigned its serialised value, in the order of the dictionary: a
    property that the query had keeps its place among the parameters, a new
    one goes last. *)
Theorem set_dictionary {C : Type} (env : Env C) (serialize : value -> res value)
    (w : world C) (q : qid) (o : Query) (properties properties' : dict value) :
  queries w !! q = Some o ->
  properties <> [] ->
  served serialize properties properties' ->
  creates w (derived (Dict.update (raw o) properties') (meta o))
    (set env serialize (KeyProps properties) VNone [] q w) /\
  creates w (derived (Dict.update (raw o) properties') (meta o))
    (set env serialize KeyNone VNone properties q w).
Proof.
  intros Hq Hne Hserved.
  assert (Hlen : negb (Nat.eqb (length properties) 0) = true).
  { destruct properties; [contradiction|reflexivity]. }
  split; unfold creates, set; rewrite (immutable_run env _ w q o Hq);
    unfold set_body; cbn [setkey_truthy truthy andb orb]; rewrite Hlen;
    cbn [andb orb];
    now rewrite (set_items_new serialize properties properties' Hserved).
Qed.

Lemma set_dictionary_witness :
  creates (Fixtures.base_world None)
    (derived [("ids", VStr "ga:2"); ("metrics", VList ["ga:pageviews"]);
              ("dimensions", VList []); ("quotaUser", VStr "u1")] ∅)
    (set (Mock.env []) Ok KeyNone VNone
       [("quotaUser", VStr "u1"); ("ids", VStr "ga:2")] 0%nat
       (Fixtures.base_world None)).
Proof.
  refine (proj2 (set_dictionary (Mock.env []) Ok (Fixtures.base_world None) 0%nat
                   Fixtures.base
                   [("quotaUser", VStr "u1"); ("ids", VStr "ga:2")]
                   [("quotaUser", VStr "u1"); ("ids", VStr "ga:2")]
                   eq_refl ltac:(discriminate) _)).
  repeat constructor.
Defined.

(** ** The window of rows *)

Section Window.
Context {C : Type} (env : Env C).

Lemma limit_run (w : world C) (q : qid) (o : Query) (start maximum : value) :
  queries w !! q = Some o ->
  creates w
    (derived (window_raw (raw o) (VInt 1) maximum)
       (<["limit":=MVal maximum]> (meta o)))
    (limit env [maximum] q w) /\
  creates w
    (derived (window_raw (raw o) start maximum)
       (<["limit":=MVal maximum]> (meta o)))
    (limit env [start; maximum] q w).
Proof.
  intros Hq. unfold creates, limit.
  rewrite !(immutable_run env _ w q o Hq).
  unfold limit_body, bind, ret. rewrite !set_meta_new. cbn [fst snd].
  now rewrite !set_raw_new.
Qed.

Lemma step_run (w : world C) (q : qid) (o : Query) (maximum : value) :
  queries w !! q = Some o ->
  creates w (derived (Dict.set (raw o) "max_results" maximum) (meta o))
    (step env maximum q w).
Proof.
  intros Hq. unfold creates, step. rewrite (immutable_run env _ w q o Hq).
  unfold step_body. now rewrite set_raw_new.
Qed.

End Window.

(** X8. [limit(maximum)] returns a new query that asks for [maximum] rows in
    a request, from row [1] on, and whose option [limit] is [maximum];
    [limit(start, maximum)] asks for them from row [start] on. Called with
    no argument it raises [IndexError]; called with three arguments or more
    it does what it does with the first alone. *)
Theorem limit_sets_window {C : Type} (env : Env C) (w : world C) (q : qid)
    (o : Query) :
  queries w !! q = Some o ->
  (forall maximum,
     creates w
       (derived (window_raw (raw o) (VInt 1) maximum)
          (<["limit":=MVal maximum]> (meta o)))
       (limit env [maximum] q w)) /\
  (forall start maximum,
     creates w
       (derived (window_raw (raw o) start maximum)
          (<["limit":=MVal maximum]> (meta o)))
       (limit env [start; maximum] q w)) /\
  refuses w (raise_of IndexError "tuple index out of range") (limit env [] q w) /\
  (forall a b c rest,
     limit env (a :: b :: c :: rest) q w = limit env [a] q w).
Proof.
  intros Hq. split; [|split; [|split]].
  - intros maximum. exact (proj1 (limit_run env w q o maximum maximum Hq)).
  - intros start maximum. exact (proj2 (limit_run env w q o start maximum Hq)).
  - unfold refuses, limit. rewrite (immutable_run env _ w q o Hq).
    split; [reflexivity|]. intros q' o' Hq'. now apply lookup_with_object_lt.
  - reflexivity.
Qed.

Lemma limit_sets_window_witness :
  creates (Fixtures.base_world None) Fixtures.limited
    (limit (Mock.env []) [VInt 15] 0%nat (Fixtures.base_world None)).
Proof.
  exact (proj1 (limit_sets_window (Mock.env []) (Fixtures.base_world None) 0%nat
                  Fixtures.base eq_refl) (VInt 15)).
Defined.

(** X9. [step(maximum)] sets the number of rows of a request and no limit.
    Its order with [limit] matters: [q.limit(n).step(k)] asks for pages of
    [k] rows and has the limit [n], while [q.step(k).limit(n)] asks for
    pages of [n] rows, the step being overwritten. *)
Theorem limit_and_step_do_not_commute {C : Type} (env : Env C) (w : world C)
    (q : qid) (o : Query) (n k : value) :
  queries w !! q = Some o ->
  returns w
    (derived (Dict.set (window_raw (raw o) (VInt 1) n) "max_results" k)
       (<["limit":=MVal n]> (meta o)))
    (bind (limit env [n] q) (step env k) w) /\
  returns w
    (derived (window_raw (Dict.set (raw o) "max_results" k) (VInt 1) n)
       (<["limit":=MVal n]> (meta o)))
    (bind (step env k q) (limit env [n]) w) /\
  Dict.get (Dict.set (window_raw (raw o) (VInt 1) n) "max_results" k) "max_results"
    = Some k /\
  Dict.get (window_raw (Dict.set (raw o) "max_results" k) (VInt 1) n) "max_results"
    = Some n.
Proof.
  intros Hq.
  destruct (limit_run env w q o n n Hq) as (Hl & _).
  pose proof (step_run env w q o k Hq) as Hs.
  split; [|split; [|split]].
  - eapply creates_then_returns; [exact Hl|].
    apply creates_returns.
    exact (step_run env _ _ _ k (lookup_with_object w _)).
  - eapply creates_then_returns; [exact Hs|].
    apply creates_returns.
    exact (proj1 (limit_run env _ _ _ n n (lookup_with_object w _))).
  - apply dict_get_set_eq.
  - unfold window_raw. apply dict_get_set_eq.
Qed.

Lemma limit_and_step_do_not_commute_witness :
  let E := Mock.env [] in
  returns (Fixtures.base_world None)
    (derived [("ids", VStr "ga:1"); ("metrics", VList ["ga:pageviews"]);
              ("dimensions", VList []); ("start_index", VInt 1);
              ("max_results", VInt 10)]
       {["limit" := MVal (VInt 100)]})
    (bind (limit E [VInt 100] 0%nat) (step E (VInt 10)) (Fixtures.base_world None)) /\
  returns (Fixtures.base_world None)
    (derived [("ids", VStr "ga:1"); ("metrics", VList ["ga:pageviews"]);
              ("dimensions", VList []); ("max_results", VInt 100);
              ("start_index", VInt 1)]
       {["limit" := MVal (VInt 100)]})
    (bind (step E (VInt 10) 0%nat) (limit E [VInt 100]) (Fixtures.base_world None)).
Proof.
  destruct (limit_and_step_do_not_commute (Mock.env []) (Fixtures.base_world None)
              0%nat Fixtures.base (VInt 100) (VInt 10) eq_refl)
    as (H1 & H2 & _).
  split; [exact H1|exact H2].
Defined.

(** ** Granularity and the date range *)

Section Granularity.
Context {C : Type} (env : Env C).

Lemma tuple_index_nat {A} (t : list A) (i : nat) (a : A) :
  t !! i = Some a -> Py.tuple_index t (Z.of_nat i) = Ok a.
Proof.
  intros H. pose proof (lookup_lt_Some _ _ _ H) as Hlt.
  unfold Py.tuple_index.
  destruct (Z.ltb_spec (Z.of_nat i) 0); [lia|].
  destruct (Z.leb_spec 0 (Z.of_nat i)); [|lia].
  destruct (Z.ltb_spec (Z.of_nat i) (Z.of_nat (length t))); [|lia].
  cbn [andb]. now rewrite Nat2Z.id, H.
Qed.

(** The run of [interval] with the name of a level. *)
Lemma interval_run (w : world C) (q : qid) (o : Query) (ds : list string)
    (name dimension : string) :
  queries w !! q = Some o ->
  Dict.get (raw o) "dimensions" = Some (VList ds) ->
  granularity_dimension name = Some dimension ->
  creates w
    (derived (Dict.set (raw o) "dimensions" (VList (dimension :: ds))) (meta o))
    (interval env (VStr name) q w).
Proof.
  intros Hq Hds Hdim. unfold granularity_dimension in Hdim.
  destruct (Py.index_of name GRANULARITY_LEVELS) as [i|] eqn:Hi; [|discriminate].
  unfold creates, interval. rewrite (immutable_run env _ w q o Hq).
  unfold interval_body. rewrite Hi. unfold bind at 1, ret at 1.
  unfold bind at 1, lift at 1. rewrite (tuple_index_nat _ _ _ Hdim).
  unfold bind at 1. rewrite get_raw_new. cbn [raw derived]. rewrite Hds.
  now rewrite set_raw_new.
Qed.

(** The run of [range]. *)
Lemma range_run (w : world C) (q : qid) (o : Query) (start stop : value)
    (months days : Z) (dates : value * value) :
  queries w !! q = Some o ->
  date_range env start stop months days = Ok dates ->
  creates w
    (derived (Dict.set (Dict.set (raw o) "start_date" (fst dates))
                "end_date" (snd dates)) (meta o))
    (range env start stop months days q w).
Proof.
  intros Hq Hdates. unfold creates, range. rewrite (immutable_run env _ w q o Hq).
  unfold range_body, bind, lift. rewrite Hdates. now rewrite !set_raw_new.
Qed.

(** A shortcut of [range]: the granularity, then the range. *)
Lemma shortcut_run (w : world C) (q : qid) (o : Query) (ds : list string)
    (name dimension : string) (start stop : value) (months days : Z)
    (dates : value * value) :
  queries w !! q = Some o ->
  Dict.get (raw o) "dimensions" = Some (VList ds) ->
  granularity_dimension name = Some dimension ->
  date_range env start stop months days = Ok dates ->
  returns w (derived (granular_raw (raw o) dimension ds dates) (meta o))
    (bind (interval env (VStr name) q) (range env start stop months days) w).
Proof.
  intros Hq Hds Hdim Hdates.
  eapply creates_then_returns; [exact (interval_run w q o ds name dimension Hq Hds Hdim)|].
  apply creates_returns.
  exact (range_run _ _ _ start stop months days dates (lookup_with_object w _) Hdates).
Qed.

End Granularity.

(** X10. [interval] with the name of a level returns a new query whose first
    dimension is the dimension of that level ([ga:year], [ga:yearMonth],
    [ga:yearWeek], [ga:date] or [ga:dateHour]), before the dimensions the
    receiver had. With [lifetime], which the message for an unknown name
    offers, it raises [TypeError]; with any other name it raises the
    [ValueError] that lists the names. No object that existed is changed
    when it raises. With the index of a level it puts the dimension of that
    index first. *)
Theorem interval_by_name {C : Type} (env : Env C) (w : world C) (q : qid)
    (o : Query) (ds : list string) (name : string) :
  queries w !! q = Some o ->
  Dict.get (raw o) "dimensions" = Some (VList ds) ->
  match granularity_dimension name with
  | Some dimension =>
      creates w
        (derived (Dict.set (raw o) "dimensions" (VList (dimension :: ds))) (meta o))
        (interval env (VStr name) q w)
  | None =>
      if String.eqb name "lifetime" then
        exists e, exn_cls e = TypeError /\
                  refuses w e (interval env (VStr name) q w)
      else
        refuses w
          (raise_of ValueError
             "Granularity should be one of: lifetime, year, month, week, day, hour")
          (interval env (VStr name) q w)
  end /\
  (forall i dimension,
     GRANULARITY_DIMENSIONS !! i = Some dimension ->
     creates w
       (derived (Dict.set (raw o) "dimensions" (VList (dimension :: ds))) (meta o))
       (interval env (VInt (Z.of_nat i)) q w)).
Proof.
  intros Hq Hds. split.
  2:{ intros i dimension Hdim. unfold creates, interval.
      rewrite (immutable_run env _ w q o Hq).
      unfold interval_body. unfold bind at 1, ret at 1.
      unfold bind at 1, lift at 1. rewrite (tuple_index_nat _ _ _ Hdim).
      unfold bind at 1. rewrite get_raw_new. cbn [raw derived]. rewrite Hds.
      now rewrite set_raw_new. }
  destruct (granularity_dimension name) as [dimension|] eqn:Hdim.
  - now apply interval_run.
  - assert (Hi : Py.index_of name GRANULARITY_LEVELS = None).
    { unfold granularity_dimension in Hdim.
      destruct (Py.index_of name GRANULARITY_LEVELS) as [i|] eqn:Hi; [|reflexivity].
      exfalso. revert Hi Hdim. unfold GRANULARITY_LEVELS. cbn [Py.index_of].
      repeat (destruct (String.eqb name _);
              [intros [= <-]; discriminate|cbn [fmap option_fmap option_map]]);
        discriminate. }
    unfold refuses, interval. rewrite (immutable_run env _ w q o Hq).
    unfold interval_body. rewrite Hi.
    destruct (String.eqb name "lifetime");
      [eexists; split; [|split; [reflexivity|]]; [reflexivity|]
      |split; [reflexivity|]];
      intros q' o' Hq'; now apply lookup_with_object_lt.
Qed.

Lemma interval_by_name_witness :
  creates (Fixtures.base_world None)
    (derived [("ids", VStr "ga:1"); ("metrics", VList ["ga:pageviews"]);
              ("dimensions", VList ["ga:yearWeek"])] ∅)
    (interval (Mock.env []) (VStr "week") 0%nat (Fixtures.base_world None)) /\
  exists e, exn_cls e = TypeError /\
    fst (interval (Mock.env []) (VStr "lifetime") 0%nat (Fixtures.base_world None)) =
      Raise e.
Proof.
  split.
  - exact (proj1 (interval_by_name (Mock.env []) (Fixtures.base_world None) 0%nat
                    Fixtures.base [] "week" eq_refl eq_refl)).
  - destruct (proj1 (interval_by_name (Mock.env []) (Fixtures.base_world None) 0%nat
                       Fixtures.base [] "lifetime" eq_refl eq_refl))
      as (e & Hcls & Hrun & _).
    now exists e.
Defined.

(** X11. The shortcuts of [range]. [hourly], [daily], [weekly], [monthly]
    and [yearly] return a new query with the dates that [utils.date.range]
    gives for the arguments and with the dimension of the granularity first:
    [ga:dateHour], [ga:date], [ga:yearWeek], [ga:yearMonth] and [ga:year].
    [lifetime] sets the dates and adds no dimension. *)
Theorem shortcuts_set_granularity_and_dates {C : Type} (env : Env C)
    (w : world C) (q : qid) (o : Query) (ds : list string)
    (start stop : value) (months days : Z) (dates : value * value) :
  queries w !! q = Some o ->
  Dict.get (raw o) "dimensions" = Some (VList ds) ->
  date_range env start stop months days = Ok dates ->
  let granular dimension :=
    returns w (derived (granular_raw (raw o) dimension ds dates) (meta o)) in
  granular "ga:dateHour" (hourly env start stop months days q w) /\
  granular "ga:date" (daily env start stop months days q w) /\
  granular "ga:yearWeek" (weekly env start stop months days q w) /\
  granular "ga:yearMonth" (monthly env start stop months days q w) /\
  granular "ga:year" (yearly env start stop months days q w) /\
  returns w
    (derived (Dict.set (Dict.set (raw o) "start_date" (fst dates))
                "end_date" (snd dates)) (meta o))
    (lifetime env start stop months days q w).
Proof.
  intros Hq Hds Hdates granular. unfold granular.
  repeat split;
    try (eapply shortcut_run; [exact Hq|exact Hds|reflexivity|exact Hdates]).
  apply creates_returns. now apply range_run.
Qed.

Lemma shortcuts_set_granularity_and_dates_witness :
  returns (Fixtures.base_world None)
    (derived [("ids", VStr "ga:1"); ("metrics", VList ["ga:pageviews"]);
              ("dimensions", VList ["ga:date"]);
              ("start_date", VStr "2020-01-01"); ("end_date", VStr "2020-01-31")] ∅)
    (daily (Mock.env []) (VStr "2020-01-01") (VStr "2020-01-31") 0 0 0%nat
       (Fixtures.base_world None)).
Proof.
  exact (proj1 (proj2 (shortcuts_set_granularity_and_dates (Mock.env [])
                  (Fixtures.base_world None) 0%nat Fixtures.base []
                  (VStr "2020-01-01") (VStr "2020-01-31") 0 0
                  (VStr "2020-01-01", VStr "2020-01-31") eq_refl eq_refl eq_refl))).
Defined.

(** ** Keyword selections *)

Section SplitKey.

Lemma append_empty_r (s : string) : s +:+ "" = s.
Proof. induction s as [|c s IH]; [reflexivity|]. now rewrite append_cons, IH. Qed.

Lemma rev_app_rev_app (s a b : string) :
  String.rev_app (String.rev_app s a) b = String.rev_app a (s +:+ b).
Proof.
  revert a b. induction s as [|c s IH]; intros a b; [reflexivity|].
  cbn [String.rev_app]. rewrite IH. now rewrite append_cons.
Qed.

(** One step of [split]. *)
Lemma split_dunder_go_step (c : ascii) (s cur : string) :
  Str.split_dunder_go (String c s) cur =
    if Ascii.eqb c "_" then
      match s with
      | String c' rest =>
          if Ascii.eqb c' "_" then String.rev cur :: Str.split_dunder_go rest ""
          else Str.split_dunder_go s (String c cur)
      | EmptyString => Str.split_dunder_go s (String c cur)
      end
    else Str.split_dunder_go s (String c cur).
Proof.
  destruct c as [[] [] [] [] [] [] [] []]; try reflexivity.
  destruct s as [|c' rest]; [reflexivity|].
  destruct c' as [[] [] [] [] [] [] [] []]; reflexivity.
Qed.

(** Splitting a key made of a plain name, a double underscore and a
    rest. *)
Lemma split_dunder_go_plain (column rest : string) :
  plain column = true ->
  forall cur,
  Str.split_dunder_go (column +:+ "__" +:+ rest) cur =
    String.rev (String.rev_app column cur) :: Str.split_dunder_go rest "".
Proof.
  induction column as [|c column IH]; intros Hplain cur.
  - reflexivity.
  - rewrite append_cons, split_dunder_go_step. cbn [plain] in Hplain.
    cbn [String.rev_app].
    destruct (Ascii.eqb c "_").
    + destruct column as [|c' column']; [discriminate|].
      apply andb_true_iff in Hplain as [Hc' Hplain].
      apply negb_true_iff in Hc'.
      rewrite append_cons, Hc', <- append_cons. exact (IH Hplain _).
    + exact (IH Hplain _).
Qed.

Lemma split_dunder_plain (column method : string) :
  plain column = true ->
  Str.split_dunder method = [method] ->
  Str.split_dunder (column +:+ "__" +:+ method) = [column; method].
Proof.
  intros Hplain Hmethod. unfold Str.split_dunder.
  rewrite (split_dunder_go_plain column method Hplain "").
  unfold Str.split_dunder in Hmethod. rewrite Hmethod.
  unfold String.rev. rewrite rev_app_rev_app. cbn [String.rev_app].
  now rewrite append_empty_r.
Qed.

End SplitKey.

(** X12. How [select] reads a key. A key without a double underscore names a
    column, and the method is [eq]. A key made of a column name, a double
    underscore and a method name is read back as that column and that
    method. Either way the method is checked before the column is looked up,
    and a key that splits into more than two parts is refused before either. *)
Theorem select_reads_key {C : Type} (env : Env C) (column method : string)
    (values : selarg) :
  Str.split_dunder column = [column] ->
  Str.split_dunder method = [method] ->
  select_key env column values = compiled env column "eq" values /\
  (plain column = true ->
   select_key env (column +:+ "__" +:+ method) values =
     compiled env column method values) /\
  (forall key, (2 < length (Str.split_dunder key))%nat ->
     exists e, exn_cls e = ValueError /\ select_key env key values = Raise e).
Proof.
  intros Hcolumn Hmethod. split; [|split].
  - unfold select_key, compiled, Str.has_dunder. rewrite Hcolumn. cbn [length Nat.eqb negb].
    now destruct (has_selector env "eq").
  - intros Hplain. unfold select_key, compiled, Str.has_dunder.
    rewrite (split_dunder_plain column method Hplain Hmethod).
    cbn [length Nat.eqb negb].
    now destruct (has_selector env method).
  - intros key Hlen. unfold select_key, Str.has_dunder.
    destruct (Str.split_dunder key) as [|a [|b [|c rest]]]; simpl in Hlen; try lia.
    eexists. split; [|reflexivity]. reflexivity.
Qed.

Lemma select_reads_key_witness :
  select_key (Mock.env []) "sessions__gt" (One (VInt 10)) = Ok ["ga:sessions>10"] /\
  select_key (Mock.env []) "browser" (Many [VStr "Chrome"; VStr "Firefox"]) =
    Ok ["ga:browser==Chrome"; "ga:browser==Firefox"] /\
  exists e, exn_cls e = ValueError /\
    select_key (Mock.env []) "a__b__c" (One VNone) = Raise e.
Proof.
  split; [|split].
  - exact (proj1 (proj2 (select_reads_key (Mock.env []) "sessions" "gt"
                           (One (VInt 10)) eq_refl eq_refl)) eq_refl).
  - exact (proj1 (select_reads_key (Mock.env []) "browser" "eq"
                    (Many [VStr "Chrome"; VStr "Firefox"]) eq_refl eq_refl)).
  - apply (proj2 (proj2 (select_reads_key (Mock.env []) "a" "b" (One VNone)
                           eq_refl eq_refl))).
    vm_compute. lia.
Defined.

(** X13. [select] compiles the keys one by one, in the order of the
    selection: it returns the expressions of all keys, those of a key
    together and in the order of its values, exactly when every key
    compiles; and the first key that does not compile gives the error. *)
Theorem select_compiles_key_by_key {C : Type} (env : Env C)
    (selection : list (string * selarg)) :
  (forall exprs,
     select env selection = Ok exprs <->
     exists groups,
       Forall2 (fun kv group => select_key env (fst kv) (snd kv) = Ok group)
         selection groups /\
       exprs = concat groups) /\
  (forall e,
     select env selection = Raise e <->
     exists before kv after groups,
       selection = before ++ kv :: after /\
       Forall2 (fun kv group => select_key env (fst kv) (snd kv) = Ok group)
         before groups /\
       select_key env (fst kv) (snd kv) = Raise e).
Proof.
  induction selection as [|[key values] rest [IHok IHerr]].
  - split.
    + intros exprs. simpl. split.
      * intros [= <-]. exists []. split; [constructor|reflexivity].
      * intros (groups & Hg & ->). inversion Hg. reflexivity.
    + intros e. simpl. split; [discriminate|].
      intros (before & kv & after & groups & Heq & _).
      now destruct before.
  - split.
    + intros exprs. cbn [select].
      destruct (select_key env key values) as [group|e] eqn:Hkey.
      * destruct (select env rest) as [more|e] eqn:Hrest.
        -- split.
           ++ intros [= <-]. destruct (proj1 (IHok more) eq_refl) as (groups & Hg & ->).
              exists (group :: groups). split; [|reflexivity].
              constructor; [exact Hkey|exact Hg].
           ++ intros (groups & Hg & ->). inversion Hg as [|? g ? gs Hk Hgs]; subst.
              simpl in Hk. rewrite Hkey in Hk. injection Hk as <-.
              assert (Hm : Ok more = Ok (concat gs)).
              { apply IHok. now exists gs. }
              injection Hm as ->. reflexivity.
        -- split; [discriminate|].
           intros (groups & Hg & ->). inversion Hg as [|? g ? gs Hk Hgs]; subst.
           assert (Hm : @Raise (list string) e = Ok (concat gs)).
           { apply IHok. now exists gs. }
           discriminate.
      * split; [discriminate|].
        intros (groups & Hg & ->). inversion Hg as [|? g ? gs Hk Hgs]; subst.
        simpl in Hk. rewrite Hkey in Hk. discriminate.
    + intros e. cbn [select].
      destruct (select_key env key values) as [group|e'] eqn:Hkey.
      * destruct (select env rest) as [more|e'] eqn:Hrest.
        -- split; [discriminate|].
           intros (before & kv & after & groups & Heq & Hg & Hkv).
           destruct before as [|kv0 before]; simpl in Heq; injection Heq as H1 H2; subst.
           ++ simpl in Hkv. rewrite Hkey in Hkv. discriminate.
           ++ inversion Hg as [|? g ? gs Hk Hgs]; subst.
              assert (Hm : Ok more = @Raise (list string) e).
              { apply IHerr. now exists before, kv, after, gs. }
              discriminate.
        -- split.
           ++ intros [= <-].
              destruct (proj1 (IHerr e') eq_refl)
                as (before & kv & after & groups & -> & Hg & Hkv).
              exists ((key, values) :: before), kv, after, (group :: groups).
              split; [reflexivity|]. split; [|exact Hkv].
              constructor; [exact Hkey|exact Hg].
           ++ intros (before & kv & after & groups & Heq & Hg & Hkv).
              destruct before as [|kv0 before]; simpl in Heq; injection Heq as H1 H2; subst.
              ** simpl in Hkv. rewrite Hkey in Hkv. discriminate.
              ** inversion Hg as [|? g ? gs Hk Hgs]; subst.
                 assert (Hm : @Raise (list string) e' = Raise e).
                 { apply IHerr. now exists before, kv, after, gs. }
                 exact Hm.
      * split.
        -- intros [= <-]. exists [], (key, values), rest, [].
           split; [reflexivity|]. split; [constructor|exact Hkey].
        -- intros (before & kv & after & groups & Heq & Hg & Hkv).
           destruct before as [|kv0 before]; simpl in Heq; injection Heq as H1 H2; subst.
           ++ simpl in Hkv. rewrite Hkey in Hkv. now injection Hkv as <-.
           ++ inversion Hg as [|? g ? gs Hk Hgs]; subst.
              simpl in Hk. rewrite Hkey in Hk. discriminate.
Qed.

(** ** Filters *)

Section Groups.
Context {C : Type} (env : Env C).

(** A method that appends a group to a list of the options and pastes the
    groups into a parameter, on the clone of the receiver. *)
Lemma append_group_new (w : world C) (o : Query) (key param : string)
    (g : value) (pasted : string) (group : M C value) :
  list_option w o key ->
  (forall w', group w' = (Ok g, w')) ->
  paste_groups env (groups_of w o key ++ [g]) = Ok pasted ->
  (filters <- meta_setdefault_list (length (queries w)) key ;;
   g <- group ;;
   list_append filters g ;;;
   groups <- read_list filters ;;
   pasted <- lift (paste_groups env groups) ;;
   set_raw (length (queries w)) param (VStr pasted))%M
    (with_object w (derived (raw o) (meta o))) =
  (Ok tt, with_group w o key g (Dict.set (raw o) param (VStr pasted))).
Proof.
  unfold list_option, groups_of, with_group. intros Hopt Hgroup Hpaste.
  unfold bind at 1, meta_setdefault_list, bind at 1. rewrite read_query_new.
  cbn [meta derived].
  destruct (meta o !! key) as [[v|l]|] eqn:Hkey; [contradiction| |].
  - destruct Hopt as [vs Hvs]. rewrite Hvs in *.
    change (default [] (Some vs)) with vs in *.
    unfold ret at 1. unfold bind at 1. rewrite Hgroup.
    unfold bind at 1, list_append at 1.
    cbn [lists with_object set_queries]. rewrite Hvs.
    unfold bind at 1, read_list at 1. cbn [lists set_lists].
    rewrite list_lookup_insert_eq by (now apply lookup_lt_Some in Hvs).
    unfold bind at 1, lift at 1. rewrite Hpaste.
    exact (set_raw_new (set_lists w (<[l:=vs ++ [g]]> (lists w)))
             (derived (raw o) (meta o)) param (VStr pasted)).
  - unfold bind at 1, alloc_list at 1. cbn [lists with_object set_queries].
    unfold bind at 1.
    change (set_lists (with_object w (derived (raw o) (meta o))) (lists w ++ [[]]))
      with (with_object (set_lists w (lists w ++ [[]])) (derived (raw o) (meta o))).
    change (length (queries w))
      with (length (queries (set_lists w (lists w ++ [[]])))) at 1.
    rewrite write_query_new. unfold ret at 1.
    unfold bind at 1. rewrite Hgroup.
    unfold bind at 1, list_append at 1.
    cbn [lists with_object set_queries set_lists]. rewrite lookup_snoc.
    unfold bind at 1, read_list at 1. cbn [lists set_lists].
    rewrite insert_snoc, lookup_snoc.
    unfold bind at 1, lift at 1. cbn [app] in *. rewrite Hpaste.
    exact (set_raw_new (set_lists w (lists w ++ [[g]]))
             (with_meta (derived (raw o) (meta o))
                (<[key:=MRef (length (lists w))]> (meta o)))
             param (VStr pasted)).
Qed.

End Groups.

Section FilterRuns.
Context {C : Type} (env : Env C).

(** The group of a call of [filter], as its body computes it. *)
Lemma filter_group_run (val : option string) (selection : list (string * selarg))
    (w : world C) :
  (if str_truthy val && negb (Nat.eqb (length selection) 0) then
     error ValueError conflict_message
   else if str_truthy val then ret (VList [default "" val])
   else if negb (Nat.eqb (length selection) 0) then
     (exprs <- lift (select env selection) ;; ret (VList exprs))%M
   else ret (match val with Some s => VStr s | None => VNone end)) w =
  (filter_group env val selection, w).
Proof.
  unfold filter_group, error, throw, ret, bind, lift.
  destruct selection as [|kv rest]; cbn [length Nat.eqb negb andb].
  - rewrite andb_false_r. destruct val as [s|]; [|reflexivity].
    cbn [str_truthy]. now destruct (String.eqb s "").
  - rewrite andb_true_r. destruct (str_truthy val); [reflexivity|].
    now destruct (select env (kv :: rest)).
Qed.

(** The run of [filter] when the group is computed and the groups are
    pasted. *)
Lemma filter_run (w : world C) (q : qid) (o : Query) (val : option string)
    (selection : list (string * selarg)) (g : value) (pasted : string) :
  queries w !! q = Some o ->
  list_option w o "filters" ->
  filter_group env val selection = Ok g ->
  paste_groups env (groups_of w o "filters" ++ [g]) = Ok pasted ->
  filter env val selection q w =
    (Ok (length (queries w)),
     with_group w o "filters" g (Dict.set (raw o) "filters" (VStr pasted))).
Proof.
  intros Hq Hopt Hg Hpaste. unfold filter.
  rewrite (immutable_run env _ w q o Hq). unfold filter_body.
  erewrite (append_group_new env w o "filters" "filters" g pasted);
    [reflexivity|exact Hopt| |exact Hpaste].
  intros w'. now rewrite filter_group_run, Hg.
Qed.

(** The run of [filter] when the group cannot be computed. *)
Lemma filter_raise (w : world C) (q : qid) (o : Query) (val : option string)
    (selection : list (string * selarg)) (e : exn) :
  queries w !! q = Some o ->
  list_option w o "filters" ->
  filter_group env val selection = Raise e ->
  refuses w e (filter env val selection q w).
Proof.
  intros Hq Hopt Hg.
  assert (Hrun : exists w',
            filter env val selection q w = (Raise e, w') /\
            forall q' o', queries w !! q' = Some o' -> queries w' !! q' = Some o').
  { unfold filter. rewrite (immutable_run env _ w q o Hq). unfold filter_body.
    unfold bind at 1, meta_setdefault_list, bind at 1. rewrite read_query_new.
    cbn [meta derived]. unfold list_option in Hopt.
    destruct (meta o !! "filters") as [[v|l]|] eqn:Hkey; [contradiction| |].
    - unfold ret at 1, bind at 1. rewrite filter_group_run, Hg.
      eexists. split; [reflexivity|].
      intros q' o' Hq'. now apply lookup_with_object_lt.
    - unfold bind at 1, alloc_list at 1. cbn [lists with_object set_queries].
      unfold bind at 1, write_query at 1, ret at 1, bind at 1.
      rewrite filter_group_run, Hg.
      eexists. split; [reflexivity|]. intros q' o' Hq'.
      cbn [snd queries set_queries set_lists with_object].
      assert (Hlt : (q' < length (queries w))%nat) by now apply lookup_lt_Some in Hq'.
      rewrite list_lookup_insert_ne by lia. now apply lookup_snoc_lt. }
  destruct Hrun as (w' & Hrun & Hkeep). unfold refuses. rewrite Hrun.
  split; [reflexivity|exact Hkeep].
Qed.

End FilterRuns.

(** X14. [filter] appends one group to the filters of the query and returns
    a new query whose parameter [filters] pastes all groups, the earlier
    ones first: the group is the filter string alone, or the expressions
    that the keyword selection compiles to. The receiver keeps its
    parameters. But when the receiver already has a list of filters, the new
    group is appended to that very list, which the receiver goes on
    referring to. *)
Theorem filter_appends_group {C : Type} (env : Env C) (w : world C) (q : qid)
    (o : Query) (val : option string) (selection : list (string * selarg))
    (g : value) (pasted : string) :
  queries w !! q = Some o ->
  list_option w o "filters" ->
  filter_group env val selection = Ok g ->
  paste_groups env (groups_of w o "filters" ++ [g]) = Ok pasted ->
  let run := filter env val selection q w in
  (exists q' o',
     fst run = Ok q' /\ queries w !! q' = None /\
     queries (snd run) !! q' = Some o' /\
     raw o' = Dict.set (raw o) "filters" (VStr pasted) /\
     groups_of (snd run) o' "filters" = groups_of w o "filters" ++ [g]) /\
  queries (snd run) !! q = Some o /\
  (forall l, meta o !! "filters" = Some (MRef l) ->
     groups_of (snd run) o "filters" = groups_of w o "filters" ++ [g]) /\
  (forall s, s <> "" -> val = Some s -> selection = [] -> g = VList [s]) /\
  (forall exprs, str_truthy val = false -> selection <> [] ->
     select env selection = Ok exprs -> g = VList exprs).
Proof.
  intros Hq Hopt Hg Hpaste run.
  assert (Hlt : (q < length (queries w))%nat) by now apply lookup_lt_Some in Hq.
  unfold run. rewrite (filter_run env w q o val selection g pasted Hq Hopt Hg Hpaste).
  cbn [fst snd]. unfold with_group, groups_of, list_option in *.
  split; [|split; [|split; [|split]]].
  - exists (length (queries w)).
    destruct (meta o !! "filters") as [[v|l]|] eqn:Hkey; [contradiction| |].
    + destruct Hopt as [vs Hvs]. rewrite Hvs.
      eexists. split; [reflexivity|]. split; [apply lookup_ge_None; lia|].
      split; [unfold with_object; cbn [queries set_queries set_lists];
              apply lookup_snoc|]. split; [reflexivity|].
      cbn [meta derived]. rewrite Hkey. cbn [lists with_object set_queries set_lists].
      rewrite list_lookup_insert_eq by (now apply lookup_lt_Some in Hvs).
      reflexivity.
    + eexists. split; [reflexivity|]. split; [apply lookup_ge_None; lia|].
      split; [unfold with_object; cbn [queries set_queries set_lists];
              apply lookup_snoc|]. split; [reflexivity|].
      cbn [meta derived]. rewrite lookup_insert_eq.
      cbn [lists with_object set_queries set_lists]. now rewrite lookup_snoc.
  - destruct (meta o !! "filters") as [[v|l]|];
      unfold with_object; cbn [queries set_queries set_lists];
      now apply lookup_snoc_lt.
  - intros l Hl. rewrite Hl in *. destruct Hopt as [vs Hvs]. rewrite Hvs.
    cbn [lists with_object set_queries set_lists].
    rewrite list_lookup_insert_eq by (now apply lookup_lt_Some in Hvs).
    reflexivity.
  - intros s Hs -> ->. unfold filter_group in Hg.
    destruct (String.eqb_spec s ""); [contradiction|]. now injection Hg as <-.
  - intros exprs Hval Hsel Hexprs. unfold filter_group in Hg.
    destruct selection; [contradiction|]. rewrite Hval, Hexprs in Hg.
    now injection Hg as <-.
Qed.

Lemma filter_appends_group_witness :
  let E := Mock.env [] in
  let run := filter E None [("browser", Many [VStr "Chrome"; VStr "Firefox"])]
               0%nat (Fixtures.base_world None) in
  exists q' o',
    fst run = Ok q' /\ queries (Fixtures.base_world None) !! q' = None /\
    queries (snd run) !! q' = Some o' /\
    raw o' = Dict.set (raw Fixtures.base) "filters"
               (VStr "ga:browser==Chrome,ga:browser==Firefox") /\
    groups_of (snd run) o' "filters" =
      groups_of (Fixtures.base_world None) Fixtures.base "filters" ++
      [VList ["ga:browser==Chrome"; "ga:browser==Firefox"]].
Proof.
  exact (proj1 (filter_appends_group (Mock.env []) (Fixtures.base_world None) 0%nat
                  Fixtures.base None
                  [("browser", Many [VStr "Chrome"; VStr "Firefox"])]
                  (VList ["ga:browser==Chrome"; "ga:browser==Firefox"])
                  "ga:browser==Chrome,ga:browser==Firefox"
                  eq_refl I eq_refl eq_refl)).
Defined.

(** X15. [filter] refuses a filter string together with a keyword selection
    with a [ValueError], and passes on the error of a selection that does
    not compile; no query object that existed is changed. *)
Theorem filter_refuses_conflict {C : Type} (env : Env C) (w : world C) (q : qid)
    (o : Query) (val : option string) (selection : list (string * selarg)) :
  queries w !! q = Some o ->
  list_option w o "filters" ->
  selection <> [] ->
  (str_truthy val = true ->
   refuses w (raise_of ValueError conflict_message) (filter env val selection q w)) /\
  (forall e, str_truthy val = false -> select env selection = Raise e ->
     refuses w e (filter env val selection q w)).
Proof.
  intros Hq Hopt Hsel. split.
  - intros Hval. apply filter_raise with (o := o); [exact Hq|exact Hopt|].
    unfold filter_group. destruct selection; [contradiction|]. now rewrite Hval.
  - intros e Hval Hraise. apply filter_raise with (o := o); [exact Hq|exact Hopt|].
    unfold filter_group. destruct selection; [contradiction|].
    now rewrite Hval, Hraise.
Qed.

Lemma filter_refuses_conflict_witness :
  fst (filter (Mock.env []) (Some "ga:pageviews>10") [("browser", One (VStr "Chrome"))]
         0%nat (Fixtures.base_world None)) =
    Raise (raise_of ValueError conflict_message).
Proof.
  exact (proj1 (proj1 (filter_refuses_conflict (Mock.env []) (Fixtures.base_world None)
                  0%nat Fixtures.base (Some "ga:pageviews>10")
                  [("browser", One (VStr "Chrome"))] eq_refl I ltac:(discriminate))
                  eq_refl)).
Defined.

(** What a call of [filter] leaves behind. *)
Lemma filter_facts {C : Type} (env : Env C) (w : world C) (q : qid)
    (o : Query) (val : option string) (selection : list (string * selarg))
    (g : value) (pasted : string) :
  queries w !! q = Some o ->
  list_option w o "filters" ->
  filter_group env val selection = Ok g ->
  paste_groups env (groups_of w o "filters" ++ [g]) = Ok pasted ->
  exists w' o' l',
    filter env val selection q w = (Ok (length (queries w)), w') /\
    queries w' = queries w ++ [o'] /\
    raw o' = Dict.set (raw o) "filters" (VStr pasted) /\
    meta o' !! "filters" = Some (MRef l') /\
    lists w' !! l' = Some (groups_of w o "filters" ++ [g]).
Proof.
  intros Hq Hopt Hg Hpaste.
  rewrite (filter_run env w q o val selection g pasted Hq Hopt Hg Hpaste).
  unfold with_group, groups_of, list_option in *.
  destruct (meta o !! "filters") as [[v|l]|] eqn:Hkey; [contradiction| |].
  - destruct Hopt as [vs Hvs]. rewrite Hvs.
    eexists _, _, l. split; [reflexivity|].
    split; [reflexivity|]. split; [reflexivity|]. split; [exact Hkey|].
    cbn [lists with_object set_queries set_lists].
    now rewrite list_lookup_insert_eq by (now apply lookup_lt_Some in Hvs).
  - eexists _, _, (length (lists w)). split; [reflexivity|].
    split; [reflexivity|]. split; [reflexivity|].
    split; [cbn [meta derived]; apply lookup_insert_eq|].
    cbn [lists with_object set_queries set_lists]. apply lookup_snoc.
Qed.

(** X16. The queries derived from one query share its list of filters. Let
    [q1 = q.filter(a)], then [q2 = q1.filter(b)], then [q3 = q1.filter(c)].
    The parameter [filters] of [q1] pastes the group of [a] and that of [q2]
    the groups of [a] and [b]; that of [q3] pastes the groups of [a], [b]
    and [c], although [q3] was derived from [q1] and not from [q2]. *)
Theorem filter_siblings_share_groups {C : Type} (env : Env C) (w : world C)
    (q : qid) (o : Query) (a b c p1 p2 p3 : string) :
  queries w !! q = Some o ->
  meta o !! "filters" = None ->
  a <> "" -> b <> "" -> c <> "" ->
  paste_groups env [VList [a]] = Ok p1 ->
  paste_groups env [VList [a]; VList [b]] = Ok p2 ->
  paste_groups env [VList [a]; VList [b]; VList [c]] = Ok p3 ->
  exists q1 q2 q3 w3 o1 o2 o3,
    (q1 <- filter env (Some a) [] q ;;
     q2 <- filter env (Some b) [] q1 ;;
     q3 <- filter env (Some c) [] q1 ;;
     ret (q1, q2, q3))%M w = (Ok (q1, q2, q3), w3) /\
    queries w3 !! q1 = Some o1 /\
    queries w3 !! q2 = Some o2 /\
    queries w3 !! q3 = Some o3 /\
    Dict.get (raw o1) "filters" = Some (VStr p1) /\
    Dict.get (raw o2) "filters" = Some (VStr p2) /\
    Dict.get (raw o3) "filters" = Some (VStr p3).
Proof.
  intros Hq Hnone Ha Hb Hc Hp1 Hp2 Hp3.
  assert (Hgroup : forall s, s <> "" ->
            filter_group env (Some s) [] = Ok (VList [s])).
  { intros s Hs. unfold filter_group. now destruct (String.eqb_spec s ""). }
  (* the first call *)
  destruct (filter_facts env w q o (Some a) [] (VList [a]) p1 Hq) as
    (w1 & o1 & l1 & Hrun1 & Hqs1 & Hraw1 & Hmeta1 & Hlist1);
    [unfold list_option; now rewrite Hnone | now apply Hgroup
    | unfold groups_of; now rewrite Hnone |].
  unfold groups_of in Hlist1. rewrite Hnone in Hlist1. cbn [app] in Hlist1.
  assert (Hq1 : queries w1 !! length (queries w) = Some o1).
  { rewrite Hqs1. apply lookup_snoc. }
  (* the second call, on the first query *)
  destruct (filter_facts env w1 (length (queries w)) o1 (Some b) [] (VList [b]) p2 Hq1)
    as (w2 & o2 & l2 & Hrun2 & Hqs2 & Hraw2 & Hmeta2 & Hlist2);
    [unfold list_option; rewrite Hmeta1; now rewrite Hlist1 | now apply Hgroup
    | unfold groups_of; rewrite Hmeta1, Hlist1; exact Hp2 |].
  assert (Hl2 : lists w2 !! l1 = Some [VList [a]; VList [b]]).
  { pose proof (filter_run env w1 (length (queries w)) o1 (Some b) [] (VList [b]) p2
                  Hq1) as Hrun.
    rewrite Hrun in Hrun2;
      [|unfold list_option; rewrite Hmeta1; now rewrite Hlist1 | now apply Hgroup
       |unfold groups_of; rewrite Hmeta1, Hlist1; exact Hp2].
    injection Hrun2 as <-. unfold with_group. rewrite Hmeta1, Hlist1.
    cbn [lists with_object set_queries set_lists].
    now rewrite list_lookup_insert_eq by (now apply lookup_lt_Some in Hlist1). }
  assert (Hq1' : queries w2 !! length (queries w) = Some o1).
  { rewrite Hqs2. now apply lookup_snoc_lt. }
  (* the third call, on the first query again *)
  destruct (filter_facts env w2 (length (queries w)) o1 (Some c) [] (VList [c]) p3 Hq1')
    as (w3 & o3 & l3 & Hrun3 & Hqs3 & Hraw3 & Hmeta3 & Hlist3);
    [unfold list_option; rewrite Hmeta1; now rewrite Hl2 | now apply Hgroup
    | unfold groups_of; rewrite Hmeta1, Hl2; exact Hp3 |].
  exists (length (queries w)), (length (queries w1)), (length (queries w2)), w3,
    o1, o2, o3.
  split; [|split; [|split; [|split; [|split; [|split]]]]].
  - unfold bind. now rewrite Hrun1, Hrun2, Hrun3.
  - rewrite Hqs3. apply lookup_snoc_lt. exact Hq1'.
  - rewrite Hqs3. apply lookup_snoc_lt. rewrite Hqs2. apply lookup_snoc.
  - rewrite Hqs3. apply lookup_snoc.
  - rewrite Hraw1. apply dict_get_set_eq.
  - rewrite Hraw2. apply dict_get_set_eq.
  - rewrite Hraw3. apply dict_get_set_eq.
Qed.

Lemma filter_siblings_share_groups_witness :
  let E := Mock.env [] in
  exists q1 q2 q3 w3 o1 o2 o3,
    (q1 <- filter E (Some "a") [] 0%nat ;;
     q2 <- filter E (Some "b") [] q1 ;;
     q3 <- filter E (Some "c") [] q1 ;;
     ret (q1, q2, q3))%M (Fixtures.base_world None) = (Ok (q1, q2, q3), w3) /\
    queries w3 !! q1 = Some o1 /\
    queries w3 !! q2 = Some o2 /\
    queries w3 !! q3 = Some o3 /\
    Dict.get (raw o1) "filters" = Some (VStr "a") /\
    Dict.get (raw o2) "filters" = Some (VStr "a;b") /\
    Dict.get (raw o3) "filters" = Some (VStr "a;b;c").
Proof.
  exact (filter_siblings_share_groups (Mock.env []) (Fixtures.base_world None)
           0%nat Fixtures.base "a" "b" "c" "a" "a;b" "a;b;c"
           eq_refl eq_refl ltac:(discriminate) ltac:(discriminate)
           ltac:(discriminate) eq_refl eq_refl eq_refl).
Defined.

(** ** Segments of users and of sessions *)

(** X17. [users] with a keyword selection is [segment] with the scope
    [users]: it appends to the segments one group, in which every condition
    that the selection compiles to is written [users::condition::] and the
    condition, and returns a new query whose parameter [segment] pastes all
    groups. The two other methods for segments never return a query:
    [sessions()] raises [NameError] before anything is created, and
    [segment_sequence] raises [NotImplementedError] whatever its arguments. *)
Theorem users_compiles_user_conditions {C : Type} (env : Env C) (w : world C)
    (q : qid) (o : Query) (selection : list (string * selarg))
    (conditions : list string) (pasted : string) :
  queries w !! q = Some o ->
  list_option w o "segments" ->
  selection <> [] ->
  select env selection = Ok conditions ->
  let g := VList (map (fun c => Str.join "::" (nonempty_parts ["users"; "condition"; c]))
                    conditions) in
  paste_groups env (groups_of w o "segments" ++ [g]) = Ok pasted ->
  users env VNone None selection q w =
    (Ok (length (queries w)),
     with_group w o "segments" g (Dict.set (raw o) "segment" (VStr pasted))) /\
  (forall (w' : world C) (q' : qid),
     sessions q' w' =
       (Raise (raise_of (OtherException "NameError") "name 'kwargs' is not defined"),
        w')) /\
  (forall followed_by immediately_followed_by first,
     refuses w (raise_of NotImplementedError "")
       (segment_sequence env followed_by immediately_followed_by first q w)).
Proof.
  intros Hq Hopt Hsel Hconds g Hpaste. split; [|split; [reflexivity|]].
  2:{ intros a b c. unfold refuses, segment_sequence.
      rewrite (immutable_run env _ w q o Hq). split; [reflexivity|].
      intros q' o' Hq'. now apply lookup_with_object_lt. }
  unfold users, segment. rewrite (immutable_run env _ w q o Hq).
  unfold segment_body.
  erewrite (append_group_new env w o "segments" "segment" g pasted);
    [reflexivity|exact Hopt| |exact Hpaste].
  intros w'. destruct selection as [|kv rest]; [contradiction|].
  cbn [truthy andb length Nat.eqb negb].
  unfold bind, lift, ret, segment_selection.
  cbn [str_truthy String.eqb Ascii.eqb Bool.eqb negb]. rewrite Hconds.
  unfold g. do 3 f_equal. apply map_ext. intros c.
  apply segment_expression_no_metric_scope; [discriminate|reflexivity].
Qed.

Lemma users_compiles_user_conditions_witness :
  fst (users (Mock.env []) VNone None [("sessions__gt", One (VInt 10))] 0%nat
         (Fixtures.base_world None)) = Ok 1%nat /\
  (raw <$> queries (snd (users (Mock.env []) VNone None
                           [("sessions__gt", One (VInt 10))] 0%nat
                           (Fixtures.base_world None))) !! 1%nat) =
    Some (Dict.set (raw Fixtures.base) "segment"
            (VStr "users::condition::ga:sessions>10")).
Proof.
  rewrite (proj1 (users_compiles_user_conditions (Mock.env [])
                    (Fixtures.base_world None) 0%nat Fixtures.base
                    [("sessions__gt", One (VInt 10))] ["ga:sessions>10"]
                    "users::condition::ga:sessions>10"
                    eq_refl I ltac:(discriminate) eq_refl eq_refl)).
  split; reflexivity.
Defined.

(** ** The description of a query *)

Section Description.
Context {C : Type}.

Lemma get_raw_run (w : world C) (q : qid) (o : Query) (key : string) :
  queries w !! q = Some o ->
  get_raw q key w =
    match Dict.get (raw o) key with
    | Some v => (Ok v, w)
    | None => (Raise (raise_of KeyError key), w)
    end.
Proof.
  intros Hq. unfold get_raw, bind, read_query. rewrite Hq.
  now destruct (Dict.get (raw o) key).
Qed.

Lemma chars_length (s : string) : length (Str.chars s) = String.length s.
Proof. induction s as [|c s IH]; [reflexivity|]. simpl. now rewrite IH. Qed.

(** The description of the items of the metrics. *)
Lemma description_items (w : world C) (q : qid) (o : Query) (v : value)
    (before : list string) (m : string) :
  queries w !! q = Some o ->
  Dict.get (raw o) "metrics" = Some v ->
  Py.iter v = Ok (before ++ [m]) ->
  description q w = (Ok (listed before m), w).
Proof.
  intros Hq Hget Hiter. unfold description, bind at 1.
  rewrite (get_raw_run w q o "metrics" Hq), Hget.
  assert (Hlen : Py.len v = Ok (length (before ++ [m]))).
  { destruct v as [| |s|l]; simpl in Hiter; try discriminate;
      injection Hiter as <-; simpl; [now rewrite chars_length|reflexivity]. }
  unfold bind at 1, lift at 1. rewrite Hlen.
  rewrite length_app. cbn [length]. rewrite Nat.add_1_r. cbn [Nat.eqb negb].
  unfold bind at 1, lift at 1. rewrite Hiter.
  rewrite removelast_last, last_snoc.
  destruct before as [|b before]; [reflexivity|].
  cbn [length Nat.ltb Nat.leb listed]. reflexivity.
Qed.

End Description.

(** X18. [description] reads the query and changes nothing. For one metric
    it is the identifier of the metric; for more it is the identifiers
    joined by a comma and a space, the last one after the word [and];
    without metrics it is [n/a]. Once the metrics have been joined into one
    string, which reading the signature does, it lists the characters of
    that string in the same way. *)
Theorem description_lists_metrics {C : Type} (w : world C) (q : qid) (o : Query) :
  queries w !! q = Some o ->
  (forall before m,
     Dict.get (raw o) "metrics" = Some (VList (before ++ [m])) ->
     description q w = (Ok (listed before m), w)) /\
  (Dict.get (raw o) "metrics" = Some (VList []) ->
   description q w = (Ok "n/a", w)) /\
  (forall s before c,
     Dict.get (raw o) "metrics" = Some (VStr s) ->
     Str.chars s = before ++ [c] ->
     description q w = (Ok (listed before c), w)).
Proof.
  intros Hq. split; [|split].
  - intros before m Hget. now apply description_items with (o := o) (v := VList (before ++ [m])).
  - intros Hget. unfold description, bind.
    now rewrite (get_raw_run w q o "metrics" Hq), Hget.
  - intros s before c Hget Hchars.
    apply description_items with (o := o) (v := VStr s); [exact Hq|exact Hget|].
    simpl. now rewrite Hchars.
Qed.

Lemma description_lists_metrics_witness :
  let w := set_queries (fresh_world 0%Q (None : option Mock.cache_t))
             [derived [("metrics", VList ["ga:pageviews"; "ga:sessions"; "ga:users"])] ∅;
              derived [("metrics", VStr "ga:a")] ∅] in
  description 0%nat w = (Ok "ga:pageviews, ga:sessions and ga:users", w) /\
  description 1%nat w = (Ok "g, a, : and a", w).
Proof.
  split.
  - exact (proj1 (description_lists_metrics
                    (set_queries (fresh_world 0%Q (None : option Mock.cache_t))
                       [derived [("metrics", VList ["ga:pageviews"; "ga:sessions"; "ga:users"])] ∅;
                        derived [("metrics", VStr "ga:a")] ∅])
                    0%nat _ eq_refl) ["ga:pageviews"; "ga:sessions"] "ga:users" eq_refl).
  - exact (proj2 (proj2 (description_lists_metrics
                    (set_queries (fresh_world 0%Q (None : option Mock.cache_t))
                       [derived [("metrics", VList ["ga:pageviews"; "ga:sessions"; "ga:users"])] ∅;
                        derived [("metrics", VStr "ga:a")] ∅])
                    1%nat _ eq_refl)) "ga:a" ["g"; "a"; ":"] "a" eq_refl eq_refl).
Defined.

(** ** Executions with a cache *)

Section CachePath.
Context {C : Type} (env : Env C).

(** Building a report leaves the world as it is. *)
Lemma Report_append_world (r : Report) (p : response) (c : qid) (w : world C) :
  snd (Report_append env r p c w) = w.
Proof.
  unfold Report_append, bind, read_query, lift, ret, error, throw.
  destruct (queries w !! c) as [o|]; [|reflexivity]. cbn [fst snd].
  destruct (Dict.get (raw o) "metrics") as [v|]; [|reflexivity].
  destruct (Py.iter v); [|reflexivity].
  destruct (Py.iter _); [|reflexivity].
  destruct (res_mapM _ _); [|reflexivity].
  now destruct (totalsForAllResults p) as [|[k t] rest].
Qed.

Lemma Report_init_world (p : response) (c : qid) (w : world C) :
  snd (Report_init env p c w) = w.
Proof.
  unfold Report_init, bind, lift, error, throw.
  destruct (res_mapM _ _) as [headers|e]; [|reflexivity].
  destruct (negb _); [reflexivity|]. apply Report_append_world.
Qed.

(** A report cannot be built for a query whose dimensions are [None]. *)
Lemma Report_init_no_dimensions (p : response) (c : qid) (o : Query) (w : world C) :
  queries w !! c = Some o ->
  Dict.get (raw o) "dimensions" = Some VNone ->
  is_ok (fst (Report_init env p c w)) = false.
Proof.
  intros Hc Hds. unfold Report_init, bind, lift, error, throw.
  destruct (res_mapM _ _) as [headers|e]; [|reflexivity].
  destruct (negb _); [reflexivity|].
  unfold Report_append, bind, read_query, lift, ret, error, throw.
  rewrite Hc. destruct (Dict.get (raw o) "metrics") as [v|]; [|reflexivity].
  destruct (Py.iter v); [|reflexivity].
  unfold Dict.get_default. now rewrite Hds.
Qed.

(** The clause [except] of [execute] always raises. *)
Lemma execute_handler_raises (q : qid) (err : exn) (w : world C) :
  is_ok (fst (execute_handler env q err w)) = false /\
  snd (execute_handler env q err w) = w.
Proof.
  unfold execute_handler, bind, read_query, lift, error, throw.
  destruct (bool_decide _).
  - destruct (queries w !! q) as [o|]; [|now split].
    destruct (raw o); [now split|]. now destruct (paste_params env _).
  - now destruct (exn_content err).
Qed.

(** The parameters as built are cacheable when the parameters are. *)
Lemma cacheable_raw_built (r : dict value) (ms ds : list string) :
  cacheable_raw env (built_raw r ms ds) = cacheable_raw env r.
Proof.
  unfold cacheable_raw, built_raw. now rewrite !dict_get_set_ne by discriminate.
Qed.

(** The execution up to the response, when the cache holds the
    signature. *)
Lemma execute_hit (w : world C) (q : qid) (o : Query) (ms ds : list string) (cs : C) :
  queries w !! q = Some o ->
  Dict.get (raw o) "metrics" = Some (VList ms) ->
  Dict.get (raw o) "dimensions" = Some (VList ds) ->
  cache w = Some cs ->
  cacheable_raw env (raw o) = true ->
  cache_exists env cs (signature_of (built_raw (raw o) ms ds)) = true ->
  let wire := built_raw (raw o) ms ds in
  let w1 := set_queries w (<[q:=with_raw o wire]> (queries w)) in
  execute env q w =
    match cache_get env cs wire with
    | Ok response =>
        Report_init env response q
          (set_cache w1 (Some (cache_set env cs wire response)))
    | Raise e => (Raise e, w1)
    end.
Proof.
  intros Hq Hms Hds Hcache Hcacheable Hexists. cbv zeta.
  set (wire := built_raw (raw o) ms ds) in *.
  set (w1 := set_queries w (<[q:=with_raw o wire]> (queries w))).
  assert (Hlt : (q < length (queries w))%nat) by now apply lookup_lt_Some in Hq.
  assert (Hq1 : queries w1 !! q = Some (with_raw o wire)).
  { unfold w1. cbn. now apply list_lookup_insert_eq. }
  unfold execute, bind at 1.
  rewrite (build_lists true w q o ms ds Hq Hms Hds). fold wire.
  unfold bind at 1, get_cache at 1. rewrite Hcache.
  unfold bind at 1. unfold bind at 1.
  rewrite (cacheable_reads env w q o Hq), Hcacheable.
  unfold bind at 1. rewrite (signature_run w q o ms ds Hq Hms Hds).
  fold wire. fold w1. unfold ret at 1. rewrite Hexists.
  unfold bind at 1, lift at 1.
  destruct (cache_get env cs wire) as [response|e]; [|reflexivity].
  unfold bind at 1, get_cache at 1.
  replace (cache w1) with (Some cs) by (unfold w1; cbn; now rewrite Hcache).
  unfold bind at 1. unfold bind at 1.
  rewrite (cacheable_reads env w1 q _ Hq1). cbn [raw with_raw].
  unfold wire at 1. rewrite cacheable_raw_built, Hcacheable.
  reflexivity.
Qed.

(** The execution up to the response, when the cache does not hold the
    signature. *)
Lemma execute_miss (w : world C) (q : qid) (o : Query) (ms ds : list string) (cs : C) :
  queries w !! q = Some o ->
  Dict.get (raw o) "metrics" = Some (VList ms) ->
  Dict.get (raw o) "dimensions" = Some (VList ds) ->
  cache w = Some cs ->
  cacheable_raw env (raw o) = true ->
  cache_exists env cs (signature_of (built_raw (raw o) ms ds)) = false ->
  let wire := built_raw (raw o) ms ds in
  let w1 := set_queries w (<[q:=with_raw o wire]> (queries w)) in
  let w2 := after_call w1 q (with_raw o wire) wire in
  match endpoint env (length (calls w)) wire with
  | Ok response =>
      execute env q w =
        Report_init env response q
          (set_cache w2 (Some (cache_set env cs wire response)))
  | Raise err => exists e, execute env q w = (Raise e, w2)
  end.
Proof.
  intros Hq Hms Hds Hcache Hcacheable Hexists. cbv zeta.
  set (wire := built_raw (raw o) ms ds) in *.
  set (w1 := set_queries w (<[q:=with_raw o wire]> (queries w))).
  set (w2 := after_call w1 q (with_raw o wire) wire).
  assert (Hlt : (q < length (queries w))%nat) by now apply lookup_lt_Some in Hq.
  assert (Hq1 : queries w1 !! q = Some (with_raw o wire)).
  { unfold w1. cbn. now apply list_lookup_insert_eq. }
  assert (Hq2 : queries w2 !! q = Some (with_lock (with_raw o wire) (now w2))).
  { unfold w2, after_call. cbn [queries set_queries set_calls now set_now].
    apply list_lookup_insert_eq. unfold w1. cbn. now rewrite length_insert. }
  assert (Hstart : execute env q w =
            (response <- try_except (_wait q ;;; call_endpoint env wire)
                           (execute_handler env q) ;;
             c' <- get_cache ;;
             match c' with
             | None => ret tt
             | Some cs =>
                 b <- cacheable env q ;;
                 if b then (fun w => (Ok tt,
                              set_cache w (Some (cache_set env cs wire response))))
                 else ret tt
             end ;;;
             Report_init env response q)%M w1).
  { unfold execute, bind at 1.
    rewrite (build_lists true w q o ms ds Hq Hms Hds). fold wire.
    unfold bind at 1, get_cache at 1. rewrite Hcache.
    unfold bind at 1. unfold bind at 1.
    rewrite (cacheable_reads env w q o Hq), Hcacheable.
    unfold bind at 1. rewrite (signature_run w q o ms ds Hq Hms Hds).
    fold wire. fold w1. unfold ret at 1. rewrite Hexists. reflexivity. }
  assert (Hcall : try_except (_wait q ;;; call_endpoint env wire)%M
                    (execute_handler env q) w1 =
                  match endpoint env (length (calls w)) wire with
                  | Ok response => (Ok response, w2)
                  | Raise err => execute_handler env q err w2
                  end).
  { unfold try_except, bind. rewrite (_wait_run w1 q _ Hq1). cbv zeta.
    unfold call_endpoint. cbn [calls set_queries set_now].
    change (calls w1) with (calls w).
    fold (after_call w1 q (with_raw o wire) wire). fold w2.
    now destruct (endpoint env (length (calls w)) wire). }
  rewrite Hstart.
  destruct (endpoint env (length (calls w)) wire) as [response|err];
    unfold bind at 1; rewrite Hcall.
  - unfold bind at 1, get_cache at 1.
    replace (cache w2) with (Some cs)
      by (unfold w2, after_call, w1; cbn; now rewrite Hcache).
    unfold bind at 1. unfold bind at 1.
    rewrite (cacheable_reads env w2 q _ Hq2). cbn [raw with_raw with_lock].
    unfold wire at 1. rewrite cacheable_raw_built, Hcacheable.
    reflexivity.
  - destruct (execute_handler_raises q err w2) as [Hraise Hsame].
    destruct (execute_handler env q err w2) as [[r|e] w3]; [discriminate|].
    cbn [snd] in Hsame. subst w3. now exists e.
Qed.

End CachePath.

(** X19. When the cache holds the signature of a cacheable query, [execute]
    makes no outbound call and does not wait: the calls made, the clock and
    the [_lock] of the query are what they were. The response comes from the
    cache, and is written to the cache once more; when the cache fails to
    give it, its error is raised. *)
Theorem cache_hit_makes_no_call {C : Type} (env : Env C) (w : world C) (q : qid)
    (o : Query) (ms ds : list string) (cs : C) :
  queries w !! q = Some o ->
  Dict.get (raw o) "metrics" = Some (VList ms) ->
  Dict.get (raw o) "dimensions" = Some (VList ds) ->
  cache w = Some cs ->
  cacheable_raw env (raw o) = true ->
  cache_exists env cs (signature_of (built_raw (raw o) ms ds)) = true ->
  let run := execute env q w in
  calls (snd run) = calls w /\
  now (snd run) = now w /\
  (lock <$> queries (snd run) !! q) = Some (lock o) /\
  match cache_get env cs (built_raw (raw o) ms ds) with
  | Ok response =>
      cache (snd run) =
        Some (cache_set env cs (built_raw (raw o) ms ds) response)
  | Raise e => fst run = Raise e /\ cache (snd run) = Some cs
  end.
Proof.
  intros Hq Hms Hds Hcache Hcacheable Hexists run.
  assert (Hlt : (q < length (queries w))%nat) by now apply lookup_lt_Some in Hq.
  unfold run.
  rewrite (execute_hit env w q o ms ds cs Hq Hms Hds Hcache Hcacheable Hexists).
  destruct (cache_get env cs (built_raw (raw o) ms ds)) as [response|e].
  - rewrite Report_init_world. cbn.
    rewrite list_lookup_insert_eq by exact Hlt. auto.
  - cbn. rewrite list_lookup_insert_eq by exact Hlt. auto.
Qed.

Lemma cache_hit_makes_no_call_witness :
  let wire := built_raw (raw Fixtures.january) ["ga:pageviews"] [] in
  let cs := [(Mock.key_of wire, Mock.page 1 false)] in
  let w := set_cache Fixtures.january_world (Some cs) in
  calls (snd (execute (Mock.env []) 0%nat w)) = [] /\
  now (snd (execute (Mock.env []) 0%nat w)) = 1000%Q.
Proof.
  destruct (cache_hit_makes_no_call (Mock.env [])
              (set_cache Fixtures.january_world
                 (Some [(Mock.key_of (built_raw (raw Fixtures.january)
                                        ["ga:pageviews"] []),
                         Mock.page 1 false)]))
              0%nat Fixtures.january ["ga:pageviews"] []
              [(Mock.key_of (built_raw (raw Fixtures.january) ["ga:pageviews"] []),
                Mock.page 1 false)]
              eq_refl eq_refl eq_refl eq_refl eq_refl)
    as (Hcalls & Hnow & _).
  - vm_compute. reflexivity.
  - split; [exact Hcalls|exact Hnow].
Defined.

(** X20. With a cache configured, a cacheable query that has no dimensions
    cannot be executed: whether the cache holds its signature or not and
    whatever the service answers, [execute] raises. Reading the signature
    has replaced the empty list of dimensions by [None], which the report
    cannot iterate over. *)
Theorem cached_query_without_dimensions_cannot_run {C : Type} (env : Env C)
    (w : world C) (q : qid) (o : Query) (ms : list string) (cs : C) :
  queries w !! q = Some o ->
  Dict.get (raw o) "metrics" = Some (VList ms) ->
  Dict.get (raw o) "dimensions" = Some (VList []) ->
  cache w = Some cs ->
  cacheable_raw env (raw o) = true ->
  is_ok (fst (execute env q w)) = false /\
  (raw <$> queries (snd (execute env q w)) !! q) = Some (built_raw (raw o) ms []) /\
  Dict.get (built_raw (raw o) ms []) "dimensions" = Some VNone.
Proof.
  intros Hq Hms Hds Hcache Hcacheable.
  assert (Hlt : (q < length (queries w))%nat) by now apply lookup_lt_Some in Hq.
  set (wire := built_raw (raw o) ms []).
  assert (Hnone : Dict.get wire "dimensions" = Some VNone).
  { unfold wire, built_raw. apply dict_get_set_eq. }
  set (w1 := set_queries w (<[q:=with_raw o wire]> (queries w))).
  assert (Hq1 : queries w1 !! q = Some (with_raw o wire)).
  { unfold w1. cbn. now apply list_lookup_insert_eq. }
  assert (Hrun : is_ok (fst (execute env q w)) = false /\
                 (raw <$> queries (snd (execute env q w)) !! q) = Some wire).
  { destruct (cache_exists env cs (signature_of wire)) eqn:Hexists.
    - rewrite (execute_hit env w q o ms [] cs Hq Hms Hds Hcache Hcacheable Hexists).
      fold wire. fold w1.
      destruct (cache_get env cs wire) as [response|e].
      + rewrite Report_init_world. split.
        * apply Report_init_no_dimensions with (o := with_raw o wire);
            [exact Hq1|exact Hnone].
        * cbn [queries set_cache]. now rewrite Hq1.
      + split; [reflexivity|]. cbn [snd]. now rewrite Hq1.
    - pose proof (execute_miss env w q o ms [] cs Hq Hms Hds Hcache Hcacheable Hexists)
        as Hmiss.
      cbv zeta in Hmiss. fold wire in Hmiss. fold w1 in Hmiss.
      set (w2 := after_call w1 q (with_raw o wire) wire) in *.
      assert (Hq2 : queries w2 !! q = Some (with_lock (with_raw o wire) (now w2))).
      { unfold w2, after_call. cbn [queries set_queries set_calls now set_now].
        apply list_lookup_insert_eq. unfold w1. cbn. now rewrite length_insert. }
      destruct (endpoint env (length (calls w)) wire) as [response|err].
      + rewrite Hmiss, Report_init_world. split.
        * apply Report_init_no_dimensions
            with (o := with_lock (with_raw o wire) (now w2));
            [exact Hq2|exact Hnone].
        * cbn [queries set_cache]. now rewrite Hq2.
      + destruct Hmiss as [e Hmiss]. rewrite Hmiss.
        split; [reflexivity|]. cbn [snd]. now rewrite Hq2. }
  destruct Hrun as [Hfail Hraw]. auto.
Qed.

Lemma cached_query_without_dimensions_cannot_run_witness :
  is_ok (fst (execute (Mock.env [Ok (Mock.page 1 false)]) 0%nat
                (set_cache Fixtures.january_world (Some [])))) = false.
Proof.
  exact (proj1 (cached_query_without_dimensions_cannot_run
                  (Mock.env [Ok (Mock.page 1 false)])
                  (set_cache Fixtures.january_world (Some []))
                  0%nat Fixtures.january ["ga:pageviews"] []
                  eq_refl eq_refl eq_refl eq_refl eq_refl)).
Defined.

(** ** Reports *)

Section Reports.
Context {C : Type} (env : Env C).

(** What a successful [append] did. *)
Lemma Report_append_inv (r r' : Report) (p : response) (c : qid) (w w' : world C) :
  Report_append env r p c w = (Ok r', w') ->
  w' = w /\
  rp_rows r' = rp_rows r ++ typed_rows env (rp_headers r) p /\
  res_mapM (cast_row env (rp_headers r)) (default [] (rows p)) =
    Ok (typed_rows env (rp_headers r) p) /\
  rp_raw r' = rp_raw r ++ [p] /\
  rp_queries r' = rp_queries r ++ [c] /\
  rp_headers r' = rp_headers r /\
  rp_slugs r' = rp_slugs r /\
  rp_names r' = rp_names r /\
  rp_totals r' = totalsForAllResults p /\
  (snd <$> head (totalsForAllResults p)) = Some (rp_total r') /\
  rp_is_complete r' = negb (bool_decide (is_Some (nextLink p))).
Proof.
  unfold Report_append, bind, read_query, lift, ret, error, throw, typed_rows.
  destruct (queries w !! c) as [o|]; [|discriminate].
  destruct (Dict.get (raw o) "metrics") as [v|]; [|discriminate].
  destruct (Py.iter v) as [ms|]; [|discriminate].
  destruct (Py.iter _) as [ds|]; [|discriminate].
  destruct (res_mapM _ _) as [typed|]; [|discriminate].
  destruct (totalsForAllResults p) as [|[k t] rest] eqn:Htotals; [discriminate|].
  intros [= <- <-]. cbn. repeat split; reflexivity.
Qed.

(** What a successful construction of a report did. *)
Lemma Report_init_inv (r : Report) (p : response) (c : qid) (w w' : world C) :
  Report_init env p c w = (Ok r, w') ->
  w' = w /\
  res_mapM (registry_lookup env) (columnHeaders p) = Ok (rp_headers r) /\
  NoDup (rp_slugs r) /\
  rp_slugs r = map col_pyslug (rp_headers r) /\
  rp_names r = map col_name (rp_headers r) /\
  rp_rows r = typed_rows env (rp_headers r) p /\
  res_mapM (cast_row env (rp_headers r)) (default [] (rows p)) = Ok (rp_rows r) /\
  rp_raw r = [p] /\
  rp_queries r = [c] /\
  rp_totals r = totalsForAllResults p /\
  rp_is_complete r = negb (bool_decide (is_Some (nextLink p))).
Proof.
  unfold Report_init, bind at 1, lift at 1.
  destruct (res_mapM (registry_lookup env) (columnHeaders p)) as [headers|];
    [|discriminate].
  destruct (bool_decide (NoDup (map col_pyslug headers))) eqn:Hnodup;
    cbn [negb]; [|discriminate].
  apply bool_decide_eq_true in Hnodup.
  intros Hrun. apply Report_append_inv in Hrun.
  cbn [rp_rows rp_raw rp_queries rp_headers rp_slugs rp_names app] in Hrun.
  destruct Hrun as (-> & Hrows & Hcast & Hraw & Hqs & Hh & Hslugs & Hnames & Htot & _ & Hc).
  rewrite Hh, Hslugs, Hnames, Hrows.
  repeat split; auto.
Qed.

(** The rows that [cast_row] makes. *)
Lemma cast_row_cells (headers : list Column) :
  forall (cells : list string) (vs : list value),
  cast_row env headers cells = Ok vs ->
  length vs = length headers /\
  forall i v, vs !! i = Some v -> cast_of env headers cells i v.
Proof.
  induction headers as [|h hs IH]; intros cells vs H; simpl in H.
  - injection H as <-. split; [reflexivity|]. intros i v Hi. discriminate.
  - destruct cells as [|x xs]; [discriminate|].
    destruct (cast env h x) as [v0|] eqn:Hcast; [|discriminate].
    destruct (cast_row env hs xs) as [vs0|] eqn:Hrest; [|discriminate].
    injection H as <-. destruct (IH xs vs0 Hrest) as [Hlen Hcells].
    split; [simpl; now rewrite Hlen|].
    intros [|i] v Hi; simpl in Hi.
    + injection Hi as <-. now exists h, x.
    + destruct (Hcells i v Hi) as (h' & x' & Hh & Hx & Hv). now exists h', x'.
Qed.

(** Cells beyond the headers are not read, and a row that is too short is
    refused once its cells are cast. *)
Lemma cast_row_extra (headers : list Column) :
  forall (cells extra : list string) (vs : list value),
  cast_row env headers cells = Ok vs ->
  cast_row env headers (cells ++ extra) = Ok vs.
Proof.
  induction headers as [|h hs IH]; intros cells extra vs H; simpl in *.
  - exact H.
  - destruct cells as [|x xs]; [discriminate|]. simpl.
    destruct (cast env h x) as [v0|]; [|discriminate].
    destruct (cast_row env hs xs) as [vs0|] eqn:Hrest; [|discriminate].
    now rewrite (IH xs extra vs0 Hrest).
Qed.

Lemma res_mapM_lookup {A B} (f : A -> res B) (l : list A) (l' : list B) :
  res_mapM f l = Ok l' ->
  forall k b, l' !! k = Some b -> exists a, l !! k = Some a /\ f a = Ok b.
Proof.
  revert l'. induction l as [|a l IH]; intros l' H k b Hk; simpl in H.
  - injection H as <-. discriminate.
  - destruct (f a) as [b0|] eqn:Hf; [|discriminate].
    destruct (res_mapM f l) as [bs|]; [|discriminate].
    injection H as <-. destruct k as [|k]; simpl in Hk.
    + injection Hk as <-. now exists a.
    + exact (IH bs eq_refl k b Hk).
Qed.

Lemma res_mapM_Forall {A B} (f : A -> res B) (P : B -> Prop) (l : list A) (l' : list B) :
  res_mapM f l = Ok l' -> (forall a b, f a = Ok b -> P b) -> Forall P l'.
Proof.
  intros H HP. apply Forall_lookup. intros k b Hk.
  destruct (res_mapM_lookup f l l' H k b Hk) as (a & _ & Hf). now apply HP with a.
Qed.

(** Reading a column of a report whose rows are as wide as the headers. *)
Lemma column_of_rows (rows : list (list value)) (i n : nat) :
  Forall (fun row => length row = n) rows -> (i < n)%nat ->
  exists vs,
    res_mapM (fun row => match row !! i with
                         | Some v => Ok v
                         | None => Raise (raise_of IndexError "tuple index out of range")
                         end) rows = Ok vs /\
    length vs = length rows /\
    forall k row, rows !! k = Some row -> vs !! k = row !! i.
Proof.
  intros Hwidth Hi. induction Hwidth as [|row rows Hrow _ IH].
  - exists []. repeat split. intros k row Hk. discriminate.
  - destruct IH as (vs & Hvs & Hlen & Hk).
    destruct (lookup_lt_is_Some_2 row i) as [v Hv]; [lia|].
    exists (v :: vs). simpl. rewrite Hv, Hvs. split; [reflexivity|].
    split; [now rewrite Hlen|].
    intros [|k] row' Hrow'; simpl in *.
    + now injection Hrow' as <-.
    + now apply Hk.
Qed.

(** The metrics and the dimensions of a report are those of the query. *)
Lemma Report_init_columns (r : Report) (p : response) (c : qid) (o : Query)
    (ms ds : list string) (w w' : world C) :
  Report_init env p c w = (Ok r, w') ->
  queries w !! c = Some o ->
  Dict.get (raw o) "metrics" = Some (VList ms) ->
  Dict.get (raw o) "dimensions" = Some (VList ds) ->
  rp_metrics r = list_to_set ms /\ rp_dimensions r = list_to_set ds.
Proof.
  unfold Report_init, bind at 1, lift at 1.
  destruct (res_mapM (registry_lookup env) (columnHeaders p)) as [headers|];
    [|discriminate].
  destruct (negb _); [discriminate|].
  intros Hrun Hc Hms Hds. revert Hrun.
  unfold Report_append, bind, read_query, lift, ret, error, throw.
  rewrite Hc, Hms. unfold Dict.get_default. rewrite Hds. cbn [Py.iter].
  destruct (res_mapM _ _) as [typed|]; [|discriminate].
  destruct (totalsForAllResults p) as [|[k t] rest]; [discriminate|].
  intros [= <- <-]. cbn [rp_metrics rp_dimensions].
  split; apply (left_id_L ∅ (∪)).
Qed.

(** A row that is shorter than the headers is refused. *)
Lemma cast_row_short (headers : list Column) :
  forall (cells : list string),
  (length cells < length headers)%nat ->
  is_ok (cast_row env headers cells) = false /\
  ((forall i h x, headers !! i = Some h -> cells !! i = Some x ->
      is_ok (cast env h x) = true) ->
   cast_row env headers cells =
     Raise (raise_of IndexError "list index out of range")).
Proof.
  induction headers as [|h hs IH]; intros cells Hlen; simpl in Hlen; [lia|].
  destruct cells as [|x xs]; simpl.
  - split; reflexivity.
  - simpl in Hlen. destruct (IH xs ltac:(lia)) as [Hfail Herr]. split.
    + destruct (cast env h x); [|reflexivity].
      now destruct (cast_row env hs xs).
    + intros Hcast. pose proof (Hcast 0%nat h x eq_refl eq_refl) as H0.
      destruct (cast env h x); [|discriminate].
      rewrite Herr; [reflexivity|].
      intros i h' x' Hh Hx. exact (Hcast (S i) h' x' Hh Hx).
Qed.

End Reports.

(** X21. The report that [Report(raw, query)] builds from a page is typed
    and as wide as its headers: the headers are the columns that the names
    of [columnHeaders] resolve to, with distinct slugs; there is one row for
    each row of the page, in order; and the value of row [k] in column [i]
    is what the caster of header [i] makes of cell [i] of row [k] of the
    page. Its metrics and dimensions are those of the query. Nothing in the
    world changes. *)
Theorem report_rows_are_cast_cells {C : Type} (env : Env C) (p : response)
    (c : qid) (w w' : world C) (r : Report) :
  Report_init env p c w = (Ok r, w') ->
  w' = w /\
  res_mapM (registry_lookup env) (columnHeaders p) = Ok (rp_headers r) /\
  NoDup (map col_pyslug (rp_headers r)) /\
  Report_len r = page_rows p /\
  well_formed r /\
  (forall k row i v,
     rp_rows r !! k = Some row -> row !! i = Some v ->
     exists cells,
       default [] (rows p) !! k = Some cells /\
       cast_of env (rp_headers r) cells i v) /\
  (forall o ms ds,
     queries w !! c = Some o ->
     Dict.get (raw o) "metrics" = Some (VList ms) ->
     Dict.get (raw o) "dimensions" = Some (VList ds) ->
     rp_metrics r = list_to_set ms /\ rp_dimensions r = list_to_set ds).
Proof.
  intros Hrun. pose proof Hrun as Hcolumns. apply Report_init_inv in Hrun.
  destruct Hrun as (-> & Hheaders & Hnodup & Hslugs & _ & _ & Hcast & _).
  split; [reflexivity|]. split; [exact Hheaders|].
  split; [now rewrite <- Hslugs|].
  split; [unfold Report_len, page_rows; now apply res_mapM_length in Hcast|].
  split; [|split].
  3:{ intros o ms ds Hc Hms Hds.
      exact (Report_init_columns env r p c o ms ds w w Hcolumns Hc Hms Hds). }
  - unfold well_formed. eapply res_mapM_Forall; [exact Hcast|].
    intros cells row Hrow. now apply cast_row_cells in Hrow as [Hlen _].
  - intros k row i v Hk Hi.
    destruct (res_mapM_lookup _ _ _ Hcast k row Hk) as (cells & Hcells & Hrow).
    exists cells. split; [exact Hcells|].
    apply cast_row_cells in Hrow as [_ Hrow]. now apply Hrow.
Qed.

Lemma report_rows_are_cast_cells_witness :
  exists r,
    fst (Report_init (Mock.env []) (Mock.page 2 false) 0%nat
           (Fixtures.base_world None)) = Ok r /\
    Report_len r = 2%nat /\ well_formed r.
Proof.
  destruct (Report_init (Mock.env []) (Mock.page 2 false) 0%nat
              (Fixtures.base_world None)) as [[r|e] w'] eqn:Hrun.
  - exists r. split; [reflexivity|].
    destruct (report_rows_are_cast_cells (Mock.env []) (Mock.page 2 false) 0%nat
                (Fixtures.base_world None) w' r Hrun) as (_ & _ & _ & Hlen & Hwf & _).
    split; [exact Hlen|exact Hwf].
  - exfalso. vm_compute in Hrun. discriminate.
Defined.

(** X22. A report is read by column: [report[key]] gives, for the column
    that the key is the header of, the value of every row in that column, in
    the order of the rows, as many as [len(report)]; a key that is the
    header of no column raises the [ValueError] that names it. A column
    object is looked up by its slug. *)
Theorem report_column_by_name {C : Type} (env : Env C) (r : Report) (key : string) :
  well_formed r ->
  (forall i,
     headers_index env (rp_headers r) key = Some i ->
     (i < length (rp_headers r))%nat ->
     exists vs,
       Report_getitem_name env r key = Ok vs /\
       length vs = Report_len r /\
       forall k row, rp_rows r !! k = Some row -> vs !! k = row !! i) /\
  (headers_index env (rp_headers r) key = None ->
   Report_getitem_name env r key =
     Raise (raise_of ValueError (key +:+ " not in column headers"))) /\
  (forall c, col_slug c = key ->
     Report_getitem env r c = Report_getitem_name env r key).
Proof.
  intros Hwf. split; [|split].
  - intros i Hi Hlt. unfold Report_getitem_name. rewrite Hi.
    exact (column_of_rows (rp_rows r) i (length (rp_headers r)) Hwf Hlt).
  - intros Hi. unfold Report_getitem_name. now rewrite Hi.
  - intros c <-. reflexivity.
Qed.

Lemma report_column_by_name_witness :
  Report_getitem_name (Mock.env []) Fixtures.report42 "PageViews" = Ok [VInt 42] /\
  Report_getitem_name (Mock.env []) Fixtures.report42 "sessions" =
    Raise (raise_of ValueError "sessions not in column headers").
Proof.
  assert (Hwf : well_formed Fixtures.report42).
  { repeat constructor. }
  split.
  - destruct (proj1 (report_column_by_name (Mock.env []) Fixtures.report42
                       "PageViews" Hwf) 0%nat eq_refl ltac:(simpl; lia))
      as (vs & Hvs & Hlen & Hrows).
    rewrite Hvs. f_equal.
    destruct vs as [|v [|v' vs]]; try discriminate.
    specialize (Hrows 0%nat [VInt 42] eq_refl). simpl in Hrows. congruence.
  - exact (proj1 (proj2 (report_column_by_name (Mock.env []) Fixtures.report42
                           "sessions" Hwf)) eq_refl).
Defined.

(** X23. [first] and [last] are [None] exactly when the report has no row,
    and the same row when it has one. Appending a page keeps the first row
    of a report that has rows, and makes the last row of the page the last
    row of the report when the page has rows. *)
Theorem first_and_last_rows {C : Type} (env : Env C) (r : Report) :
  (Report_first r = None <-> Report_len r = 0%nat) /\
  (Report_last r = None <-> Report_len r = 0%nat) /\
  (Report_len r = 1%nat -> Report_first r = Report_last r) /\
  forall p c (w w' : world C) r',
    Report_append env r p c w = (Ok r', w') ->
    (Report_len r <> 0%nat -> Report_first r' = Report_first r) /\
    (page_rows p <> 0%nat ->
     Report_last r' = last (typed_rows env (rp_headers r) p)) /\
    (page_rows p = 0%nat -> Report_last r' = Report_last r).
Proof.
  unfold Report_first, Report_last, Report_len.
  split; [|split; [|split]].
  - destruct (rp_rows r); simpl; split; congruence.
  - destruct (rp_rows r) as [|row rows] using rev_ind; simpl.
    + tauto.
    + rewrite last_snoc, length_app. simpl. split; [discriminate|lia].
  - destruct (rp_rows r) as [|row [|row' rows]]; simpl; try discriminate.
    reflexivity.
  - intros p c w w' r' Hrun. apply Report_append_inv in Hrun.
    destruct Hrun as (_ & Hrows & Hcast & _). rewrite Hrows.
    apply res_mapM_length in Hcast. fold (page_rows p) in Hcast.
    split; [|split].
    + intros Hlen. destruct (rp_rows r); [contradiction|reflexivity].
    + intros Hp.
      destruct (typed_rows env (rp_headers r) p) as [|row rows] using rev_ind;
        [simpl in Hcast; lia|].
      now rewrite app_assoc, !last_snoc.
    + intros Hp. rewrite Hp in Hcast.
      destruct (typed_rows env (rp_headers r) p); [|discriminate].
      now rewrite app_nil_r.
Qed.

(** X27. The cells of a row are read by the position of the headers: cells
    beyond the last header are not read, and a row with fewer cells than
    there are headers is refused, with [IndexError] when the cells it has
    can be cast. *)
Theorem rows_wider_or_narrower_than_headers {C : Type} (env : Env C)
    (headers : list Column) (cells : list string) :
  (forall vs extra,
     cast_row env headers cells = Ok vs ->
     cast_row env headers (cells ++ extra) = Ok vs /\
     length vs = length headers) /\
  ((length cells < length headers)%nat ->
   is_ok (cast_row env headers cells) = false /\
   ((forall i h x, headers !! i = Some h -> cells !! i = Some x ->
       is_ok (cast env h x) = true) ->
    cast_row env headers cells =
      Raise (raise_of IndexError "list index out of range"))).
Proof.
  split.
  - intros vs extra Hrow. split; [now apply cast_row_extra|].
    now apply cast_row_cells in Hrow as [Hlen _].
  - apply cast_row_short.
Qed.

(** ** The pages merged by [get] *)

Section Merge.
Context {C : Type} (env : Env C).

Lemma typed_rows_length (headers : list Column) (p : response) :
  page_ok env headers p -> length (typed_rows env headers p) = page_rows p.
Proof.
  intros [Hcast _]. unfold typed_rows, page_rows.
  destruct (res_mapM _ _) as [typed|] eqn:Htyped; [|discriminate].
  now apply res_mapM_length in Htyped.
Qed.

Lemma merged_rows_length (headers : list Column) (pages : list response) :
  Forall (page_ok env headers) pages ->
  length (concat (map (typed_rows env headers) pages)) =
    sum_list_with page_rows pages.
Proof.
  induction 1 as [|p pages Hp _ IH]; [reflexivity|].
  simpl. now rewrite length_app, IH, typed_rows_length.
Qed.

Lemma sum_rows_zero (pages : list response) :
  sum_list_with page_rows pages = 0%nat ->
  Forall (fun p => page_rows p = 0%nat) pages.
Proof.
  induction pages as [|p pages IH]; simpl; intros H; constructor; [lia|].
  apply IH. lia.
Qed.

(** While the report has no row, the page that comes takes its place. *)
Lemma kept_pages_empty (pages : list response) (p : response) :
  Forall (fun p => page_rows p = 0%nat) pages -> kept_pages (pages ++ [p]) = [p].
Proof.
  induction 1 as [|p0 pages Hp0 _ IH]; [reflexivity|].
  change ((p0 :: pages) ++ [p]) with (p0 :: (pages ++ [p])).
  cbn [kept_pages]. rewrite Hp0. cbn [Nat.eqb]. rewrite IH.
  now destruct (pages ++ [p]) eqn:E; [destruct pages; discriminate|].
Qed.

(** Once the report has rows, every page that comes is kept. *)
Lemma kept_pages_snoc (pages : list response) (p : response) :
  sum_list_with page_rows pages <> 0%nat ->
  kept_pages (pages ++ [p]) = kept_pages pages ++ [p].
Proof.
  induction pages as [|p0 pages IH]; simpl sum_list_with; intros Hsum; [lia|].
  change ((p0 :: pages) ++ [p]) with (p0 :: (pages ++ [p])).
  destruct pages as [|p1 pages].
  - simpl in *. destruct (Nat.eqb_spec (page_rows p0) 0); [lia|reflexivity].
  - change (kept_pages (p0 :: (p1 :: pages) ++ [p]))
      with (if Nat.eqb (page_rows p0) 0 then kept_pages ((p1 :: pages) ++ [p])
            else p0 :: (p1 :: pages) ++ [p]).
    change (kept_pages (p0 :: p1 :: pages))
      with (if Nat.eqb (page_rows p0) 0 then kept_pages (p1 :: pages)
            else p0 :: p1 :: pages).
    destruct (Nat.eqb_spec (page_rows p0) 0) as [Hz|Hz]; [|reflexivity].
    apply IH. lia.
Qed.

Lemma last_totals_snoc (pages : list response) (p : response) :
  last_totals (pages ++ [p]) = totalsForAllResults p.
Proof. unfold last_totals. now rewrite last_snoc. Qed.

(** An execution without a cache, up to the report. *)
Lemma execute_uncached_eq (w : world C) (c : qid) (oc : Query)
    (ms ds : list string) (p : response) :
  queries w !! c = Some oc ->
  Dict.get (raw oc) "metrics" = Some (VList ms) ->
  Dict.get (raw oc) "dimensions" = Some (VList ds) ->
  cache w = None ->
  endpoint env (length (calls w)) (built_raw (raw oc) ms ds) = Ok p ->
  execute env c w =
    Report_init env p c (after_call w c oc (built_raw (raw oc) ms ds)).
Proof.
  intros Hc Hms Hds Hcache Hcall.
  unfold execute, bind at 1.
  rewrite (build_lists true w c oc ms ds Hc Hms Hds).
  unfold bind at 1, get_cache at 1. rewrite Hcache.
  unfold bind at 1, ret at 1.
  unfold bind at 1, try_except, bind at 1.
  rewrite (_wait_run w c oc Hc). cbv zeta.
  unfold call_endpoint. cbn [calls set_queries set_now]. rewrite Hcall.
  unfold bind at 1, get_cache at 1. cbn [cache set_calls set_queries set_now].
  rewrite Hcache. unfold bind at 1, ret at 1.
  reflexivity.
Qed.

End Merge.

Section LoopContent.
Context {C : Type} (env : Env C).
Context (self : qid) (r0 : dict value) (ms ds : list string) (start size : Z).
Context (limit : option Z) (names : list string) (headers : list Column).
Context (n0 : nat) (sent0 : list (dict value)).

Hypothesis r0_metrics : Dict.get r0 "metrics" = Some (VList ms).
Hypothesis r0_dimensions : Dict.get r0 "dimensions" = Some (VList ds).
Hypothesis r0_start : int_param r0 "start_index" 1 = Some start.
Hypothesis r0_size : int_param r0 "max_results" 1000 = Some size.
Hypothesis names_ok : headers_ok env names headers.

Local Abbreviation wire := (page_wire r0 ms ds start size).
Local Abbreviation loop_inv :=
  (loop_state self r0 ms ds start size limit headers n0 sent0).
Local Abbreviation content := (loop_content env headers).

(** One round of the loop, with what the report holds after it. *)
Lemma get_loop_round_content (fuel i : nat) (cursor : qid) (report : option Report)
    (gathered : nat) (w : world C) (p : response) (fetched : list response) :
  loop_inv i cursor report gathered w ->
  content fetched report ->
  endpoint env (n0 + i) (wire i) = Ok p ->
  columnHeaders p = names ->
  page_ok env headers p ->
  exists report' cursor' w',
    get_loop env (S fuel) self cursor report w =
      (if stops_after limit (gathered + page_rows p) p
       then (Ok (Some report'), w')
       else get_loop env fuel self cursor' (Some report') w') /\
    loop_inv (S i) cursor' (Some report') (gathered + page_rows p) w' /\
    content (fetched ++ [p]) (Some report') /\
    rp_is_complete report' = negb (bool_decide (is_Some (nextLink p))).
Proof.
  intros (Hcache & (os & Hself & Hlimit) & (oc & Hcur & Hraw) & Hlen & Hsent & Hrep)
    (Hfetched & Hcontent) Hcall Hnames Hpage.
  assert (Hms := cursor_raw_metrics r0 ms start size r0_metrics i).
  assert (Hds := cursor_raw_dimensions r0 ds start size r0_dimensions i).
  rewrite <- Hraw in Hms, Hds.
  assert (Hcall' : endpoint env (length (calls w)) (built_raw (raw oc) ms ds) = Ok p).
  { rewrite Hlen, Hraw. exact Hcall. }
  assert (Hh : headers_ok env (columnHeaders p) headers) by now rewrite Hnames.
  destruct (execute_uncached_ok env w cursor oc ms ds p headers
              Hcur Hms Hds Hcache Hcall' Hh Hpage)
    as (chunk & Hexec & Hrows & Hheaders & Hchunk & Hcomplete).
  set (w1 := after_call w cursor oc (built_raw (raw oc) ms ds)) in *.
  assert (Hinit : Report_init env p cursor w1 = (Ok chunk, w1)).
  { rewrite <- Hexec. symmetry.
    now apply execute_uncached_eq. }
  apply Report_init_inv in Hinit.
  destruct Hinit as (_ & _ & _ & _ & _ & Hchunk_rows & _ & _ & _ & Hchunk_totals & _).
  rewrite Hheaders in Hchunk_rows.
  assert (Hlt : (cursor < length (queries w))%nat) by now apply lookup_lt_Some in Hcur.
  assert (Hcur1 : queries w1 !! cursor = Some (with_lock oc (now w1))).
  { unfold w1, after_call. cbn. now apply list_lookup_insert_eq. }
  assert (Hself1 : exists os1, queries w1 !! self = Some os1 /\
                     meta os1 !! "limit" = (fun z => MVal (VInt z)) <$> limit).
  { destruct (decide (self = cursor)) as [->|Hne].
    - exists (with_lock oc (now w1)). split; [exact Hcur1|].
      rewrite Hcur in Hself. injection Hself as <-. exact Hlimit.
    - exists os. split; [|exact Hlimit].
      unfold w1, after_call. cbn. now rewrite list_lookup_insert_ne. }
  destruct Hself1 as (os1 & Hself1 & Hlimit1).
  assert (Hfetched' : Forall (page_ok env headers) (fetched ++ [p])).
  { apply Forall_app. split; [exact Hfetched|]. now constructor. }
  (* the report after this page *)
  assert (Hmerge : exists report',
    match report with
    | Some r =>
        if negb (Nat.eqb (length (rp_rows r)) 0) then
          match rp_raw chunk with
          | page :: _ => Report_append env r page cursor
          | [] => error IndexError "list index out of range"
          end
        else ret chunk
    | None => ret chunk
    end w1 = (Ok report', w1) /\
    length (rp_rows report') = (gathered + page_rows p)%nat /\
    rp_headers report' = headers /\
    rp_is_complete report' = negb (bool_decide (is_Some (nextLink p))) /\
    content (fetched ++ [p]) (Some report')).
  { destruct report as [r|].
    - destruct Hrep as [Hr Hrh].
      destruct Hcontent as (Hne & Hr_rows & Hr_raw & Hr_totals).
      assert (Hsum : length (rp_rows r) = sum_list_with page_rows fetched).
      { rewrite Hr_rows. now apply merged_rows_length. }
      destruct (Nat.eqb_spec (length (rp_rows r)) 0) as [Hzero|Hpos]; cbn [negb].
      + exists chunk. split; [reflexivity|]. rewrite Hrows.
        split; [lia|]. split; [exact Hheaders|]. split; [exact Hcomplete|].
        split; [exact Hfetched'|].
        split; [now destruct fetched|].
        split; [|split].
        * rewrite map_app, concat_app, <- Hr_rows. cbn [map concat].
          rewrite app_nil_r, Hchunk_rows.
          destruct (rp_rows r); [reflexivity|discriminate].
        * rewrite Hchunk. symmetry. apply kept_pages_empty.
          apply sum_rows_zero. lia.
        * now rewrite last_totals_snoc.
      + rewrite Hchunk.
        assert (Hpage' : page_ok env (rp_headers r) p) by now rewrite Hrh.
        destruct (Report_append_run env w1 r p cursor _ ms ds Hcur1 Hms Hds Hpage')
          as (report' & Hrun & Hlen' & Hh' & _ & _ & Hc').
        exists report'. split; [exact Hrun|]. split; [lia|].
        split; [congruence|]. split; [exact Hc'|].
        apply Report_append_inv in Hrun.
        destruct Hrun as (_ & Hrows' & _ & Hraw' & _ & _ & _ & _ & Htotals' & _).
        split; [exact Hfetched'|].
        split; [now destruct fetched|].
        split; [|split].
        * rewrite Hrows', Hrh, Hr_rows, map_app, concat_app. cbn [map concat].
          now rewrite app_nil_r.
        * rewrite Hraw', Hr_raw. symmetry. apply kept_pages_snoc. lia.
        * now rewrite last_totals_snoc.
    - exists chunk. split; [reflexivity|]. rewrite Hrows.
      split; [lia|]. split; [exact Hheaders|]. split; [exact Hcomplete|].
      subst fetched. split; [exact Hfetched'|].
      split; [discriminate|]. cbn [app map concat kept_pages].
      rewrite app_nil_r. split; [exact Hchunk_rows|]. split; [exact Hchunk|].
      exact Hchunk_totals. }
  destruct Hmerge as (report' & Hmerge & Hgathered & Hrh' & Hcomplete' & Hcontent').
  assert (Hnext := next_run env w1 cursor (with_lock oc (now w1))
                     (start + Z.of_nat i * size) size Hcur1).
  cbn [raw with_lock] in Hnext. rewrite Hraw in Hnext.
  specialize (Hnext (cursor_raw_start r0 start size r0_start i)
                    (cursor_raw_size r0 start size r0_size i)).
  rewrite cursor_raw_next in Hnext.
  set (w2 := set_queries w1 _) in Hnext.
  exists report', (length (queries w1)), w2.
  split; [|split; [|split]].
  - cbn [get_loop]. unfold bind at 1. rewrite Hexec. fold w1.
    unfold bind at 1. rewrite Hmerge.
    unfold bind at 1, read_query at 1. rewrite Hself1.
    unfold bind at 1, lift at 1.
    rewrite Hlimit1, is_enough_limit.
    unfold bind at 1. rewrite Hnext.
    rewrite Hgathered, Hcomplete. unfold stops_after, ret.
    now destruct (_ || _).
  - unfold loop_state. repeat split.
    + unfold w2, w1, after_call. cbn. exact Hcache.
    + exists os1. split; [|exact Hlimit1].
      unfold w2. cbn. now apply lookup_snoc_lt.
    + eexists. split; [unfold w2; cbn; apply lookup_snoc|reflexivity].
    + unfold w2, w1, after_call. cbn. rewrite length_app. simpl. lia.
    + unfold w2, w1, after_call. cbn [calls set_queries set_calls set_now].
      rewrite map_app, Hsent, seq_S, map_app, <- app_assoc.
      cbn [map snd Nat.add]. unfold page_wire at 2. now rewrite Hraw.
    + exact Hgathered.
    + exact Hrh'.
  - exact Hcontent'.
  - exact Hcomplete'.
Qed.

(** The loop over the pages that remain, with what the report holds when
    it stops. *)
Lemma get_loop_pages_content (rest : list response) (last : response) :
  forall (fuel i : nat) (cursor : qid) (report : option Report)
         (gathered : nat) (w : world C) (fetched : list response),
  loop_inv i cursor report gathered w ->
  content fetched report ->
  (forall j p, (rest ++ [last]) !! j = Some p ->
     endpoint env (n0 + (i + j)) (wire (i + j)) = Ok p /\
     columnHeaders p = names /\ page_ok env headers p) ->
  (forall j p, rest !! j = Some p ->
     stops_after limit
       (gathered + sum_list_with page_rows (take (S j) rest)) p = false) ->
  stops_after limit
    (gathered + sum_list_with page_rows rest + page_rows last) last = true ->
  (length rest < fuel)%nat ->
  exists report' cursor' w',
    get_loop env fuel self cursor report w = (Ok (Some report'), w') /\
    loop_inv (i + S (length rest)) cursor' (Some report')
      (gathered + sum_list_with page_rows rest + page_rows last) w' /\
    content (fetched ++ rest ++ [last]) (Some report').
Proof.
  induction rest as [|p rest IH];
    intros fuel i cursor report gathered w fetched Hinv Hcontent Hpages Hgo Hstop Hfuel.
  - destruct fuel as [|fuel]; [simpl in Hfuel; lia|].
    destruct (Hpages O last eq_refl) as (Hcall & Hnames & Hpage).
    rewrite Nat.add_0_r in Hcall.
    destruct (get_loop_round_content fuel i cursor report gathered w last fetched
                Hinv Hcontent Hcall Hnames Hpage)
      as (report' & cursor' & w' & Hrun & Hinv' & Hcontent' & _).
    simpl sum_list_with in *. rewrite Nat.add_0_r in Hstop. rewrite Hstop in Hrun.
    exists report', cursor', w'. split; [exact Hrun|]. split; [|exact Hcontent'].
    simpl length. rewrite Nat.add_0_r, Nat.add_1_r. exact Hinv'.
  - destruct fuel as [|fuel]; [simpl in Hfuel; lia|].
    destruct (Hpages O p eq_refl) as (Hcall & Hnames & Hpage).
    rewrite Nat.add_0_r in Hcall.
    destruct (get_loop_round_content fuel i cursor report gathered w p fetched
                Hinv Hcontent Hcall Hnames Hpage)
      as (report1 & cursor1 & w1 & Hrun & Hinv1 & Hcontent1 & _).
    assert (Hgo0 := Hgo O p eq_refl). simpl in Hgo0.
    rewrite Nat.add_0_r in Hgo0. rewrite Hgo0 in Hrun.
    destruct (IH fuel (S i) cursor1 (Some report1) (gathered + page_rows p)%nat w1
                (fetched ++ [p]))
      as (report' & cursor' & w' & Hrun' & Hinv' & Hcontent'); try assumption.
    + intros j p' Hj. specialize (Hpages (S j) p' Hj).
      now replace (i + S j)%nat with (S i + j)%nat in Hpages by lia.
    + intros j p' Hj. specialize (Hgo (S j) p' Hj).
      simpl in Hgo. simpl. now rewrite Nat.add_assoc in Hgo.
    + simpl in Hstop. now rewrite !Nat.add_assoc in Hstop.
    + simpl in Hfuel. lia.
    + exists report', cursor', w'. split; [now rewrite Hrun|].
      split; [|now rewrite <- app_assoc in Hcontent'].
      simpl. replace (i + S (S (length rest)))%nat with (S i + S (length rest))%nat by lia.
      now rewrite !Nat.add_assoc.
Qed.

End LoopContent.

(** X24. What [get] returns. Under the conditions of pagination (a query
    with list metrics and dimensions, no cache, and the pages [before ++
    [last]] as the answers of the service, after each of which but the last
    the loop goes on), the report holds the rows of all the pages, in the
    order of the pages and of their rows, each value cast by the caster of
    its column; its totals are those of the last page alone; and its [raw]
    holds the pages from the first page that has rows on, or the last page
    when none has: a page that comes while the report has no row replaces
    the report. *)
Theorem get_merges_pages_in_order {C : Type} (env : Env C) (w : world C) (q : qid)
    (o : Query) (ms ds : list string) (start size : Z) (limit : option Z)
    (names : list string) (headers : list Column)
    (before : list response) (last : response) (fuel : nat) :
  queries w !! q = Some o ->
  Dict.get (raw o) "metrics" = Some (VList ms) ->
  Dict.get (raw o) "dimensions" = Some (VList ds) ->
  int_param (raw o) "start_index" 1 = Some start ->
  int_param (raw o) "max_results" 1000 = Some size ->
  meta o !! "limit" = (fun z => MVal (VInt z)) <$> limit ->
  cache w = None ->
  headers_ok env names headers ->
  (forall j p, (before ++ [last]) !! j = Some p ->
     endpoint env (length (calls w) + j)
       (built_raw (cursor_raw (raw o) start size j) ms ds) = Ok p /\
     columnHeaders p = names /\ page_ok env headers p) ->
  (forall j p, before !! j = Some p ->
     stops_after limit (sum_list_with page_rows (take (S j) before)) p = false) ->
  stops_after limit (sum_list_with page_rows (before ++ [last])) last = true ->
  (length before < fuel)%nat ->
  exists report w',
    get env fuel q w = (Ok (Some report), w') /\
    rp_headers report = headers /\
    rp_rows report = concat (map (typed_rows env headers) (before ++ [last])) /\
    well_formed report /\
    rp_totals report = totalsForAllResults last /\
    rp_raw report = kept_pages (before ++ [last]).
Proof.
  intros Hq Hms Hds Hstart Hsize Hlimit Hcache Hnames Hpages Hgo Hstop Hfuel.
  assert (Hinv : loop_state q (raw o) ms ds start size limit headers
                   (length (calls w)) (map snd (calls w)) 0 q None 0 w).
  { unfold loop_state. repeat split; auto.
    - now exists o.
    - now exists o.
    - simpl. now rewrite app_nil_r. }
  assert (Hcontent : loop_content env headers [] None).
  { split; [constructor|reflexivity]. }
  destruct (get_loop_pages_content env q (raw o) ms ds start size limit names headers
              (length (calls w)) (map snd (calls w)) Hms Hds Hstart Hsize Hnames
              before last fuel 0 q None 0 w [] Hinv Hcontent)
    as (report & cursor & w' & Hrun & (_ & _ & _ & _ & _ & _ & Hh)
        & (Hok & _ & Hrows & Hraw & Htotals)); try assumption.
  - rewrite sum_list_with_app in Hstop. simpl in Hstop.
    now rewrite Nat.add_0_r in Hstop.
  - cbn [app] in *. exists report, w'. split; [exact Hrun|].
    split; [exact Hh|]. split; [exact Hrows|].
    split; [|split; [|exact Hraw]].
    + unfold well_formed. rewrite Hrows, Hh.
      apply Forall_concat, Forall_map. cbn [compose].
      eapply Forall_impl; [exact Hok|]. intros p [Hcast _].
      unfold typed_rows. cbn beta.
      destruct (res_mapM (cast_row env headers) (default [] (rows p)))
        as [typed|] eqn:Htyped; [|discriminate].
      eapply res_mapM_Forall; [exact Htyped|].
      intros cells row Hrow. now apply cast_row_cells in Hrow as [Hlen _].
    + rewrite Htotals. apply last_totals_snoc.
Qed.

Lemma get_merges_pages_in_order_witness :
  exists report w',
    get (Mock.env Fixtures.two_pages) 2 0%nat Fixtures.limited_world =
      (Ok (Some report), w') /\
    rp_rows report = repeat [VInt 42] 20 /\
    rp_raw report = [Mock.page 10 true; Mock.page 10 true].
Proof.
  destruct (get_merges_pages_in_order (Mock.env Fixtures.two_pages)
              Fixtures.limited_world
              0%nat Fixtures.limited ["ga:pageviews"] [] 1 15 (Some 15)
              ["ga:pageviews"] [Mock.pageviews]
              [Mock.page 10 true] (Mock.page 10 true) 2)
    as (report & w' & Hrun & _ & Hrows & _ & _ & Hraw); try reflexivity.
  - split; [reflexivity|]. apply NoDup_singleton.
  - intros [|[|j]] p Hj; simpl in Hj; try discriminate;
      injection Hj as <-; repeat split; discriminate.
  - intros [|j] p Hj; simpl in Hj; [|discriminate].
    now injection Hj as <-.
  - simpl. lia.
  - exists report, w'. split; [exact Hrun|]. split; [exact Hrows|exact Hraw].
Defined.



(** ** Queries against the real time API *)


